(** * Admin Setor: the back-office API and its tool gateway

    A shallow embedding of [app.py] (the CRUD handlers over the relational
    store, with the settlement rule of [create_payment]) and of
    [mcp_server.py] (the tools that forward to the HTTP surface).

    The relational store is modelled as six tables of rows plus the six
    [SERIAL] sequences that feed the primary keys.  A commit either applies
    a statement or raises: [ValueError] when the driver cannot send a value,
    [DataError] when a value does not fit its column or the sequence is
    exhausted, [IntegrityError] when one of the constraints declared on the
    SQLAlchemy models would be violated.  The rows are then those of before
    (a sequence value that was drawn stays drawn). *)

From Stdlib Require Import ZArith Ascii String List Lia.
From stdpp Require Import base decidable option numbers list strings gmap sorting.

Local Open Scope string_scope.
Local Open Scope list_scope.
Local Open Scope Z_scope.

(** ** Dates ([datetime.date], [datetime.datetime]) *)

Record date := mkdate { year : Z; month : Z; day : Z }.

Record datetime := mkdatetime {
  dt_date : date; hour : Z; minute : Z; second : Z
}.

Global Instance date_eq_dec : EqDecision date.
Proof. solve_decision. Defined.

(** ** Models (SQLAlchemy) *)

Module Department.
Record t := mk {
  id : Z; name : string; cost_center : string; created_at : Z
}.
End Department.

Module Employee.
Record t := mk {
  id : Z; department_id : Z; full_name : string; email : string;
  role : string; salary_cents : Z; hired_on : date; active : bool;
  created_at : Z
}.
End Employee.

Module Supplier.
Record t := mk {
  id : Z; name : string; tax_id : string;
  email : option string; phone : option string; created_at : Z
}.
End Supplier.

Module PurchaseOrder.
Record t := mk {
  id : Z; supplier_id : Z; requested_by : Z; department_id : Z;
  status : string; total_cents : Z; created_at : Z
}.
End PurchaseOrder.

Module Invoice.
Record t := mk {
  id : Z; supplier_id : Z; po_id : option Z; invoice_no : string;
  issued_on : date; due_on : date; amount_cents : Z; status : string;
  created_at : Z
}.

Definition set_status (s : string) (i : t) : t :=
  mk (id i) (supplier_id i) (po_id i) (invoice_no i) (issued_on i)
     (due_on i) (amount_cents i) s (created_at i).

Definition set_po_id (p : option Z) (i : t) : t :=
  mk (id i) (supplier_id i) p (invoice_no i) (issued_on i)
     (due_on i) (amount_cents i) (status i) (created_at i).
End Invoice.

Module Payment.
Record t := mk {
  id : Z; invoice_id : Z; paid_on : date; amount_cents : Z;
  method : string; reference : option string; created_at : Z
}.
End Payment.

(** ** Schemas (Pydantic): the payloads of the [POST] handlers *)

Module DepartmentCreate.
Record t := mk { name : string; cost_center : string }.
End DepartmentCreate.

Module EmployeeCreate.
Record t := mk {
  department_id : Z; full_name : string; email : string; role : string;
  salary_cents : Z; hired_on : date; active : bool
}.
End EmployeeCreate.

Module SupplierCreate.
Record t := mk {
  name : string; tax_id : string;
  email : option string; phone : option string
}.
End SupplierCreate.

Module POCreate.
Record t := mk {
  supplier_id : Z; requested_by : Z; department_id : Z;
  status : string; total_cents : Z
}.
End POCreate.

Module InvoiceCreate.
Record t := mk {
  supplier_id : Z; po_id : option Z; invoice_no : string;
  issued_on : date; due_on : date; amount_cents : Z; status : string
}.
End InvoiceCreate.

Module PaymentCreate.
Record t := mk {
  invoice_id : Z; paid_on : date; amount_cents : Z;
  method : string; reference : option string
}.
End PaymentCreate.

Global Instance Department_eq_dec : EqDecision Department.t.
Proof. solve_decision. Defined.
Global Instance Employee_eq_dec : EqDecision Employee.t.
Proof. solve_decision. Defined.
Global Instance Supplier_eq_dec : EqDecision Supplier.t.
Proof. solve_decision. Defined.
Global Instance PurchaseOrder_eq_dec : EqDecision PurchaseOrder.t.
Proof. solve_decision. Defined.
Global Instance Invoice_eq_dec : EqDecision Invoice.t.
Proof. solve_decision. Defined.
Global Instance Payment_eq_dec : EqDecision Payment.t.
Proof. solve_decision. Defined.

(** ** Validation of the request bodies

    [Field(min_length=2)], [Field(ge=0)], [Field(gt=0)] and
    [Field(pattern=...)] of the schemas; a body that fails them is refused
    before the handler runs.  The pattern of a status or method is an
    alternation between [^] and [$]: the string is one of the alternatives.
    [EmailStr] is the check of a library outside this repository: the
    [email] of a payload is the address it has validated. *)

Definition po_status_check (s : string) : Prop :=
  s ∈ ["DRAFT"; "APPROVED"; "SENT"; "RECEIVED"; "CANCELLED"].
Definition inv_status_check (s : string) : Prop :=
  s ∈ ["OPEN"; "PAID"; "CANCELLED"; "OVERDUE"].
Definition pay_method_check (s : string) : Prop :=
  s ∈ ["PIX"; "TED"; "BOLETO"; "CREDIT_CARD"; "CASH"].

Definition DepartmentCreate_valid (p : DepartmentCreate.t) : Prop :=
  (2 ≤ String.length (DepartmentCreate.name p))%nat
  ∧ (2 ≤ String.length (DepartmentCreate.cost_center p))%nat.

Definition EmployeeCreate_valid (p : EmployeeCreate.t) : Prop :=
  0 ≤ EmployeeCreate.salary_cents p.

Definition POCreate_valid (p : POCreate.t) : Prop :=
  po_status_check (POCreate.status p) ∧ 0 ≤ POCreate.total_cents p.

Definition InvoiceCreate_valid (p : InvoiceCreate.t) : Prop :=
  0 ≤ InvoiceCreate.amount_cents p ∧ inv_status_check (InvoiceCreate.status p).

Definition PaymentCreate_valid (p : PaymentCreate.t) : Prop :=
  0 < PaymentCreate.amount_cents p ∧ pay_method_check (PaymentCreate.method p).

Global Instance DepartmentCreate_valid_dec p : Decision (DepartmentCreate_valid p).
Proof. unfold DepartmentCreate_valid. apply _. Defined.
Global Instance EmployeeCreate_valid_dec p : Decision (EmployeeCreate_valid p).
Proof. unfold EmployeeCreate_valid. apply _. Defined.
Global Instance POCreate_valid_dec p : Decision (POCreate_valid p).
Proof. unfold POCreate_valid, po_status_check. apply _. Defined.
Global Instance InvoiceCreate_valid_dec p : Decision (InvoiceCreate_valid p).
Proof. unfold InvoiceCreate_valid, inv_status_check. apply _. Defined.
Global Instance PaymentCreate_valid_dec p : Decision (PaymentCreate_valid p).
Proof. unfold PaymentCreate_valid, pay_method_check. apply _. Defined.

(** ** The relational store *)

Record Rows := mkRows {
  departments : list Department.t;
  employees : list Employee.t;
  suppliers : list Supplier.t;
  purchase_orders : list PurchaseOrder.t;
  invoices : list Invoice.t;
  payments : list Payment.t
}.

(** Last value drawn from each table's [id] sequence. *)
Record Sequences := mkSequences {
  departments_id_seq : Z;
  employees_id_seq : Z;
  suppliers_id_seq : Z;
  purchase_orders_id_seq : Z;
  invoices_id_seq : Z;
  payments_id_seq : Z
}.

Record DB := mkDB { rows : Rows; seqs : Sequences }.

Definition empty_db : DB :=
  mkDB (mkRows [] [] [] [] [] []) (mkSequences 0 0 0 0 0 0).

Definition set_departments (l : list Department.t) (r : Rows) : Rows :=
  mkRows l (employees r) (suppliers r) (purchase_orders r) (invoices r) (payments r).
Definition set_employees (l : list Employee.t) (r : Rows) : Rows :=
  mkRows (departments r) l (suppliers r) (purchase_orders r) (invoices r) (payments r).
Definition set_suppliers (l : list Supplier.t) (r : Rows) : Rows :=
  mkRows (departments r) (employees r) l (purchase_orders r) (invoices r) (payments r).
Definition set_purchase_orders (l : list PurchaseOrder.t) (r : Rows) : Rows :=
  mkRows (departments r) (employees r) (suppliers r) l (invoices r) (payments r).
Definition set_invoices (l : list Invoice.t) (r : Rows) : Rows :=
  mkRows (departments r) (employees r) (suppliers r) (purchase_orders r) l (payments r).
Definition set_payments (l : list Payment.t) (r : Rows) : Rows :=
  mkRows (departments r) (employees r) (suppliers r) (purchase_orders r) (invoices r) l.

Definition set_departments_id_seq (v : Z) (s : Sequences) : Sequences :=
  mkSequences v (employees_id_seq s) (suppliers_id_seq s)
    (purchase_orders_id_seq s) (invoices_id_seq s) (payments_id_seq s).
Definition set_employees_id_seq (v : Z) (s : Sequences) : Sequences :=
  mkSequences (departments_id_seq s) v (suppliers_id_seq s)
    (purchase_orders_id_seq s) (invoices_id_seq s) (payments_id_seq s).
Definition set_suppliers_id_seq (v : Z) (s : Sequences) : Sequences :=
  mkSequences (departments_id_seq s) (employees_id_seq s) v
    (purchase_orders_id_seq s) (invoices_id_seq s) (payments_id_seq s).
Definition set_purchase_orders_id_seq (v : Z) (s : Sequences) : Sequences :=
  mkSequences (departments_id_seq s) (employees_id_seq s) (suppliers_id_seq s)
    v (invoices_id_seq s) (payments_id_seq s).
Definition set_invoices_id_seq (v : Z) (s : Sequences) : Sequences :=
  mkSequences (departments_id_seq s) (employees_id_seq s) (suppliers_id_seq s)
    (purchase_orders_id_seq s) v (payments_id_seq s).
Definition set_payments_id_seq (v : Z) (s : Sequences) : Sequences :=
  mkSequences (departments_id_seq s) (employees_id_seq s) (suppliers_id_seq s)
    (purchase_orders_id_seq s) (invoices_id_seq s) v.

(** [db.get(Model, k)]: the row whose primary key is [k], if any. *)
Definition get {A} (pk : A → Z) (table : list A) (k : Z) : option A :=
  head (filter (λ r, pk r = k) table).

(** [nextval]: the value a sequence hands out next. *)
Definition nextval (last : Z) : Z := last + 1.

(** The sequence of a [SERIAL] key is a 32-bit one: once it has handed out
    [seq_max], [nextval] fails. *)
Definition seq_max : Z := 2147483647.

(** The values of an [Integer] column: PostgreSQL's 32-bit [INTEGER]. *)
Definition int4 (z : Z) : Prop := -2147483648 ≤ z ≤ 2147483647.

(** The values of [OFFSET]: a 64-bit [bigint]. *)
Definition int8_max : Z := 9223372036854775807.

(** The strings the driver sends: psycopg2 refuses a string that holds the
    NUL character. *)
Definition no_NUL (s : string) : Prop := Ascii.zero ∉ list_ascii_of_string s.

Definition no_NUL_opt (s : option string) : Prop := from_option no_NUL True s.

Definition int4_opt (z : option Z) : Prop := from_option int4 True z.

Global Instance int4_dec z : Decision (int4 z).
Proof. unfold int4. apply _. Defined.
Global Instance int4_opt_dec z : Decision (int4_opt z).
Proof. unfold int4_opt. destruct z; simpl; apply _. Defined.
Global Instance no_NUL_dec s : Decision (no_NUL s).
Proof. unfold no_NUL. apply _. Defined.
Global Instance no_NUL_opt_dec s : Decision (no_NUL_opt s).
Proof. unfold no_NUL_opt. destruct s; simpl; apply _. Defined.

(** ** Exceptions and outcomes of a handler *)

Inductive Exception :=
  | HTTPException (status_code : Z) (detail : string)
  | RequestValidationError
  | IntegrityError
  | DataError
  | ValueError
  | DetachedInstanceError.

Inductive outcome (A : Type) :=
  | Return (a : A)
  | Raise (e : Exception).
Global Arguments Return {A} a.
Global Arguments Raise {A} e.

Global Instance Exception_eq_dec : EqDecision Exception.
Proof. solve_decision. Defined.

(** ** Declared constraints, checked when a new row is committed

    The [CheckConstraint]s on a status or a method name the same values as
    the patterns of the schemas. *)

Definition departments_constraints (r : Rows) (x : Department.t) : Prop :=
  Forall (λ d, Department.id d ≠ Department.id x
               ∧ Department.name d ≠ Department.name x
               ∧ Department.cost_center d ≠ Department.cost_center x)
         (departments r).

Definition employees_constraints (r : Rows) (x : Employee.t) : Prop :=
  Forall (λ e, Employee.id e ≠ Employee.id x
               ∧ Employee.email e ≠ Employee.email x) (employees r)
  ∧ Exists (λ d, Department.id d = Employee.department_id x) (departments r).

Definition suppliers_constraints (r : Rows) (x : Supplier.t) : Prop :=
  Forall (λ s, Supplier.id s ≠ Supplier.id x
               ∧ Supplier.name s ≠ Supplier.name x
               ∧ Supplier.tax_id s ≠ Supplier.tax_id x) (suppliers r).

Definition purchase_orders_constraints (r : Rows) (x : PurchaseOrder.t) : Prop :=
  Forall (λ p, PurchaseOrder.id p ≠ PurchaseOrder.id x) (purchase_orders r)
  ∧ Exists (λ s, Supplier.id s = PurchaseOrder.supplier_id x) (suppliers r)
  ∧ Exists (λ e, Employee.id e = PurchaseOrder.requested_by x) (employees r)
  ∧ Exists (λ d, Department.id d = PurchaseOrder.department_id x) (departments r)
  ∧ po_status_check (PurchaseOrder.status x)
  ∧ 0 ≤ PurchaseOrder.total_cents x.

Definition invoices_constraints (r : Rows) (x : Invoice.t) : Prop :=
  Forall (λ i, Invoice.id i ≠ Invoice.id x
               ∧ ¬ (Invoice.supplier_id i = Invoice.supplier_id x
                    ∧ Invoice.invoice_no i = Invoice.invoice_no x)) (invoices r)
  ∧ Exists (λ s, Supplier.id s = Invoice.supplier_id x) (suppliers r)
  ∧ match Invoice.po_id x with
    | Some k => Exists (λ p, PurchaseOrder.id p = k) (purchase_orders r)
    | None => True
    end
  ∧ inv_status_check (Invoice.status x)
  ∧ 0 ≤ Invoice.amount_cents x.

Definition payments_constraints (r : Rows) (x : Payment.t) : Prop :=
  Forall (λ p, Payment.id p ≠ Payment.id x) (payments r)
  ∧ Exists (λ i, Invoice.id i = Payment.invoice_id x) (invoices r)
  ∧ pay_method_check (Payment.method x)
  ∧ 0 < Payment.amount_cents x.

Global Instance departments_constraints_dec r x : Decision (departments_constraints r x).
Proof. unfold departments_constraints. apply _. Defined.
Global Instance employees_constraints_dec r x : Decision (employees_constraints r x).
Proof. unfold employees_constraints. apply _. Defined.
Global Instance suppliers_constraints_dec r x : Decision (suppliers_constraints r x).
Proof. unfold suppliers_constraints. apply _. Defined.
Global Instance purchase_orders_constraints_dec r x : Decision (purchase_orders_constraints r x).
Proof. unfold purchase_orders_constraints, po_status_check. apply _. Defined.
Global Instance invoices_constraints_dec r x : Decision (invoices_constraints r x).
Proof.
  unfold invoices_constraints, inv_status_check.
  destruct (Invoice.po_id x); apply _.
Defined.
Global Instance payments_constraints_dec r x : Decision (payments_constraints r x).
Proof. unfold payments_constraints, pay_method_check. apply _. Defined.

(** ** Committing a new row ([db.add(obj); db.commit(); db.refresh(obj)])

    The primary key comes from the table's sequence and [created_at] from
    the server clock [now].  The [INSERT] fails, in this order: in the
    driver, with [ValueError], when a string holds a NUL character; when the
    statement is planned, with [DataError], when an integer does not fit its
    [INTEGER] column; when it is executed, with [DataError] when the
    sequence is exhausted, and, the key being drawn, with [IntegrityError]
    when a declared constraint is violated.  The rows are those of before
    whenever it fails. *)

Definition commit_department (now : Z) (payload : DepartmentCreate.t) (db : DB)
  : outcome Department.t * DB :=
  if decide (no_NUL (DepartmentCreate.name payload)
             ∧ no_NUL (DepartmentCreate.cost_center payload)) then
    if decide (departments_id_seq (seqs db) < seq_max) then
      let k := nextval (departments_id_seq (seqs db)) in
      let sq := set_departments_id_seq k (seqs db) in
      let obj := Department.mk k (DepartmentCreate.name payload)
                   (DepartmentCreate.cost_center payload) now in
      if decide (departments_constraints (rows db) obj)
      then (Return obj,
            mkDB (set_departments (departments (rows db) ++ [obj]) (rows db)) sq)
      else (Raise IntegrityError, mkDB (rows db) sq)
    else (Raise DataError, db)
  else (Raise ValueError, db).

Definition commit_employee (now : Z) (payload : EmployeeCreate.t) (db : DB)
  : outcome Employee.t * DB :=
  if decide (no_NUL (EmployeeCreate.full_name payload)
             ∧ no_NUL (EmployeeCreate.email payload)
             ∧ no_NUL (EmployeeCreate.role payload)) then
    if decide (int4 (EmployeeCreate.department_id payload)
               ∧ int4 (EmployeeCreate.salary_cents payload)) then
      if decide (employees_id_seq (seqs db) < seq_max) then
        let k := nextval (employees_id_seq (seqs db)) in
        let sq := set_employees_id_seq k (seqs db) in
        let obj := Employee.mk k (EmployeeCreate.department_id payload)
                     (EmployeeCreate.full_name payload) (EmployeeCreate.email payload)
                     (EmployeeCreate.role payload) (EmployeeCreate.salary_cents payload)
                     (EmployeeCreate.hired_on payload) (EmployeeCreate.active payload)
                     now in
        if decide (employees_constraints (rows db) obj)
        then (Return obj,
              mkDB (set_employees (employees (rows db) ++ [obj]) (rows db)) sq)
        else (Raise IntegrityError, mkDB (rows db) sq)
      else (Raise DataError, db)
    else (Raise DataError, db)
  else (Raise ValueError, db).

Definition commit_supplier (now : Z) (payload : SupplierCreate.t) (db : DB)
  : outcome Supplier.t * DB :=
  if decide (no_NUL (SupplierCreate.name payload)
             ∧ no_NUL (SupplierCreate.tax_id payload)
             ∧ no_NUL_opt (SupplierCreate.email payload)
             ∧ no_NUL_opt (SupplierCreate.phone payload)) then
    if decide (suppliers_id_seq (seqs db) < seq_max) then
      let k := nextval (suppliers_id_seq (seqs db)) in
      let sq := set_suppliers_id_seq k (seqs db) in
      let obj := Supplier.mk k (SupplierCreate.name payload)
                   (SupplierCreate.tax_id payload) (SupplierCreate.email payload)
                   (SupplierCreate.phone payload) now in
      if decide (suppliers_constraints (rows db) obj)
      then (Return obj,
            mkDB (set_suppliers (suppliers (rows db) ++ [obj]) (rows db)) sq)
      else (Raise IntegrityError, mkDB (rows db) sq)
    else (Raise DataError, db)
  else (Raise ValueError, db).

Definition commit_po (now : Z) (payload : POCreate.t) (db : DB)
  : outcome PurchaseOrder.t * DB :=
  if decide (no_NUL (POCreate.status payload)) then
    if decide (int4 (POCreate.supplier_id payload)
               ∧ int4 (POCreate.requested_by payload)
               ∧ int4 (POCreate.department_id payload)
               ∧ int4 (POCreate.total_cents payload)) then
      if decide (purchase_orders_id_seq (seqs db) < seq_max) then
        let k := nextval (purchase_orders_id_seq (seqs db)) in
        let sq := set_purchase_orders_id_seq k (seqs db) in
        let obj := PurchaseOrder.mk k (POCreate.supplier_id payload)
                     (POCreate.requested_by payload) (POCreate.department_id payload)
                     (POCreate.status payload) (POCreate.total_cents payload) now in
        if decide (purchase_orders_constraints (rows db) obj)
        then (Return obj,
              mkDB (set_purchase_orders (purchase_orders (rows db) ++ [obj]) (rows db))
                sq)
        else (Raise IntegrityError, mkDB (rows db) sq)
      else (Raise DataError, db)
    else (Raise DataError, db)
  else (Raise ValueError, db).

Definition commit_invoice (now : Z) (payload : InvoiceCreate.t) (db : DB)
  : outcome Invoice.t * DB :=
  if decide (no_NUL (InvoiceCreate.invoice_no payload)
             ∧ no_NUL (InvoiceCreate.status payload)) then
    if decide (int4 (InvoiceCreate.supplier_id payload)
               ∧ int4_opt (InvoiceCreate.po_id payload)
               ∧ int4 (InvoiceCreate.amount_cents payload)) then
      if decide (invoices_id_seq (seqs db) < seq_max) then
        let k := nextval (invoices_id_seq (seqs db)) in
        let sq := set_invoices_id_seq k (seqs db) in
        let obj := Invoice.mk k (InvoiceCreate.supplier_id payload)
                     (InvoiceCreate.po_id payload) (InvoiceCreate.invoice_no payload)
                     (InvoiceCreate.issued_on payload) (InvoiceCreate.due_on payload)
                     (InvoiceCreate.amount_cents payload) (InvoiceCreate.status payload)
                     now in
        if decide (invoices_constraints (rows db) obj)
        then (Return obj,
              mkDB (set_invoices (invoices (rows db) ++ [obj]) (rows db)) sq)
        else (Raise IntegrityError, mkDB (rows db) sq)
      else (Raise DataError, db)
    else (Raise DataError, db)
  else (Raise ValueError, db).

Definition commit_payment (now : Z) (payload : PaymentCreate.t) (db : DB)
  : outcome Payment.t * DB :=
  if decide (no_NUL (PaymentCreate.method payload)
             ∧ no_NUL_opt (PaymentCreate.reference payload)) then
    if decide (int4 (PaymentCreate.invoice_id payload)
               ∧ int4 (PaymentCreate.amount_cents payload)) then
      if decide (payments_id_seq (seqs db) < seq_max) then
        let k := nextval (payments_id_seq (seqs db)) in
        let sq := set_payments_id_seq k (seqs db) in
        let obj := Payment.mk k (PaymentCreate.invoice_id payload)
                     (PaymentCreate.paid_on payload)
                     (PaymentCreate.amount_cents payload)
                     (PaymentCreate.method payload)
                     (PaymentCreate.reference payload) now in
        if decide (payments_constraints (rows db) obj)
        then (Return obj,
              mkDB (set_payments (payments (rows db) ++ [obj]) (rows db)) sq)
        else (Raise IntegrityError, mkDB (rows db) sq)
      else (Raise DataError, db)
    else (Raise DataError, db)
  else (Raise ValueError, db).

(** ** Committing a deletion ([db.delete(obj); db.commit()])

    The foreign keys decide: [ondelete="RESTRICT"] refuses the deletion of a
    referenced row, [ondelete="SET NULL"] clears the reference,
    [ondelete="CASCADE"] removes the referencing rows.  [None] stands for the
    commit raising [IntegrityError]. *)

(** A department that still has employees is refused as well when the
    session, following the relationship [Department.employees], first tries
    to clear their [department_id], which is [nullable=False]. *)
Definition commit_delete_department (k : Z) (r : Rows) : option Rows :=
  if decide (Forall (λ e, Employee.department_id e ≠ k) (employees r)
             ∧ Forall (λ p, PurchaseOrder.department_id p ≠ k) (purchase_orders r))
  then Some (set_departments (filter (λ d, Department.id d ≠ k) (departments r)) r)
  else None.

Definition commit_delete_employee (k : Z) (r : Rows) : option Rows :=
  if decide (Forall (λ p, PurchaseOrder.requested_by p ≠ k) (purchase_orders r))
  then Some (set_employees (filter (λ e, Employee.id e ≠ k) (employees r)) r)
  else None.

Definition commit_delete_supplier (k : Z) (r : Rows) : option Rows :=
  if decide (Forall (λ p, PurchaseOrder.supplier_id p ≠ k) (purchase_orders r)
             ∧ Forall (λ i, Invoice.supplier_id i ≠ k) (invoices r))
  then Some (set_suppliers (filter (λ s, Supplier.id s ≠ k) (suppliers r)) r)
  else None.

(** [invoices.po_id ... ON DELETE SET NULL] *)
Definition detach_po (k : Z) (i : Invoice.t) : Invoice.t :=
  if decide (Invoice.po_id i = Some k) then Invoice.set_po_id None i else i.

Definition commit_delete_po (k : Z) (r : Rows) : Rows :=
  set_invoices (detach_po k <$> invoices r)
    (set_purchase_orders
       (filter (λ p, PurchaseOrder.id p ≠ k) (purchase_orders r)) r).

(** [payments.invoice_id ... ON DELETE CASCADE] *)
Definition commit_delete_invoice (k : Z) (r : Rows) : Rows :=
  set_payments (filter (λ p, Payment.invoice_id p ≠ k) (payments r))
    (set_invoices (filter (λ i, Invoice.id i ≠ k) (invoices r)) r).

Definition commit_delete_payment (k : Z) (r : Rows) : Rows :=
  set_payments (filter (λ p, Payment.id p ≠ k) (payments r)) r.

(** ** Queries *)

(** [Query(default, ge=lo, le=hi)]: a query parameter with a default and
    bounds; a value out of bounds is refused before the handler runs. *)
Definition Query (dflt lo : Z) (hi : option Z) (v : option Z) : outcome Z :=
  let x := default dflt v in
  if decide (lo ≤ x) then
    match hi with
    | Some h => if decide (x ≤ h) then Return x else Raise RequestValidationError
    | None => Return x
    end
  else Raise RequestValidationError.

Definition Query_limit : option Z → outcome Z := Query 50 1 (Some 200).
Definition Query_offset : option Z → outcome Z := Query 0 0 None.

(** [.order_by(Model.id)]: ascending on the key. *)
Definition key_le {A} (pk : A → Z) : relation A := λ a b, pk a ≤ pk b.

Global Instance key_le_dec {A} (pk : A → Z) a b : Decision (key_le pk a b).
Proof. unfold key_le. apply _. Defined.

Definition order_by {A} (pk : A → Z) (q : list A) : list A :=
  merge_sort (key_le pk) q.

(** [.offset(offset).limit(limit).all()] *)
Definition offset_limit {A} (offset limit : Z) (q : list A) : list A :=
  take (Z.to_nat limit) (drop (Z.to_nat offset) q).

(** [q.order_by(Model.id).offset(offset).limit(limit).all()] once the two
    query parameters are validated.  [binds] are the strings the filters of
    the query compare with: the driver refuses one that holds a NUL
    character, and the store refuses an [OFFSET] beyond its 64 bits. *)
Definition paginate {A} (pk : A → Z) (limit offset : option Z)
    (binds : list string) (q : list A) : outcome (list A) :=
  match Query_limit limit with
  | Raise e => Raise e
  | Return lim =>
    match Query_offset offset with
    | Raise e => Raise e
    | Return off =>
      if decide (Forall no_NUL binds) then
        if decide (off ≤ int8_max)
        then Return (offset_limit off lim (order_by pk q))
        else Raise DataError
      else Raise ValueError
    end
  end.

(** [if v is not None: q = q.filter(col == v)] *)
Definition filter_is_not_None {A B} `{EqDecision B}
    (col : A → B) (v : option B) (q : list A) : list A :=
  match v with
  | Some x => filter (λ r, col r = x) q
  | None => q
  end.

(** [if status: q = q.filter(col == status)]: an empty string is falsy. *)
Definition filter_if_truthy {A}
    (col : A → string) (v : option string) (q : list A) : list A :=
  match v with
  | Some x => if decide (x = "") then q else filter (λ r, col r = x) q
  | None => q
  end.

(** The string a filter [if status: ...] binds into the query. *)
Definition binds_if_truthy (v : option string) : list string :=
  match v with
  | Some x => if decide (x = "") then [] else [x]
  | None => []
  end.

(** [func.coalesce(func.sum(Payment.amount_cents), 0)] over a query. *)
Definition sum_amount_cents (q : list Payment.t) : Z :=
  foldr (λ p acc, Payment.amount_cents p + acc) 0 q.

(** The sum of the payments stored against invoice [k]. *)
Definition total_paid (k : Z) (r : Rows) : Z :=
  sum_amount_cents (filter (λ p, Payment.invoice_id p = k) (payments r)).

(** The sum as the specification words it: [amount_cents] added over all
    the stored payments whose [invoice_id] equals [k].  The sum the code
    computes, [total_paid], is compared with it. *)
Fixpoint spec_total_paid (k : Z) (stored : list Payment.t) : Z :=
  match stored with
  | [] => 0
  | p :: stored =>
    (if decide (Payment.invoice_id p = k) then Payment.amount_cents p else 0)
    + spec_total_paid k stored
  end.

(** [inv.status = s; db.commit()] for the invoice row of key [k]. *)
Definition update_invoice_status (k : Z) (s : string) (r : Rows) : Rows :=
  set_invoices
    ((λ i, if decide (Invoice.id i = k) then Invoice.set_status s i else i)
       <$> invoices r) r.

Definition outcome_map {A B} (f : A → B) (o : outcome A) : outcome B :=
  match o with
  | Return a => Return (f a)
  | Raise e => Raise e
  end.

(** ** CRUD - Departments *)

Definition create_department (now : Z) (payload : DepartmentCreate.t) (db : DB)
  : outcome Department.t * DB :=
  match commit_department now payload db with
  | (Return obj, db1) => (Return obj, db1)
  | (Raise IntegrityError, db1) =>
    (Raise (HTTPException 400 "Departamento já existe ou dados inválidos."), db1)
  | (Raise e, db1) => (Raise e, db1)
  end.

Definition list_departments (limit offset : option Z) (db : DB)
  : outcome (list Department.t) :=
  paginate Department.id limit offset [] (departments (rows db)).

Definition get_department (dept_id : Z) (db : DB) : outcome Department.t :=
  match get Department.id (departments (rows db)) dept_id with
  | None => Raise (HTTPException 404 "Departamento não encontrado.")
  | Some obj => Return obj
  end.

Definition delete_department (dept_id : Z) (db : DB) : outcome unit * DB :=
  match get Department.id (departments (rows db)) dept_id with
  | None => (Raise (HTTPException 404 "Departamento não encontrado."), db)
  | Some obj =>
    match commit_delete_department (Department.id obj) (rows db) with
    | Some r => (Return (), mkDB r (seqs db))
    | None => (Raise IntegrityError, db)
    end
  end.

(** ** CRUD - Employees *)

Definition create_employee (now : Z) (payload : EmployeeCreate.t) (db : DB)
  : outcome Employee.t * DB :=
  match get Department.id (departments (rows db))
          (EmployeeCreate.department_id payload) with
  | None => (Raise (HTTPException 400 "department_id inválido."), db)
  | Some _ =>
    match commit_employee now payload db with
    | (Return obj, db1) => (Return obj, db1)
    | (Raise IntegrityError, db1) =>
      (Raise (HTTPException 400 "Email já existe ou dados inválidos."), db1)
    | (Raise e, db1) => (Raise e, db1)
    end
  end.

Definition list_employees (limit offset : option Z)
    (department_id : option Z) (active : option bool) (db : DB)
  : outcome (list Employee.t) :=
  let q := employees (rows db) in
  let q := filter_is_not_None Employee.department_id department_id q in
  let q := filter_is_not_None Employee.active active q in
  paginate Employee.id limit offset [] q.

Definition get_employee (emp_id : Z) (db : DB) : outcome Employee.t :=
  match get Employee.id (employees (rows db)) emp_id with
  | None => Raise (HTTPException 404 "Funcionário não encontrado.")
  | Some obj => Return obj
  end.

Definition delete_employee (emp_id : Z) (db : DB) : outcome unit * DB :=
  match get Employee.id (employees (rows db)) emp_id with
  | None => (Raise (HTTPException 404 "Funcionário não encontrado."), db)
  | Some obj =>
    match commit_delete_employee (Employee.id obj) (rows db) with
    | Some r => (Return (), mkDB r (seqs db))
    | None => (Raise IntegrityError, db)
    end
  end.

(** ** CRUD - Suppliers *)

Definition create_supplier (now : Z) (payload : SupplierCreate.t) (db : DB)
  : outcome Supplier.t * DB :=
  match commit_supplier now payload db with
  | (Return obj, db1) => (Return obj, db1)
  | (Raise IntegrityError, db1) =>
    (Raise (HTTPException 400 "Fornecedor já existe (tax_id) ou dados inválidos."),
     db1)
  | (Raise e, db1) => (Raise e, db1)
  end.

Definition list_suppliers (limit offset : option Z) (db : DB)
  : outcome (list Supplier.t) :=
  paginate Supplier.id limit offset [] (suppliers (rows db)).

Definition get_supplier (supplier_id : Z) (db : DB) : outcome Supplier.t :=
  match get Supplier.id (suppliers (rows db)) supplier_id with
  | None => Raise (HTTPException 404 "Fornecedor não encontrado.")
  | Some obj => Return obj
  end.

Definition delete_supplier (supplier_id : Z) (db : DB) : outcome unit * DB :=
  match get Supplier.id (suppliers (rows db)) supplier_id with
  | None => (Raise (HTTPException 404 "Fornecedor não encontrado."), db)
  | Some obj =>
    match commit_delete_supplier (Supplier.id obj) (rows db) with
    | Some r => (Return (), mkDB r (seqs db))
    | None => (Raise IntegrityError, db)
    end
  end.

(** ** CRUD - Purchase Orders *)

Definition create_po (now : Z) (payload : POCreate.t) (db : DB)
  : outcome PurchaseOrder.t * DB :=
  match get Supplier.id (suppliers (rows db)) (POCreate.supplier_id payload) with
  | None => (Raise (HTTPException 400 "supplier_id inválido."), db)
  | Some _ =>
    match get Employee.id (employees (rows db)) (POCreate.requested_by payload) with
    | None => (Raise (HTTPException 400 "requested_by inválido."), db)
    | Some _ =>
      match get Department.id (departments (rows db))
              (POCreate.department_id payload) with
      | None => (Raise (HTTPException 400 "department_id inválido."), db)
      | Some _ =>
        commit_po now payload db
      end
    end
  end.

Definition list_pos (limit offset : option Z) (status : option string) (db : DB)
  : outcome (list PurchaseOrder.t) :=
  let q := purchase_orders (rows db) in
  let q := filter_if_truthy PurchaseOrder.status status q in
  paginate PurchaseOrder.id limit offset (binds_if_truthy status) q.

Definition get_po (po_id : Z) (db : DB) : outcome PurchaseOrder.t :=
  match get PurchaseOrder.id (purchase_orders (rows db)) po_id with
  | None => Raise (HTTPException 404 "PO não encontrado.")
  | Some obj => Return obj
  end.

Definition delete_po (po_id : Z) (db : DB) : outcome unit * DB :=
  match get PurchaseOrder.id (purchase_orders (rows db)) po_id with
  | None => (Raise (HTTPException 404 "PO não encontrado."), db)
  | Some obj =>
    (Return (), mkDB (commit_delete_po (PurchaseOrder.id obj) (rows db)) (seqs db))
  end.

(** ** CRUD - Invoices *)

(** [payload.po_id is not None and not db.get(PurchaseOrder, payload.po_id)] *)
Definition po_id_dangling (po_id : option Z) (db : DB) : bool :=
  match po_id with
  | Some k =>
    match get PurchaseOrder.id (purchase_orders (rows db)) k with
    | None => true
    | Some _ => false
    end
  | None => false
  end.

Definition create_invoice (now : Z) (payload : InvoiceCreate.t) (db : DB)
  : outcome Invoice.t * DB :=
  match get Supplier.id (suppliers (rows db)) (InvoiceCreate.supplier_id payload) with
  | None => (Raise (HTTPException 400 "supplier_id inválido."), db)
  | Some _ =>
    if po_id_dangling (InvoiceCreate.po_id payload) db
    then (Raise (HTTPException 400 "po_id inválido."), db)
    else
      match commit_invoice now payload db with
      | (Return obj, db1) => (Return obj, db1)
      | (Raise IntegrityError, db1) =>
        (Raise (HTTPException 400
                  "invoice_no duplicada para esse fornecedor ou dados inválidos."),
         db1)
      | (Raise e, db1) => (Raise e, db1)
      end
  end.

Definition list_invoices (limit offset : option Z)
    (status : option string) (supplier_id : option Z) (db : DB)
  : outcome (list Invoice.t) :=
  let q := invoices (rows db) in
  let q := filter_if_truthy Invoice.status status q in
  let q := filter_is_not_None Invoice.supplier_id supplier_id q in
  paginate Invoice.id limit offset (binds_if_truthy status) q.

Definition get_invoice (invoice_id : Z) (db : DB) : outcome Invoice.t :=
  match get Invoice.id (invoices (rows db)) invoice_id with
  | None => Raise (HTTPException 404 "Fatura não encontrada.")
  | Some obj => Return obj
  end.

Definition delete_invoice (invoice_id : Z) (db : DB) : outcome unit * DB :=
  match get Invoice.id (invoices (rows db)) invoice_id with
  | None => (Raise (HTTPException 404 "Fatura não encontrada."), db)
  | Some obj =>
    (Return (), mkDB (commit_delete_invoice (Invoice.id obj) (rows db)) (seqs db))
  end.

(** ** CRUD - Payments *)

(** The settlement rule is the tail of [create_payment]: once the payment is
    committed, the payments of the invoice are summed and the invoice is
    marked [PAID] when the sum reaches its amount and it is not [PAID] yet.
    That second [db.commit()] expires [obj], which is returned all the same
    and read once the session is closed: the request is then answered with
    [DetachedInstanceError], both writes being committed. *)
Definition create_payment (now : Z) (payload : PaymentCreate.t) (db : DB)
  : outcome Payment.t * DB :=
  match get Invoice.id (invoices (rows db)) (PaymentCreate.invoice_id payload) with
  | None => (Raise (HTTPException 400 "invoice_id inválido."), db)
  | Some inv =>
    match commit_payment now payload db with
    | (Raise e, db1) => (Raise e, db1)
    | (Return obj, db1) =>
      let total_paid := total_paid (Invoice.id inv) (rows db1) in
      if decide (Invoice.amount_cents inv ≤ total_paid ∧ Invoice.status inv ≠ "PAID")
      then (Raise DetachedInstanceError,
            mkDB (update_invoice_status (Invoice.id inv) "PAID" (rows db1)) (seqs db1))
      else (Return obj, db1)
    end
  end.

Definition list_payments (limit offset : option Z) (invoice_id : option Z) (db : DB)
  : outcome (list Payment.t) :=
  let q := payments (rows db) in
  let q := filter_is_not_None Payment.invoice_id invoice_id q in
  paginate Payment.id limit offset [] q.

Definition get_payment (payment_id : Z) (db : DB) : outcome Payment.t :=
  match get Payment.id (payments (rows db)) payment_id with
  | None => Raise (HTTPException 404 "Pagamento não encontrado.")
  | Some obj => Return obj
  end.

Definition delete_payment (payment_id : Z) (db : DB) : outcome unit * DB :=
  match get Payment.id (payments (rows db)) payment_id with
  | None => (Raise (HTTPException 404 "Pagamento não encontrado."), db)
  | Some obj =>
    (Return (), mkDB (commit_delete_payment (Payment.id obj) (rows db)) (seqs db))
  end.

(** ** The HTTP surface: one request per route *)

Inductive request :=
  | POST_departments (payload : DepartmentCreate.t)
  | GET_departments (limit offset : option Z)
  | GET_departments_id (dept_id : Z)
  | DELETE_departments_id (dept_id : Z)
  | POST_employees (payload : EmployeeCreate.t)
  | GET_employees (limit offset : option Z)
      (department_id : option Z) (active : option bool)
  | GET_employees_id (emp_id : Z)
  | DELETE_employees_id (emp_id : Z)
  | POST_suppliers (payload : SupplierCreate.t)
  | GET_suppliers (limit offset : option Z)
  | GET_suppliers_id (supplier_id : Z)
  | DELETE_suppliers_id (supplier_id : Z)
  | POST_purchase_orders (payload : POCreate.t)
  | GET_purchase_orders (limit offset : option Z) (status : option string)
  | GET_purchase_orders_id (po_id : Z)
  | DELETE_purchase_orders_id (po_id : Z)
  | POST_invoices (payload : InvoiceCreate.t)
  | GET_invoices (limit offset : option Z)
      (status : option string) (supplier_id : option Z)
  | GET_invoices_id (invoice_id : Z)
  | DELETE_invoices_id (invoice_id : Z)
  | POST_payments (payload : PaymentCreate.t)
  | GET_payments (limit offset : option Z) (invoice_id : option Z)
  | GET_payments_id (payment_id : Z)
  | DELETE_payments_id (payment_id : Z).

Inductive response :=
  | DepartmentOut (x : Department.t)
  | DepartmentOut_list (l : list Department.t)
  | EmployeeOut (x : Employee.t)
  | EmployeeOut_list (l : list Employee.t)
  | SupplierOut (x : Supplier.t)
  | SupplierOut_list (l : list Supplier.t)
  | POOut (x : PurchaseOrder.t)
  | POOut_list (l : list PurchaseOrder.t)
  | InvoiceOut (x : Invoice.t)
  | InvoiceOut_list (l : list Invoice.t)
  | PaymentOut (x : Payment.t)
  | PaymentOut_list (l : list Payment.t)
  | NoContent.

Definition with_body {A} (f : A → response) (r : outcome A * DB)
  : outcome response * DB :=
  (outcome_map f r.1, r.2).

(** The body of a [POST] is validated against the schema of the route
    before the handler runs; a body that fails is refused and nothing is
    written. *)
Definition validated (valid : Prop) `{Decision valid}
    (served : outcome response * DB) (db : DB) : outcome response * DB :=
  if decide valid then served else (Raise RequestValidationError, db).

(** One request served at server time [now]. *)
Definition handle (now : Z) (req : request) (db : DB) : outcome response * DB :=
  match req with
  | POST_departments p =>
    validated (DepartmentCreate_valid p)
      (with_body DepartmentOut (create_department now p db)) db
  | GET_departments l o => (outcome_map DepartmentOut_list (list_departments l o db), db)
  | GET_departments_id k => (outcome_map DepartmentOut (get_department k db), db)
  | DELETE_departments_id k => with_body (λ _, NoContent) (delete_department k db)
  | POST_employees p =>
    validated (EmployeeCreate_valid p)
      (with_body EmployeeOut (create_employee now p db)) db
  | GET_employees l o d a => (outcome_map EmployeeOut_list (list_employees l o d a db), db)
  | GET_employees_id k => (outcome_map EmployeeOut (get_employee k db), db)
  | DELETE_employees_id k => with_body (λ _, NoContent) (delete_employee k db)
  | POST_suppliers p => with_body SupplierOut (create_supplier now p db)
  | GET_suppliers l o => (outcome_map SupplierOut_list (list_suppliers l o db), db)
  | GET_suppliers_id k => (outcome_map SupplierOut (get_supplier k db), db)
  | DELETE_suppliers_id k => with_body (λ _, NoContent) (delete_supplier k db)
  | POST_purchase_orders p =>
    validated (POCreate_valid p) (with_body POOut (create_po now p db)) db
  | GET_purchase_orders l o s => (outcome_map POOut_list (list_pos l o s db), db)
  | GET_purchase_orders_id k => (outcome_map POOut (get_po k db), db)
  | DELETE_purchase_orders_id k => with_body (λ _, NoContent) (delete_po k db)
  | POST_invoices p =>
    validated (InvoiceCreate_valid p)
      (with_body InvoiceOut (create_invoice now p db)) db
  | GET_invoices l o s k => (outcome_map InvoiceOut_list (list_invoices l o s k db), db)
  | GET_invoices_id k => (outcome_map InvoiceOut (get_invoice k db), db)
  | DELETE_invoices_id k => with_body (λ _, NoContent) (delete_invoice k db)
  | POST_payments p =>
    validated (PaymentCreate_valid p)
      (with_body PaymentOut (create_payment now p db)) db
  | GET_payments l o k => (outcome_map PaymentOut_list (list_payments l o k db), db)
  | GET_payments_id k => (outcome_map PaymentOut (get_payment k db), db)
  | DELETE_payments_id k => with_body (λ _, NoContent) (delete_payment k db)
  end.

(** A run of the server: the requests of a trace served in order, each at
    its own server time. *)
Fixpoint run (trace : list (Z * request)) (db : DB) : DB :=
  match trace with
  | [] => db
  | (now, req) :: trace => run trace (handle now req db).2
  end.

(** The invoice row of key [k] in a store. *)
Definition invoice_of (k : Z) (db : DB) : option Invoice.t :=
  get Invoice.id (invoices (rows db)) k.

(** The invariant of the settlement: a [PAID] invoice is covered by the
    payments stored against it. *)
Definition settled (db : DB) : Prop :=
  Forall (λ i, Invoice.status i = "PAID" →
               Invoice.amount_cents i ≤ total_paid (Invoice.id i) (rows db))
         (invoices (rows db)).

(** ** The running example: one supplier, one open invoice of 100000 *)

Definition jan15 : date := mkdate 2024 1 15.

Definition acme : SupplierCreate.t := SupplierCreate.mk "ACME" "12.345.678/0001-90" None None.

Definition invoice_100000 (status : string) : InvoiceCreate.t :=
  InvoiceCreate.mk 1 None "NF-1" jan15 jan15 100000 status.

Definition pix (amount : Z) : PaymentCreate.t :=
  PaymentCreate.mk 1 jan15 amount "PIX" None.

Definition db_invoice (status : string) : DB :=
  run [(1, POST_suppliers acme); (2, POST_invoices (invoice_100000 status))] empty_db.

(** A second invoice of the same supplier, of 100000 too. *)
Definition invoice_2 : InvoiceCreate.t :=
  InvoiceCreate.mk 1 None "NF-2" jan15 jan15 100000 "OPEN".

Definition pix_2 (amount : Z) : PaymentCreate.t :=
  PaymentCreate.mk 2 jan15 amount "PIX" None.

(** Two open invoices of 100000, and 60000 paid against the first. *)
Definition db_two_invoices : DB :=
  run [(3, POST_invoices invoice_2); (4, POST_payments (pix 60000))]
    (db_invoice "OPEN").

(** The open invoice once payments of 30000 and 70000 are recorded. *)
Definition db_settled : DB :=
  run [(3, POST_payments (pix 30000)); (4, POST_payments (pix 70000))]
    (db_invoice "OPEN").

(** ** Stores reached by serving requests *)

Definition reachable (db : DB) : Prop := ∃ trace, run trace empty_db = db.

(** What the declared keys and checks guarantee of every stored row: primary
    keys are unique in each table, payment keys were drawn from the
    sequence, payments are positive and invoice amounts are not negative. *)
Record store_ok (db : DB) : Prop := {
  ok_departments_pk : NoDup (Department.id <$> departments (rows db));
  ok_employees_pk : NoDup (Employee.id <$> employees (rows db));
  ok_suppliers_pk : NoDup (Supplier.id <$> suppliers (rows db));
  ok_purchase_orders_pk : NoDup (PurchaseOrder.id <$> purchase_orders (rows db));
  ok_invoices_pk : NoDup (Invoice.id <$> invoices (rows db));
  ok_payments_pk : NoDup (Payment.id <$> payments (rows db));
  ok_invoices_amount : Forall (λ i, 0 ≤ Invoice.amount_cents i) (invoices (rows db));
  ok_payments_seq :
    Forall (λ p, Payment.id p ≤ payments_id_seq (seqs db)) (payments (rows db));
  ok_payments_amount : Forall (λ p, 0 < Payment.amount_cents p) (payments (rows db))
}.

(** Requests that keep a [PAID] invoice covered: no payment is deleted, and
    no invoice with an amount to pay is created as [PAID]. *)
Definition settlement_preserving (req : request) : Prop :=
  match req with
  | DELETE_payments_id _ => False
  | POST_invoices p =>
    InvoiceCreate.status p = "PAID" → InvoiceCreate.amount_cents p = 0
  | _ => True
  end.


(** ** Error kinds of the HTTP surface

    An [HTTPException] is answered with its own status code, a refused
    query parameter or body with 422, and an exception that no handler
    catches with 500, the generic failure.  A referenced id that does not resolve is
    reported with 400; a conflict with 400 or 409. *)

Definition status_code_of (e : Exception) : Z :=
  match e with
  | HTTPException status_code _ => status_code
  | RequestValidationError => 422
  | IntegrityError | DataError | ValueError | DetachedInstanceError => 500
  end.

Definition ReferenceError (e : Exception) : Prop := status_code_of e = 400.

Definition ConflictError (e : Exception) : Prop :=
  status_code_of e = 400 ∨ status_code_of e = 409.

Definition generic_failure (e : Exception) : Prop := status_code_of e = 500.

(** ** A department with one employee, who requested one purchase order *)

Definition financeiro : DepartmentCreate.t := DepartmentCreate.mk "Financeiro" "CC-100".

Definition ana : EmployeeCreate.t :=
  EmployeeCreate.mk 1 "Ana Souza" "ana.souza@empresa.com" "Analista Financeiro"
    550000 (mkdate 2023 2 10) true.

(** Another person who gives Ana's email address. *)
Definition ana_again : EmployeeCreate.t :=
  EmployeeCreate.mk 1 "Ana S. Lima" "ana.souza@empresa.com" "Analista de RH"
    480000 (mkdate 2022 8 1) true.

(** A colleague of Ana's, with an address of his own. *)
Definition bruno : EmployeeCreate.t :=
  EmployeeCreate.mk 1 "Bruno Lima" "bruno.lima@empresa.com" "Analista de RH"
    480000 (mkdate 2022 8 1) true.

Definition po_draft (supplier_id : Z) : POCreate.t :=
  POCreate.mk supplier_id 1 1 "DRAFT" 125000.

Definition invoice_for_po : InvoiceCreate.t :=
  InvoiceCreate.mk 1 (Some 1) "NF-7" jan15 jan15 125000 "OPEN".

Definition db_staffed : DB :=
  run [(1, POST_departments financeiro); (2, POST_employees ana)] empty_db.

Definition db_ordered : DB :=
  run [(3, POST_suppliers acme); (4, POST_purchase_orders (po_draft 1));
       (5, POST_invoices invoice_for_po)] db_staffed.

(** ** Listings *)

(** The [limit] and [offset] of a listing request. *)
Definition listing (req : request) : option (option Z * option Z) :=
  match req with
  | GET_departments l o | GET_employees l o _ _ | GET_suppliers l o
  | GET_purchase_orders l o _ | GET_invoices l o _ _ | GET_payments l o _ =>
    Some (l, o)
  | _ => None
  end.

(** The identifiers of the records of a listing, in the order returned. *)
Definition listed_ids (body : response) : option (list Z) :=
  match body with
  | DepartmentOut_list l => Some (Department.id <$> l)
  | EmployeeOut_list l => Some (Employee.id <$> l)
  | SupplierOut_list l => Some (Supplier.id <$> l)
  | POOut_list l => Some (PurchaseOrder.id <$> l)
  | InvoiceOut_list l => Some (Invoice.id <$> l)
  | PaymentOut_list l => Some (Payment.id <$> l)
  | _ => None
  end.

(** * The tool gateway ([mcp_server.py]) *)

Module mcp_server.

(** ** Strings, as the normalization uses them *)

(** [str.isspace] on one character (code points below 256). *)
Definition isspace (a : ascii) : bool :=
  let n := Z.of_nat (nat_of_ascii a) in
  bool_decide (n ∈ [9; 10; 11; 12; 13; 28; 29; 30; 31; 32; 133; 160]).

Fixpoint lstrip (s : string) : string :=
  match s with
  | String a s' => if isspace a then lstrip s' else s
  | EmptyString => EmptyString
  end.

Fixpoint rstrip (s : string) : string :=
  match s with
  | String a s' =>
    match rstrip s' with
    | EmptyString => if isspace a then EmptyString else String a EmptyString
    | r => String a r
    end
  | EmptyString => EmptyString
  end.

(** [value.strip()] *)
Definition strip (s : string) : string := rstrip (lstrip s).

(** [c in s] for a single character [c]. *)
Fixpoint contains (c : ascii) (s : string) : bool :=
  match s with
  | String a s' => if decide (a = c) then true else contains c s'
  | EmptyString => false
  end.

(** [s.replace(c, new)] for a single character [c]. *)
Fixpoint replace (c : ascii) (new : string) (s : string) : string :=
  match s with
  | String a s' =>
    if decide (a = c) then new +:+ replace c new s' else String a (replace c new s')
  | EmptyString => EmptyString
  end.

(** ** [date.isoformat()]: [YYYY-MM-DD] *)

Definition digit (n : Z) : ascii := ascii_of_nat (48 + Z.to_nat (n `mod` 10)).

Definition isoformat (d : date) : string :=
  String (digit (year d `div` 1000)) (String (digit (year d `div` 100))
    (String (digit (year d `div` 10)) (String (digit (year d))
      (String "-" (String (digit (month d `div` 10)) (String (digit (month d))
        (String "-" (String (digit (day d `div` 10)) (String (digit (day d))
          EmptyString))))))))).

(** ** The normalization *)

Section normalize.
(** [date.fromisoformat] and [datetime.fromisoformat] belong to the
    Python library; [None] stands for the [ValueError] they raise. *)
Variable date_fromisoformat : string → option date.
Variable datetime_fromisoformat : string → option datetime.

Definition _normalize_hired_on (value : string) : string :=
  let s := strip value in
  if decide (s = "") then value
  else if contains "T" s then
    match datetime_fromisoformat (replace "Z" "+00:00" s) with
    | Some dt => isoformat (dt_date dt)
    | None => value
    end
  else
    match date_fromisoformat s with
    | Some d => isoformat d
    | None => value
    end.
End normalize.

(** ** Requests sent to the API ([api_request(method, path, **kwargs)]) *)

Inductive json :=
  | JNull
  | JInt (z : Z)
  | JBool (b : bool)
  | JStr (s : string).

Definition JOpt {A} (f : A → json) (o : option A) : json :=
  match o with
  | Some a => f a
  | None => JNull
  end.

Inductive kwargs :=
  | params (d : gmap string json)
  | json_body (d : gmap string json).

Record api_request := mk_api_request {
  method : string; path : string; kw : kwargs
}.

(** [if v:] on an optional integer. *)
Definition truthy_int (v : option Z) : bool :=
  match v with
  | Some z => bool_decide (z ≠ 0)
  | None => false
  end.

(** [if v:] on an optional string. *)
Definition truthy_str (v : option string) : bool :=
  match v with
  | Some s => bool_decide (s ≠ "")
  | None => false
  end.

(** ** Tools *)

Definition list_departments (limit offset : option Z) : api_request :=
  mk_api_request "GET" "/departments"
    (params (<["offset" := JInt (default 0 offset)]>
               {["limit" := JInt (default 50 limit)]})).

Definition create_department (name cost_center : string) : api_request :=
  mk_api_request "POST" "/departments"
    (json_body (<["cost_center" := JStr cost_center]> {["name" := JStr name]})).

Definition list_employees (limit offset : option Z) (department_id : option Z)
  : api_request :=
  let params0 : gmap string json :=
    <["offset" := JInt (default 0 offset)]> {["limit" := JInt (default 50 limit)]} in
  let params1 :=
    if truthy_int department_id
    then <["department_id" := JOpt JInt department_id]> params0
    else params0 in
  mk_api_request "GET" "/employees" (params params1).

Section tools.
Variable date_fromisoformat : string → option date.
Variable datetime_fromisoformat : string → option datetime.

Definition create_employee (department_id : Z) (full_name email role : string)
    (salary_cents : Z) (hired_on : string) (active : option bool) : api_request :=
  mk_api_request "POST" "/employees"
    (json_body
       (<["active" := JBool (default true active)]>
        (<["hired_on" :=
             JStr (_normalize_hired_on date_fromisoformat datetime_fromisoformat
                     hired_on)]>
         (<["salary_cents" := JInt salary_cents]>
          (<["role" := JStr role]>
           (<["email" := JStr email]>
            (<["full_name" := JStr full_name]>
             {["department_id" := JInt department_id]}))))))).
End tools.

Definition list_suppliers (limit offset : option Z) : api_request :=
  mk_api_request "GET" "/suppliers"
    (params (<["offset" := JInt (default 0 offset)]>
               {["limit" := JInt (default 50 limit)]})).

Definition create_supplier (name tax_id : string) (email phone : option string)
  : api_request :=
  mk_api_request "POST" "/suppliers"
    (json_body
       (<["phone" := JOpt JStr phone]>
        (<["email" := JOpt JStr email]>
         (<["tax_id" := JStr tax_id]> {["name" := JStr name]})))).

Definition list_invoices (limit offset : option Z) (status : option string)
  : api_request :=
  let params0 : gmap string json :=
    <["offset" := JInt (default 0 offset)]> {["limit" := JInt (default 50 limit)]} in
  let params1 :=
    if truthy_str status
    then <["status" := JOpt JStr status]> params0
    else params0 in
  mk_api_request "GET" "/invoices" (params params1).

Definition create_invoice (supplier_id : Z) (invoice_no issued_on due_on : string)
    (amount_cents : Z) (status : string) (po_id : option Z) : api_request :=
  mk_api_request "POST" "/invoices"
    (json_body
       (<["status" := JStr status]>
        (<["amount_cents" := JInt amount_cents]>
         (<["due_on" := JStr due_on]>
          (<["issued_on" := JStr issued_on]>
           (<["invoice_no" := JStr invoice_no]>
            (<["po_id" := JOpt JInt po_id]>
             {["supplier_id" := JInt supplier_id]}))))))).

Definition create_payment (invoice_id : Z) (paid_on : string) (amount_cents : Z)
    (method : string) (reference : option string) : api_request :=
  mk_api_request "POST" "/payments"
    (json_body
       (<["reference" := JOpt JStr reference]>
        (<["method" := JStr method]>
         (<["amount_cents" := JInt amount_cents]>
          (<["paid_on" := JStr paid_on]>
           {["invoice_id" := JInt invoice_id]}))))).

(** The field [k] of the JSON body of a request. *)
Definition json_field (k : string) (r : api_request) : option json :=
  match kw r with
  | json_body d => d !! k
  | params _ => None
  end.

(** The query parameter [k] of a request. *)
Definition query_param (k : string) (r : api_request) : option json :=
  match kw r with
  | params d => d !! k
  | json_body _ => None
  end.

(** ** The route [GET /employees] as the API binds it

    The query parameters sent by the tool become the arguments of the
    handler [list_employees] of the API; a parameter that is not sent is
    [None] there. *)
Definition query_int (k : string) (r : api_request) : option Z :=
  match query_param k r with
  | Some (JInt z) => Some z
  | _ => None
  end.

Definition query_bool (k : string) (r : api_request) : option bool :=
  match query_param k r with
  | Some (JBool b) => Some b
  | _ => None
  end.

Definition GET_employees_of (r : api_request) : request :=
  GET_employees (query_int "limit" r) (query_int "offset" r)
    (query_int "department_id" r) (query_bool "active" r).

(** ** A parser for the examples

    The forms [YYYY-MM-DD] and [YYYY-MM-DD?HH:MM[:SS][+HH:MM]] of the ISO
    formats that [date.fromisoformat] and [datetime.fromisoformat]
    accept, with the range checks of [date] and [time]. *)

Definition digit_of (a : ascii) : option Z :=
  let n := Z.of_nat (nat_of_ascii a) in
  if decide (48 ≤ n ≤ 57) then Some (n - 48) else None.

Fixpoint number_of (acc : Z) (l : list ascii) : option Z :=
  match l with
  | [] => Some acc
  | a :: l => d ← digit_of a; number_of (10 * acc + d) l
  end.

Definition is_leap (y : Z) : bool :=
  bool_decide (y `mod` 4 = 0 ∧ (y `mod` 100 ≠ 0 ∨ y `mod` 400 = 0)).

Definition days_in_month (y m : Z) : Z :=
  if decide (m = 2) then (if is_leap y then 29 else 28)
  else if decide (m ∈ [4; 6; 9; 11]) then 30 else 31.

Definition parse_date (l : list ascii) : option date :=
  match l with
  | [y1; y2; y3; y4; s1; m1; m2; s2; d1; d2] =>
    y ← number_of 0 [y1; y2; y3; y4];
    m ← number_of 0 [m1; m2];
    d ← number_of 0 [d1; d2];
    if decide (s1 = "-"%char ∧ s2 = "-"%char
               ∧ 1 ≤ y ∧ 1 ≤ m ≤ 12 ∧ 1 ≤ d ≤ days_in_month y m)
    then Some (mkdate y m d) else None
  | _ => None
  end.

Definition parse_hh_mm (l : list ascii) : option (Z * Z) :=
  match l with
  | [h1; h2; s; m1; m2] =>
    h ← number_of 0 [h1; h2];
    m ← number_of 0 [m1; m2];
    if decide (s = ":"%char ∧ h < 24 ∧ m < 60) then Some (h, m) else None
  | _ => None
  end.

Definition parse_tz (l : list ascii) : option unit :=
  match l with
  | [] => Some ()
  | sign :: l =>
    if decide (sign = "+"%char ∨ sign = "-"%char)
    then _ ← parse_hh_mm l; Some () else None
  end.

Definition parse_time (l : list ascii) : option (Z * Z * Z) :=
  '(h, m) ← parse_hh_mm (take 5 l);
  match drop 5 l with
  | c :: s1 :: s2 :: tz =>
    if decide (c = ":"%char)
    then s ← number_of 0 [s1; s2];
         _ ← parse_tz tz;
         if decide (s < 60) then Some (h, m, s) else None
    else _ ← parse_tz (c :: s1 :: s2 :: tz); Some (h, m, 0)
  | tz => _ ← parse_tz tz; Some (h, m, 0)
  end.

Definition iso_date (s : string) : option date :=
  parse_date (list_ascii_of_string s).

Definition iso_datetime (s : string) : option datetime :=
  let l := list_ascii_of_string s in
  d ← parse_date (take 10 l);
  match drop 10 l with
  | [] => Some (mkdatetime d 0 0 0)
  | _ :: t => '(h, m, s) ← parse_time t; Some (mkdatetime d h m s)
  end.

End mcp_server.

(** * Tactics *)

(** Unfolds a served request down to the tests it makes on the store. *)
Ltac handler_cases :=
  unfold handle, validated, with_body,
    create_department, create_employee, create_supplier, create_po,
    create_invoice, create_payment,
    delete_department, delete_employee, delete_supplier, delete_po,
    delete_invoice, delete_payment,
    commit_department, commit_employee, commit_supplier, commit_po,
    commit_invoice, commit_payment,
    commit_delete_department, commit_delete_employee, commit_delete_supplier;
  repeat first
    [ progress cbn [fst snd rows seqs outcome_map]
    | match goal with
      | |- context [match get ?pk ?l ?k with _ => _ end] =>
        let E := fresh "Hget" in destruct (get pk l k) eqn:E
      | |- context [if po_id_dangling ?a ?b then _ else _] =>
        let E := fresh "Hpo" in destruct (po_id_dangling a b) eqn:E
      | |- context [decide (?x < seq_max)] =>
        let E := fresh "Hmax" in destruct (decide (x < seq_max)) as [E|E]
      | |- context [decide ?P] =>
        lazymatch P with
        | context [no_NUL] =>
          let E := fresh "Hnul" in destruct (decide P) as [E|E]
        | context [int4] =>
          let E := fresh "Hint" in destruct (decide P) as [E|E]
        | DepartmentCreate_valid _ =>
          let E := fresh "Hvalid" in destruct (decide P) as [E|E]
        | EmployeeCreate_valid _ =>
          let E := fresh "Hvalid" in destruct (decide P) as [E|E]
        | POCreate_valid _ =>
          let E := fresh "Hvalid" in destruct (decide P) as [E|E]
        | InvoiceCreate_valid _ =>
          let E := fresh "Hvalid" in destruct (decide P) as [E|E]
        | PaymentCreate_valid _ =>
          let E := fresh "Hvalid" in destruct (decide P) as [E|E]
        | _ => let E := fresh "Hdec" in destruct (decide P) as [E|E]
        end
      end ].


(** Settles a decidable statement about literals by evaluating its
    decision. *)
Ltac by_evaluation := apply (bool_decide_unpack _); vm_compute; exact I.

(** Resolves the lookups of literal keys in a dictionary built by
    insertions. *)
Ltac lookup_key :=
  repeat first
    [ rewrite lookup_insert_eq
    | rewrite lookup_singleton_eq
    | rewrite lookup_insert_ne by done
    | rewrite lookup_singleton_ne by done ].

Global Arguments total_paid : simpl never.

(** * Reading back what was written *)

(** The routes that create a record. *)
Definition is_POST (req : request) : bool :=
  match req with
  | POST_departments _ | POST_employees _ | POST_suppliers _
  | POST_purchase_orders _ | POST_invoices _ | POST_payments _ => true
  | _ => false
  end.

(** [GET /{entity}/{id}] for the record a response carries. *)
Definition GET_created (body : response) : option request :=
  match body with
  | DepartmentOut x => Some (GET_departments_id (Department.id x))
  | EmployeeOut x => Some (GET_employees_id (Employee.id x))
  | SupplierOut x => Some (GET_suppliers_id (Supplier.id x))
  | POOut x => Some (GET_purchase_orders_id (PurchaseOrder.id x))
  | InvoiceOut x => Some (GET_invoices_id (Invoice.id x))
  | PaymentOut x => Some (GET_payments_id (Payment.id x))
  | _ => None
  end.

(** [GET /{entity}/{id}] for the record that [DELETE /{entity}/{id}] names. *)
Definition GET_deleted (req : request) : option request :=
  match req with
  | DELETE_departments_id k => Some (GET_departments_id k)
  | DELETE_employees_id k => Some (GET_employees_id k)
  | DELETE_suppliers_id k => Some (GET_suppliers_id k)
  | DELETE_purchase_orders_id k => Some (GET_purchase_orders_id k)
  | DELETE_invoices_id k => Some (GET_invoices_id k)
  | DELETE_payments_id k => Some (GET_payments_id k)
  | _ => None
  end.

(** The same listing with another page. *)
Definition with_page (limit offset : option Z) (req : request) : request :=
  match req with
  | GET_departments _ _ => GET_departments limit offset
  | GET_employees _ _ d a => GET_employees limit offset d a
  | GET_suppliers _ _ => GET_suppliers limit offset
  | GET_purchase_orders _ _ s => GET_purchase_orders limit offset s
  | GET_invoices _ _ s k => GET_invoices limit offset s k
  | GET_payments _ _ k => GET_payments limit offset k
  | _ => req
  end.

(** Two listings of the same entity, one after the other. *)
Definition response_app (a b : response) : option response :=
  match a, b with
  | DepartmentOut_list l1, DepartmentOut_list l2 => Some (DepartmentOut_list (l1 ++ l2))
  | EmployeeOut_list l1, EmployeeOut_list l2 => Some (EmployeeOut_list (l1 ++ l2))
  | SupplierOut_list l1, SupplierOut_list l2 => Some (SupplierOut_list (l1 ++ l2))
  | POOut_list l1, POOut_list l2 => Some (POOut_list (l1 ++ l2))
  | InvoiceOut_list l1, InvoiceOut_list l2 => Some (InvoiceOut_list (l1 ++ l2))
  | PaymentOut_list l1, PaymentOut_list l2 => Some (PaymentOut_list (l1 ++ l2))
  | _, _ => None
  end.

(** The strings that a listing compares a column with. *)
Definition listing_binds (req : request) : list string :=
  match req with
  | GET_purchase_orders _ _ s | GET_invoices _ _ s _ => binds_if_truthy s
  | _ => []
  end.

(** * What a listing holds *)

(** A record of any of the six entities. *)
Inductive record :=
  | R_department (x : Department.t)
  | R_employee (x : Employee.t)
  | R_supplier (x : Supplier.t)
  | R_purchase_order (x : PurchaseOrder.t)
  | R_invoice (x : Invoice.t)
  | R_payment (x : Payment.t).

(** The records of a response. *)
Definition records_of (body : response) : list record :=
  match body with
  | DepartmentOut x => [R_department x]
  | DepartmentOut_list l => R_department <$> l
  | EmployeeOut x => [R_employee x]
  | EmployeeOut_list l => R_employee <$> l
  | SupplierOut x => [R_supplier x]
  | SupplierOut_list l => R_supplier <$> l
  | POOut x => [R_purchase_order x]
  | POOut_list l => R_purchase_order <$> l
  | InvoiceOut x => [R_invoice x]
  | InvoiceOut_list l => R_invoice <$> l
  | PaymentOut x => [R_payment x]
  | PaymentOut_list l => R_payment <$> l
  | NoContent => []
  end.

(** The record is a row of the store. *)
Definition stored (db : DB) (r : record) : Prop :=
  match r with
  | R_department x => x ∈ departments (rows db)
  | R_employee x => x ∈ employees (rows db)
  | R_supplier x => x ∈ suppliers (rows db)
  | R_purchase_order x => x ∈ purchase_orders (rows db)
  | R_invoice x => x ∈ invoices (rows db)
  | R_payment x => x ∈ payments (rows db)
  end.

(** An optional exact-match filter: absent, it selects everything. *)
Definition exact {B} (v : option B) (x : B) : Prop := ∀ b, v = Some b → x = b.

(** An optional exact-match filter on a string, which selects everything
    when it is absent or empty. *)
Definition exact_nonempty (v : option string) (x : string) : Prop :=
  ∀ s, v = Some s → s ≠ "" → x = s.

(** The record is of the entity the listing is about and passes its
    filters. *)
Definition selected (req : request) (r : record) : Prop :=
  match req, r with
  | GET_departments _ _, R_department _ => True
  | GET_employees _ _ d a, R_employee x =>
    exact d (Employee.department_id x) ∧ exact a (Employee.active x)
  | GET_suppliers _ _, R_supplier _ => True
  | GET_purchase_orders _ _ s, R_purchase_order x =>
    exact_nonempty s (PurchaseOrder.status x)
  | GET_invoices _ _ s k, R_invoice x =>
    exact_nonempty s (Invoice.status x) ∧ exact k (Invoice.supplier_id x)
  | GET_payments _ _ k, R_payment x => exact k (Payment.invoice_id x)
  | _, _ => False
  end.

(** * What the schema promises of the stored rows *)

Definition rh : DepartmentCreate.t := DepartmentCreate.mk "RH" "CC-200".

(** Two departments, two employees, one supplier with two invoices, after
    requests of which some were refused for a value already taken. *)
Definition db_busy : DB :=
  run [(1, POST_departments financeiro); (2, POST_departments rh);
       (3, POST_departments (DepartmentCreate.mk "Recursos Humanos" "CC-200"));
       (4, POST_employees ana); (5, POST_employees ana_again);
       (6, POST_employees bruno); (7, POST_suppliers acme);
       (8, POST_invoices (invoice_100000 "OPEN")); (9, POST_invoices invoice_2);
       (10, POST_invoices (invoice_100000 "PAID"))] empty_db.

(** Every foreign key of a stored row names a stored row. *)
Record references_resolve (r : Rows) : Prop := {
  fk_employees_department :
    Forall (λ e, Employee.department_id e ∈ Department.id <$> departments r)
           (employees r);
  fk_purchase_orders_supplier :
    Forall (λ p, PurchaseOrder.supplier_id p ∈ Supplier.id <$> suppliers r)
           (purchase_orders r);
  fk_purchase_orders_requested_by :
    Forall (λ p, PurchaseOrder.requested_by p ∈ Employee.id <$> employees r)
           (purchase_orders r);
  fk_purchase_orders_department :
    Forall (λ p, PurchaseOrder.department_id p ∈ Department.id <$> departments r)
           (purchase_orders r);
  fk_invoices_supplier :
    Forall (λ i, Invoice.supplier_id i ∈ Supplier.id <$> suppliers r) (invoices r);
  fk_invoices_po :
    Forall (λ i, ∀ k, Invoice.po_id i = Some k →
                      k ∈ PurchaseOrder.id <$> purchase_orders r) (invoices r);
  fk_payments_invoice :
    Forall (λ p, Payment.invoice_id p ∈ Invoice.id <$> invoices r) (payments r)
}.

(** The key of an invoice within its supplier. *)
Definition supplier_invoice (i : Invoice.t) : Z * string :=
  (Invoice.supplier_id i, Invoice.invoice_no i).

(** No two stored rows share a value that is declared unique. *)
Record uniques_hold (r : Rows) : Prop := {
  uq_departments_name : NoDup (Department.name <$> departments r);
  uq_departments_cost_center : NoDup (Department.cost_center <$> departments r);
  uq_employees_email : NoDup (Employee.email <$> employees r);
  uq_suppliers_name : NoDup (Supplier.name <$> suppliers r);
  uq_suppliers_tax_id : NoDup (Supplier.tax_id <$> suppliers r);
  uq_supplier_invoice : NoDup (supplier_invoice <$> invoices r)
}.

(** Every stored row passes the checks declared on its table. *)
Record checks_hold (r : Rows) : Prop := {
  ck_po_status :
    Forall (λ p, po_status_check (PurchaseOrder.status p)) (purchase_orders r);
  ck_po_total : Forall (λ p, 0 ≤ PurchaseOrder.total_cents p) (purchase_orders r);
  ck_inv_status : Forall (λ i, inv_status_check (Invoice.status i)) (invoices r);
  ck_inv_amount : Forall (λ i, 0 ≤ Invoice.amount_cents i) (invoices r);
  ck_pay_method : Forall (λ p, pay_method_check (Payment.method p)) (payments r);
  ck_pay_amount : Forall (λ p, 0 < Payment.amount_cents p) (payments r)
}.

(** Every stored identifier was drawn from the sequence of its table: it is
    positive and not above the last value drawn, which is not above the
    last value of a 32-bit sequence. *)
Record ids_issued (db : DB) : Prop := {
  ids_departments :
    Forall (λ x, 0 < Department.id x ≤ departments_id_seq (seqs db))
           (departments (rows db));
  ids_employees :
    Forall (λ x, 0 < Employee.id x ≤ employees_id_seq (seqs db))
           (employees (rows db));
  ids_suppliers :
    Forall (λ x, 0 < Supplier.id x ≤ suppliers_id_seq (seqs db))
           (suppliers (rows db));
  ids_purchase_orders :
    Forall (λ x, 0 < PurchaseOrder.id x ≤ purchase_orders_id_seq (seqs db))
           (purchase_orders (rows db));
  ids_invoices :
    Forall (λ x, 0 < Invoice.id x ≤ invoices_id_seq (seqs db))
           (invoices (rows db));
  ids_payments :
    Forall (λ x, 0 < Payment.id x ≤ payments_id_seq (seqs db))
           (payments (rows db));
  ids_sequences :
    0 ≤ departments_id_seq (seqs db) ≤ seq_max
    ∧ 0 ≤ employees_id_seq (seqs db) ≤ seq_max
    ∧ 0 ≤ suppliers_id_seq (seqs db) ≤ seq_max
    ∧ 0 ≤ purchase_orders_id_seq (seqs db) ≤ seq_max
    ∧ 0 ≤ invoices_id_seq (seqs db) ≤ seq_max
    ∧ 0 ≤ payments_id_seq (seqs db) ≤ seq_max
}.

(** Reduces the projections of a store that a request has rebuilt. *)
Ltac rows_cbn :=
  cbn [rows seqs departments employees suppliers purchase_orders invoices
       payments set_departments set_employees set_suppliers
       set_purchase_orders set_invoices set_payments commit_delete_po
       commit_delete_invoice commit_delete_payment update_invoice_status
       departments_id_seq employees_id_seq suppliers_id_seq
       purchase_orders_id_seq invoices_id_seq payments_id_seq
       set_departments_id_seq set_employees_id_seq set_suppliers_id_seq
       set_purchase_orders_id_seq set_invoices_id_seq set_payments_id_seq].

(** * Identifiers *)

Inductive entity :=
  | Departments | Employees | Suppliers | PurchaseOrders | Invoices | Payments.

Definition entity_of (r : record) : entity :=
  match r with
  | R_department _ => Departments
  | R_employee _ => Employees
  | R_supplier _ => Suppliers
  | R_purchase_order _ => PurchaseOrders
  | R_invoice _ => Invoices
  | R_payment _ => Payments
  end.

Definition record_id (r : record) : Z :=
  match r with
  | R_department x => Department.id x
  | R_employee x => Employee.id x
  | R_supplier x => Supplier.id x
  | R_purchase_order x => PurchaseOrder.id x
  | R_invoice x => Invoice.id x
  | R_payment x => Payment.id x
  end.

(** The last value drawn from the sequence of an entity. *)
Definition last_value (e : entity) (db : DB) : Z :=
  match e with
  | Departments => departments_id_seq (seqs db)
  | Employees => employees_id_seq (seqs db)
  | Suppliers => suppliers_id_seq (seqs db)
  | PurchaseOrders => purchase_orders_id_seq (seqs db)
  | Invoices => invoices_id_seq (seqs db)
  | Payments => payments_id_seq (seqs db)
  end.

(** * When a [POST] is accepted *)

(** What the handler and the commit test of a new record: its references
    resolve, its unique values are free and it passes the checks of its
    table. *)
Definition acceptable (req : request) (db : DB) : Prop :=
  let r := rows db in
  match req with
  | POST_departments p =>
    (DepartmentCreate.name p ∉ Department.name <$> departments r)
    ∧ (DepartmentCreate.cost_center p ∉ Department.cost_center <$> departments r)
  | POST_employees p =>
    EmployeeCreate.department_id p ∈ Department.id <$> departments r
    ∧ (EmployeeCreate.email p ∉ Employee.email <$> employees r)
  | POST_suppliers p =>
    (SupplierCreate.name p ∉ Supplier.name <$> suppliers r)
    ∧ (SupplierCreate.tax_id p ∉ Supplier.tax_id <$> suppliers r)
  | POST_purchase_orders p =>
    POCreate.supplier_id p ∈ Supplier.id <$> suppliers r
    ∧ POCreate.requested_by p ∈ Employee.id <$> employees r
    ∧ POCreate.department_id p ∈ Department.id <$> departments r
    ∧ po_status_check (POCreate.status p)
    ∧ 0 ≤ POCreate.total_cents p
  | POST_invoices p =>
    InvoiceCreate.supplier_id p ∈ Supplier.id <$> suppliers r
    ∧ (∀ k, InvoiceCreate.po_id p = Some k →
            k ∈ PurchaseOrder.id <$> purchase_orders r)
    ∧ ((InvoiceCreate.supplier_id p, InvoiceCreate.invoice_no p)
       ∉ supplier_invoice <$> invoices r)
    ∧ inv_status_check (InvoiceCreate.status p)
    ∧ 0 ≤ InvoiceCreate.amount_cents p
  | POST_payments p =>
    PaymentCreate.invoice_id p ∈ Invoice.id <$> invoices r
    ∧ pay_method_check (PaymentCreate.method p)
    ∧ 0 < PaymentCreate.amount_cents p
  | _ => False
  end.

(** * Deletions *)

(** The identifiers stored for an entity. *)
Definition ids_of (e : entity) (db : DB) : list Z :=
  match e with
  | Departments => Department.id <$> departments (rows db)
  | Employees => Employee.id <$> employees (rows db)
  | Suppliers => Supplier.id <$> suppliers (rows db)
  | PurchaseOrders => PurchaseOrder.id <$> purchase_orders (rows db)
  | Invoices => Invoice.id <$> invoices (rows db)
  | Payments => Payment.id <$> payments (rows db)
  end.

(** The entity and the identifier that a [DELETE] names. *)
Definition deletes (req : request) : option (entity * Z) :=
  match req with
  | DELETE_departments_id k => Some (Departments, k)
  | DELETE_employees_id k => Some (Employees, k)
  | DELETE_suppliers_id k => Some (Suppliers, k)
  | DELETE_purchase_orders_id k => Some (PurchaseOrders, k)
  | DELETE_invoices_id k => Some (Invoices, k)
  | DELETE_payments_id k => Some (Payments, k)
  | _ => None
  end.

(** A stored row holds the record to delete through a foreign key declared
    [ondelete="RESTRICT"]. *)
Definition restricted (req : request) (db : DB) : Prop :=
  let r := rows db in
  match req with
  | DELETE_departments_id k =>
    k ∈ Employee.department_id <$> employees r
    ∨ k ∈ PurchaseOrder.department_id <$> purchase_orders r
  | DELETE_employees_id k => k ∈ PurchaseOrder.requested_by <$> purchase_orders r
  | DELETE_suppliers_id k =>
    k ∈ PurchaseOrder.supplier_id <$> purchase_orders r
    ∨ k ∈ Invoice.supplier_id <$> invoices r
  | _ => False
  end.

(** * Which tables a request may write *)

Definition writes (req : request) : list entity :=
  match req with
  | POST_departments _ | DELETE_departments_id _ => [Departments]
  | POST_employees _ | DELETE_employees_id _ => [Employees]
  | POST_suppliers _ | DELETE_suppliers_id _ => [Suppliers]
  | POST_purchase_orders _ => [PurchaseOrders]
  | DELETE_purchase_orders_id _ => [PurchaseOrders; Invoices]
  | POST_invoices _ => [Invoices]
  | DELETE_invoices_id _ => [Invoices; Payments]
  | POST_payments _ => [Payments; Invoices]
  | DELETE_payments_id _ => [Payments]
  | _ => []
  end.

(** The table of an entity holds the same rows in two stores. *)
Definition same_table (e : entity) (a b : DB) : Prop :=
  match e with
  | Departments => departments (rows a) = departments (rows b)
  | Employees => employees (rows a) = employees (rows b)
  | Suppliers => suppliers (rows a) = suppliers (rows b)
  | PurchaseOrders => purchase_orders (rows a) = purchase_orders (rows b)
  | Invoices => invoices (rows a) = invoices (rows b)
  | Payments => payments (rows a) = payments (rows b)
  end.

(** * Payments in a row *)

(** The request records a payment. *)
Definition records_payment (req : request) : Prop :=
  match req with
  | POST_payments _ => True
  | _ => False
  end.

(** * Reading a stored record *)

(** The response that carries one record. *)
Definition body_of (r : record) : response :=
  match r with
  | R_department x => DepartmentOut x
  | R_employee x => EmployeeOut x
  | R_supplier x => SupplierOut x
  | R_purchase_order x => POOut x
  | R_invoice x => InvoiceOut x
  | R_payment x => PaymentOut x
  end.

(** * The tools against the API *)

(** The fields of the request schemas of the API. *)
Definition DepartmentCreate_fields : list string := ["name"; "cost_center"].
Definition EmployeeCreate_fields : list string :=
  ["department_id"; "full_name"; "email"; "role"; "salary_cents"; "hired_on"; "active"].
Definition SupplierCreate_fields : list string := ["name"; "tax_id"; "email"; "phone"].
Definition InvoiceCreate_fields : list string :=
  ["supplier_id"; "po_id"; "invoice_no"; "issued_on"; "due_on"; "amount_cents"; "status"].
Definition PaymentCreate_fields : list string :=
  ["invoice_id"; "paid_on"; "amount_cents"; "method"; "reference"].

(** The keys of the JSON body of a request of the gateway. *)
Definition json_keys (r : mcp_server.api_request) : gset string :=
  match mcp_server.kw r with
  | mcp_server.json_body d => dom d
  | mcp_server.params _ => ∅
  end.

(** The names of the query parameters of a request of the gateway. *)
Definition query_keys (r : mcp_server.api_request) : gset string :=
  match mcp_server.kw r with
  | mcp_server.params d => dom d
  | mcp_server.json_body _ => ∅
  end.

Definition query_str (k : string) (r : mcp_server.api_request) : option string :=
  match mcp_server.query_param k r with
  | Some (mcp_server.JStr s) => Some s
  | _ => None
  end.

(** The listing routes of the API as they bind the query parameters of a
    [GET] request to the arguments of their handlers; a parameter that is
    not sent is [None] there. *)
Definition GET_route (r : mcp_server.api_request) : option request :=
  let limit := mcp_server.query_int "limit" r in
  let offset := mcp_server.query_int "offset" r in
  if decide (mcp_server.method r = "GET") then
    if decide (mcp_server.path r = "/departments") then
      Some (GET_departments limit offset)
    else if decide (mcp_server.path r = "/employees") then
      Some (GET_employees limit offset (mcp_server.query_int "department_id" r)
              (mcp_server.query_bool "active" r))
    else if decide (mcp_server.path r = "/suppliers") then
      Some (GET_suppliers limit offset)
    else if decide (mcp_server.path r = "/purchase-orders") then
      Some (GET_purchase_orders limit offset (query_str "status" r))
    else if decide (mcp_server.path r = "/invoices") then
      Some (GET_invoices limit offset (query_str "status" r)
              (mcp_server.query_int "supplier_id" r))
    else if decide (mcp_server.path r = "/payments") then
      Some (GET_payments limit offset (mcp_server.query_int "invoice_id" r))
    else None
  else None.

(** A digit, or a dash where [YYYY-MM-DD] has one. *)
Definition is_digit (a : ascii) : Prop :=
  48 ≤ Z.of_nat (nat_of_ascii a) ≤ 57.

Definition date_shaped (s : string) : Prop :=
  match list_ascii_of_string s with
  | [y1; y2; y3; y4; s1; m1; m2; s2; d1; d2] =>
    is_digit y1 ∧ is_digit y2 ∧ is_digit y3 ∧ is_digit y4
    ∧ s1 = "-"%char ∧ is_digit m1 ∧ is_digit m2
    ∧ s2 = "-"%char ∧ is_digit d1 ∧ is_digit d2
  | _ => False
  end.

(** * The seed script ([database-server/seed_table.py])

    [main] runs the DDL, which creates the six tables when they do not exist
    (they always do here), then [upsert_base_data].  The DDL string ends
    with its own [COMMIT], which closes the transaction the driver had
    opened; the driver opens no other, so every statement that follows is
    committed on its own, at its own server time, and the [conn.commit()]
    and [conn.rollback()] of [main] find nothing to end.  The values the
    script inserts are literals and keys it has read back; the check
    [salary_cents >= 0] that its DDL adds to [employees] holds of all of
    them. *)

Module seed_table.

(** A step of the script: [None] stands for the exception that ends the
    run; the store is the one written so far. *)
Definition tx (A : Type) : Type := DB → option A * DB.

Definition ret {A} (a : A) : tx A := λ db, (Some a, db).

Definition bind {A B} (m : tx A) (f : A → tx B) : tx B :=
  λ db,
    match m db with
    | (Some a, db1) => f a db1
    | (None, db1) => (None, db1)
    end.

(** [d[k]], which raises [KeyError] when the key is missing. *)
Definition getitem (d : gmap string Z) (k : string) : tx Z :=
  λ db, (d !! k, db).

(** [l[i]], which raises [IndexError] when the index is out of range. *)
Definition getindex (l : list Z) (i : nat) : tx Z :=
  λ db, (l !! i, db).

(** The rows of one [VALUES] list, one after the other. *)
Fixpoint values {A B} (row : A → tx B) (argslist : list A) : tx (list B) :=
  match argslist with
  | [] => ret []
  | v :: argslist =>
    bind (row v) (λ b, bind (values row argslist) (λ bs, ret (b :: bs)))
  end.

(** [execute_values(cur, sql, argslist)] followed by [cur.fetchall()]: one
    statement for all the rows of values, and the rows it returns.  When a
    row fails the statement fails as a whole: the rows it has written are
    undone, the sequence values it has drawn stay drawn. *)
Definition execute_values {A B} (row : A → tx B) (argslist : list A)
  : tx (list B) :=
  λ db,
    match values row argslist db with
    | (Some bs, db1) => (Some bs, db1)
    | (None, db1) => (None, mkDB (rows db) (seqs db1))
    end.

(** [{key: _id for (_id, key) in rows}] *)
Definition dict_of (returned : list (Z * string)) : gmap string Z :=
  foldl (λ d r, <[r.2 := r.1]> d) ∅ returned.

(** [ON CONFLICT (...) DO UPDATE]: the rows that conflict become [new]. *)
Definition do_update {A} (conflicts : A → Prop) `{∀ x, Decision (conflicts x)}
    (new : A) (table : list A) : list A :=
  (λ x, if decide (conflicts x) then new else x) <$> table.

(** [INSERT INTO departments (name, cost_center) VALUES ...
     ON CONFLICT (name) DO UPDATE SET cost_center = EXCLUDED.cost_center
     RETURNING id, name] for one row of values.  The key of the proposed
    row is drawn before the conflict is looked for. *)
Definition upsert_department (now : Z) (v : string * string) : tx (Z * string) :=
  λ db,
    let '(name, cost_center) := v in
    let conflicts := λ d, Department.name d = name in
    match head (filter conflicts (departments (rows db))) with
    | None =>
      match commit_department now (DepartmentCreate.mk name cost_center) db with
      | (Return obj, db1) => (Some (Department.id obj, name), db1)
      | (Raise _, db1) => (None, db1)
      end
    | Some old =>
      if decide (departments_id_seq (seqs db) < seq_max) then
        let sq := set_departments_id_seq (nextval (departments_id_seq (seqs db)))
                    (seqs db) in
        let new := Department.mk (Department.id old) name cost_center
                     (Department.created_at old) in
        let others := filter (λ d, ¬ conflicts d) (departments (rows db)) in
        if decide (departments_constraints (set_departments others (rows db)) new)
        then (Some (Department.id old, name),
              mkDB (set_departments (do_update conflicts new (departments (rows db)))
                      (rows db)) sq)
        else (None, mkDB (rows db) sq)
      else (None, db)
    end.

(** [INSERT INTO employees (...) VALUES ... ON CONFLICT (email) DO UPDATE SET
     department_id, full_name, role, salary_cents, hired_on, active
     RETURNING id, email] for one row of values. *)
Definition upsert_employee (now : Z) (v : EmployeeCreate.t) : tx (Z * string) :=
  λ db,
    let conflicts := λ e, Employee.email e = EmployeeCreate.email v in
    match head (filter conflicts (employees (rows db))) with
    | None =>
      match commit_employee now v db with
      | (Return obj, db1) => (Some (Employee.id obj, EmployeeCreate.email v), db1)
      | (Raise _, db1) => (None, db1)
      end
    | Some old =>
      if decide (employees_id_seq (seqs db) < seq_max) then
        let sq := set_employees_id_seq (nextval (employees_id_seq (seqs db)))
                    (seqs db) in
        let new := Employee.mk (Employee.id old) (EmployeeCreate.department_id v)
                     (EmployeeCreate.full_name v) (EmployeeCreate.email v)
                     (EmployeeCreate.role v) (EmployeeCreate.salary_cents v)
                     (EmployeeCreate.hired_on v) (EmployeeCreate.active v)
                     (Employee.created_at old) in
        let others := filter (λ e, ¬ conflicts e) (employees (rows db)) in
        if decide (employees_constraints (set_employees others (rows db)) new)
        then (Some (Employee.id old, EmployeeCreate.email v),
              mkDB (set_employees (do_update conflicts new (employees (rows db)))
                      (rows db)) sq)
        else (None, mkDB (rows db) sq)
      else (None, db)
    end.

(** [INSERT INTO suppliers (...) VALUES ... ON CONFLICT (tax_id) DO UPDATE SET
     name, email, phone RETURNING id, tax_id] for one row of values. *)
Definition upsert_supplier (now : Z) (v : SupplierCreate.t) : tx (Z * string) :=
  λ db,
    let conflicts := λ s, Supplier.tax_id s = SupplierCreate.tax_id v in
    match head (filter conflicts (suppliers (rows db))) with
    | None =>
      match commit_supplier now v db with
      | (Return obj, db1) => (Some (Supplier.id obj, SupplierCreate.tax_id v), db1)
      | (Raise _, db1) => (None, db1)
      end
    | Some old =>
      if decide (suppliers_id_seq (seqs db) < seq_max) then
        let sq := set_suppliers_id_seq (nextval (suppliers_id_seq (seqs db)))
                    (seqs db) in
        let new := Supplier.mk (Supplier.id old) (SupplierCreate.name v)
                     (SupplierCreate.tax_id v) (SupplierCreate.email v)
                     (SupplierCreate.phone v) (Supplier.created_at old) in
        let others := filter (λ s, ¬ conflicts s) (suppliers (rows db)) in
        if decide (suppliers_constraints (set_suppliers others (rows db)) new)
        then (Some (Supplier.id old, SupplierCreate.tax_id v),
              mkDB (set_suppliers (do_update conflicts new (suppliers (rows db)))
                      (rows db)) sq)
        else (None, mkDB (rows db) sq)
      else (None, db)
    end.

(** [INSERT INTO purchase_orders (...) VALUES ... RETURNING id] for one row
    of values. *)
Definition insert_po (now : Z) (v : POCreate.t) : tx Z :=
  λ db,
    match commit_po now v db with
    | (Return obj, db1) => (Some (PurchaseOrder.id obj), db1)
    | (Raise _, db1) => (None, db1)
    end.

(** [INSERT INTO invoices (...) VALUES ...
     ON CONFLICT (supplier_id, invoice_no) DO UPDATE SET
     po_id, issued_on, due_on, amount_cents, status
     RETURNING id, invoice_no] for one row of values. *)
Definition upsert_invoice (now : Z) (v : InvoiceCreate.t) : tx (Z * string) :=
  λ db,
    let conflicts := λ i,
      supplier_invoice i = (InvoiceCreate.supplier_id v, InvoiceCreate.invoice_no v) in
    match head (filter conflicts (invoices (rows db))) with
    | None =>
      match commit_invoice now v db with
      | (Return obj, db1) => (Some (Invoice.id obj, InvoiceCreate.invoice_no v), db1)
      | (Raise _, db1) => (None, db1)
      end
    | Some old =>
      if decide (invoices_id_seq (seqs db) < seq_max) then
        let sq := set_invoices_id_seq (nextval (invoices_id_seq (seqs db)))
                    (seqs db) in
        let new := Invoice.mk (Invoice.id old) (InvoiceCreate.supplier_id v)
                     (InvoiceCreate.po_id v) (InvoiceCreate.invoice_no v)
                     (InvoiceCreate.issued_on v) (InvoiceCreate.due_on v)
                     (InvoiceCreate.amount_cents v) (InvoiceCreate.status v)
                     (Invoice.created_at old) in
        let others := filter (λ i, ¬ conflicts i) (invoices (rows db)) in
        if decide (invoices_constraints (set_invoices others (rows db)) new)
        then (Some (Invoice.id old, InvoiceCreate.invoice_no v),
              mkDB (set_invoices (do_update conflicts new (invoices (rows db)))
                      (rows db)) sq)
        else (None, mkDB (rows db) sq)
      else (None, db)
    end.

(** [INSERT INTO payments (...) VALUES ... ON CONFLICT DO NOTHING] for one
    row of values: the only unique key of the table is its identifier. *)
Definition insert_payment_do_nothing (now : Z) (v : PaymentCreate.t) : tx unit :=
  λ db,
    let k := nextval (payments_id_seq (seqs db)) in
    if decide (payments_id_seq (seqs db) < seq_max
               ∧ Exists (λ p, Payment.id p = k) (payments (rows db)))
    then (Some (), mkDB (rows db) (set_payments_id_seq k (seqs db)))
    else
      match commit_payment now v db with
      | (Return _, db1) => (Some (), db1)
      | (Raise _, db1) => (None, db1)
      end.

Definition seed_departments : list (string * string) :=
  [("Financeiro", "CC-100"); ("RH", "CC-200"); ("Compras", "CC-300");
   ("Administrativo", "CC-400")].

(** [now e] is the server time of the statement that writes the table of
    [e]. *)
Definition upsert_base_data (now : entity → Z) : tx unit :=
  bind (execute_values (upsert_department (now Departments)) seed_departments)
    (λ dept_rows,
  let dept_id := dict_of dept_rows in
  bind (getitem dept_id "Financeiro") (λ financeiro,
  bind (getitem dept_id "RH") (λ rh,
  bind (getitem dept_id "Compras") (λ compras,
  bind (getitem dept_id "Administrativo") (λ administrativo,
  bind (execute_values (upsert_employee (now Employees))
          [EmployeeCreate.mk financeiro "Ana Souza" "ana.souza@empresa.com"
             "Analista Financeiro" 550000 (mkdate 2023 2 10) true;
           EmployeeCreate.mk rh "Bruno Lima" "bruno.lima@empresa.com"
             "Analista de RH" 480000 (mkdate 2022 8 1) true;
           EmployeeCreate.mk compras "Carla Mendes" "carla.mendes@empresa.com"
             "Comprador" 520000 (mkdate 2021 5 12) true;
           EmployeeCreate.mk administrativo "Diego Pereira" "diego.pereira@empresa.com"
             "Assistente Administrativo" 320000 (mkdate 2024 1 15) true]) (λ emp_rows,
  let emp_id := dict_of emp_rows in
  bind (execute_values (upsert_supplier (now Suppliers))
          [SupplierCreate.mk "Papelaria Norte" "12.345.678/0001-00"
             (Some "contato@papelarianorte.com") (Some "+55 92 99999-0000");
           SupplierCreate.mk "TechOffice LTDA" "98.765.432/0001-11"
             (Some "financeiro@techoffice.com") (Some "+55 11 98888-1111")]) (λ sup_rows,
  let sup_id := dict_of sup_rows in
  bind (getitem sup_id "12.345.678/0001-00") (λ papelaria,
  bind (getitem emp_id "carla.mendes@empresa.com") (λ carla,
  bind (getitem dept_id "Compras") (λ compras',
  bind (getitem sup_id "98.765.432/0001-11") (λ techoffice,
  bind (getitem emp_id "diego.pereira@empresa.com") (λ diego,
  bind (getitem dept_id "Administrativo") (λ administrativo',
  bind (execute_values (insert_po (now PurchaseOrders))
          [POCreate.mk papelaria carla compras' "APPROVED" 125900;
           POCreate.mk techoffice diego administrativo' "SENT" 349900]) (λ po_ids,
  bind (getitem sup_id "12.345.678/0001-00") (λ papelaria',
  bind (getindex po_ids 0) (λ po0,
  bind (getitem sup_id "98.765.432/0001-11") (λ techoffice',
  bind (getindex po_ids 1) (λ po1,
  bind (execute_values (upsert_invoice (now Invoices))
          [InvoiceCreate.mk papelaria' (Some po0) "NF-0001"
             (mkdate 2026 2 1) (mkdate 2026 2 20) 125900 "OPEN";
           InvoiceCreate.mk techoffice' (Some po1) "NF-0100"
             (mkdate 2026 2 5) (mkdate 2026 2 15) 349900 "PAID"]) (λ inv_rows,
  let inv_id := dict_of inv_rows in
  bind (getitem inv_id "NF-0100") (λ nf0100,
  bind (execute_values (insert_payment_do_nothing (now Payments))
          [PaymentCreate.mk nf0100 (mkdate 2026 2 6) 349900 "PIX"
             (Some "PIX-REF-20260206-0001")]) (λ _,
  ret ()))))))))))))))))))))).

(** [main]: the DDL writes no row, and neither [conn.commit()], when
    [upsert_base_data] returns, nor [conn.rollback()], when it raises, has a
    transaction to end: the store is left as the statements have written
    it, and the exception is raised again ([None]). *)
Definition main (now : entity → Z) (db : DB) : option unit * DB :=
  upsert_base_data now db.

End seed_table.

(** What the statements of the seed that do not write invoices, payments or
    purchase orders leave alone. *)
Definition seed_frame (db db1 : DB) : Prop :=
  purchase_orders (rows db1) = purchase_orders (rows db)
  ∧ invoices (rows db1) = invoices (rows db)
  ∧ payments (rows db1) = payments (rows db)
  ∧ payments_id_seq (seqs db1) = payments_id_seq (seqs db).

(** The state of invoice [k] along a run of payments that started with the
    invoice [inv], not [PAID], and [T0] paid against it. *)
Definition accumulated (k : Z) (inv : Invoice.t) (T0 : Z) (db : DB) : Prop :=
  T0 ≤ total_paid k (rows db)
  ∧ invoice_of k db
    = Some (if decide (T0 < total_paid k (rows db)
                       ∧ Invoice.amount_cents inv ≤ total_paid k (rows db))
            then Invoice.set_status "PAID" inv else inv).

(** * Properties *)

(** ** Lookups by primary key *)

Section get.
Context {A : Type} (pk : A → Z).

Lemma get_Some (l : list A) k x : get pk l k = Some x → pk x = k ∧ x ∈ l.
Proof.
  unfold get. intros H. apply head_Some in H as [l' H].
  assert (Hx : x ∈ filter (λ r, pk r = k) l) by (rewrite H; left).
  apply list_elem_of_filter in Hx. tauto.
Qed.

Lemma get_None (l : list A) k : get pk l k = None ↔ Forall (λ r, pk r ≠ k) l.
Proof.
  unfold get. rewrite head_None. induction l as [|a l IH]; simpl.
  - split; [constructor | done].
  - rewrite filter_cons. case_decide as Ha.
    + split; [done | intros H; inversion H; subst; done].
    + rewrite IH. split; [by constructor | by inversion 1].
Qed.

Lemma get_is_Some (l : list A) k :
  is_Some (get pk l k) ↔ Exists (λ r, pk r = k) l.
Proof.
  split.
  - intros [x Hx]. apply get_Some in Hx as [? ?].
    apply Exists_exists. by exists x.
  - intros HE. destruct (get pk l k) eqn:E; [by eexists|].
    apply get_None in E. apply Exists_exists in HE as (x & Hin & Hx).
    rewrite Forall_forall in E. by destruct (E x Hin).
Qed.

Lemma get_fmap (f : A → A) (l : list A) k :
  (∀ x, pk (f x) = pk x) → get pk (f <$> l) k = f <$> get pk l k.
Proof.
  intros Hf. unfold get. induction l as [|a l IH]; simpl; [done|].
  rewrite !filter_cons, Hf. case_decide; simpl; [done | apply IH].
Qed.

Lemma get_filter_ne (l : list A) k k' :
  k ≠ k' → get pk (filter (λ r, pk r ≠ k') l) k = get pk l k.
Proof.
  intros Hk. unfold get. induction l as [|a l IH]; simpl; [done|].
  rewrite !filter_cons. repeat case_decide; simpl;
    rewrite ?filter_cons; repeat case_decide; simpl; congruence.
Qed.

Lemma get_filter_eq (l : list A) k : get pk (filter (λ r, pk r ≠ k) l) k = None.
Proof.
  apply get_None, Forall_forall. intros x Hx.
  apply list_elem_of_filter in Hx. tauto.
Qed.

Lemma get_snoc_ne (l : list A) x k : pk x ≠ k → get pk (l ++ [x]) k = get pk l k.
Proof.
  intros Hx. unfold get. rewrite filter_app, filter_cons, decide_False by done.
  simpl. by rewrite app_nil_r.
Qed.
End get.

(** ** Sums of payments *)

Lemma sum_amount_cents_app q1 q2 :
  sum_amount_cents (q1 ++ q2) = sum_amount_cents q1 + sum_amount_cents q2.
Proof. unfold sum_amount_cents. induction q1; simpl; lia. Qed.

Lemma total_paid_insert k r obj :
  total_paid k (set_payments (payments r ++ [obj]) r)
  = total_paid k r
    + (if decide (Payment.invoice_id obj = k) then Payment.amount_cents obj else 0).
Proof.
  unfold total_paid. simpl. rewrite filter_app, sum_amount_cents_app, filter_cons.
  case_decide; simpl; lia.
Qed.

Lemma total_paid_update_invoice_status k k' s r :
  total_paid k (update_invoice_status k' s r) = total_paid k r.
Proof. done. Qed.

Lemma invoice_of_update_status k s r sq :
  invoice_of k (mkDB (update_invoice_status k s r) sq)
  = Invoice.set_status s <$> get Invoice.id (invoices r) k.
Proof.
  unfold invoice_of, update_invoice_status. simpl.
  rewrite get_fmap by (intros x; by case_decide).
  destruct (get Invoice.id (invoices r) k) as [i|] eqn:Hi; simpl; [|done].
  apply get_Some in Hi as [Hi _]. by rewrite decide_True.
Qed.

Lemma total_paid_spec k r : total_paid k r = spec_total_paid k (payments r).
Proof.
  unfold total_paid, sum_amount_cents.
  induction (payments r) as [|p l IH]; simpl; [done|].
  rewrite filter_cons. case_decide; simpl; lia.
Qed.

(** What a successful [commit_payment] leaves in the store. *)
Lemma commit_payment_Return now payload db obj db1 :
  commit_payment now payload db = (Return obj, db1) →
  obj = Payment.mk (nextval (payments_id_seq (seqs db)))
          (PaymentCreate.invoice_id payload) (PaymentCreate.paid_on payload)
          (PaymentCreate.amount_cents payload) (PaymentCreate.method payload)
          (PaymentCreate.reference payload) now
  ∧ payments_constraints (rows db) obj
  ∧ rows db1 = set_payments (payments (rows db) ++ [obj]) (rows db).
Proof.
  unfold commit_payment. intros H. repeat case_decide; try done.
  inversion H; subst; clear H. done.
Qed.

(** A [commit_payment] that fails leaves the rows. *)
Lemma commit_payment_Raise now payload db e db1 :
  commit_payment now payload db = (Raise e, db1) →
  rows db1 = rows db ∧ e ≠ DetachedInstanceError.
Proof.
  unfold commit_payment. intros H.
  repeat case_decide; inversion H; subst; done.
Qed.

(** The store [create_payment] leaves.  Either the payment is refused and
    the rows are those of before; or it is appended, and the invoice is
    updated when the test of the settlement passes. *)
Lemma create_payment_cases now payload db out db' :
  create_payment now payload db = (out, db') →
  (rows db' = rows db ∧ ∃ e, out = Raise e ∧ e ≠ DetachedInstanceError)
  ∨ ∃ inv obj,
      invoice_of (PaymentCreate.invoice_id payload) db = Some inv
      ∧ Payment.invoice_id obj = Invoice.id inv
      ∧ Payment.amount_cents obj = PaymentCreate.amount_cents payload
      ∧ payments_constraints (rows db) obj
      ∧ let r1 := set_payments (payments (rows db) ++ [obj]) (rows db) in
        if decide (Invoice.amount_cents inv ≤ total_paid (Invoice.id inv) r1
                   ∧ Invoice.status inv ≠ "PAID")
        then out = Raise DetachedInstanceError
             ∧ rows db' = update_invoice_status (Invoice.id inv) "PAID" r1
        else out = Return obj ∧ rows db' = r1.
Proof.
  unfold create_payment, invoice_of.
  destruct (get Invoice.id _ _) as [inv|] eqn:Hinv.
  2:{ intros [= <- <-]. left. split; [done|]. by eexists. }
  destruct (commit_payment now payload db) as [[obj1|e] db1] eqn:Hc.
  2:{ apply commit_payment_Raise in Hc as [Hrows He].
      intros [= <- <-]. left. split; [done|]. by eexists. }
  apply commit_payment_Return in Hc as (Hobj & Hcons & Hrows).
  pose proof (get_Some _ _ _ _ Hinv) as [Hid _].
  intros H. right. exists inv, obj1.
  split_and!; [done | by subst obj1 | by subst obj1 | done |].
  cbv zeta. rewrite <- Hrows.
  case_decide as Hcond; inversion H; subst; clear H; cbn [rows]; done.
Qed.

(** The payment a [create_payment] has appended, if it has. *)
Lemma create_payment_appended now payload db out db' obj :
  create_payment now payload db = (out, db') →
  payments (rows db') = payments (rows db) ++ [obj] →
  ∃ inv,
    invoice_of (PaymentCreate.invoice_id payload) db = Some inv
    ∧ Payment.invoice_id obj = Invoice.id inv
    ∧ Payment.amount_cents obj = PaymentCreate.amount_cents payload
    ∧ let r1 := set_payments (payments (rows db) ++ [obj]) (rows db) in
      rows db'
      = if decide (Invoice.amount_cents inv ≤ total_paid (Invoice.id inv) r1
                   ∧ Invoice.status inv ≠ "PAID")
        then update_invoice_status (Invoice.id inv) "PAID" r1 else r1.
Proof.
  intros Hrun Hins.
  destruct (create_payment_cases _ _ _ _ _ Hrun)
    as [[Hrows _]|(inv & obj1 & Hinv & Hfk & Hamt & _ & Hcase)].
  { rewrite Hrows in Hins. apply (f_equal length) in Hins.
    rewrite length_app in Hins. simpl in Hins. lia. }
  cbv zeta in Hcase.
  assert (obj1 = obj) as ->.
  { case_decide; destruct Hcase as [_ Hrows]; rewrite Hrows in Hins;
      simpl in Hins; by apply app_inj_tail in Hins as [_ ?]. }
  exists inv. split_and!; [done..|]. cbv zeta.
  case_decide; by destruct Hcase.
Qed.

(** C1. After every [create_payment] that has inserted its payment, the
    sum of [amount_cents] over the stored payments whose [invoice_id] is
    that of the payment's invoice counts the new payment, and the invoice is
    [PAID] exactly when it was already, or when that sum reaches its
    [amount_cents]; otherwise it is as before, and so is every other
    invoice.  Payments of 30000 then 70000 against an [OPEN] invoice of
    100000 leave it [OPEN] after the first and make it [PAID] after the
    second; 60000 paid against each of two invoices of 100000 leaves both
    [OPEN]. *)
Theorem create_payment_settlement :
  (∀ now payload db out db' obj,
     create_payment now payload db = (out, db') →
     payments (rows db') = payments (rows db) ++ [obj] →
     ∃ inv,
       invoice_of (PaymentCreate.invoice_id payload) db = Some inv
       ∧ Payment.invoice_id obj = Invoice.id inv
       ∧ Payment.amount_cents obj = PaymentCreate.amount_cents payload
       ∧ spec_total_paid (Invoice.id inv) (payments (rows db'))
         = spec_total_paid (Invoice.id inv) (payments (rows db))
           + PaymentCreate.amount_cents payload
       ∧ invoice_of (PaymentCreate.invoice_id payload) db'
         = Some (if decide (Invoice.amount_cents inv
                              ≤ spec_total_paid (Invoice.id inv)
                                  (payments (rows db'))
                            ∧ Invoice.status inv ≠ "PAID")
                 then Invoice.set_status "PAID" inv else inv)
       ∧ ∀ k, k ≠ Invoice.id inv → invoice_of k db' = invoice_of k db)
  ∧ (let db0 := db_invoice "OPEN" in
     let db1 := run [(3, POST_payments (pix 30000))] db0 in
     let db2 := run [(4, POST_payments (pix 70000))] db1 in
     Invoice.status <$> invoice_of 1 db0 = Some "OPEN"
     ∧ Invoice.status <$> invoice_of 1 db1 = Some "OPEN"
     ∧ Invoice.status <$> invoice_of 1 db2 = Some "PAID")
  ∧ (let db := run [(5, POST_payments (pix_2 60000))] db_two_invoices in
     length (payments (rows db)) = 2%nat
     ∧ Invoice.status <$> invoice_of 1 db = Some "OPEN"
     ∧ Invoice.status <$> invoice_of 2 db = Some "OPEN").
Proof.
  split_and!; [|by vm_compute|by vm_compute].
  intros now payload db out db' obj Hrun Hins.
  destruct (create_payment_appended _ _ _ _ _ _ Hrun Hins)
    as (inv & Hinv & Hfk & Hamt & Hrows).
  pose proof (get_Some _ _ _ _ Hinv) as [Hid _].
  exists inv. cbv zeta in Hrows.
  set (T := spec_total_paid (Invoice.id inv) (payments (rows db'))).
  assert (HT : total_paid (Invoice.id inv)
                 (set_payments (payments (rows db) ++ [obj]) (rows db)) = T).
  { unfold T. rewrite total_paid_spec. cbn [payments set_payments]. by rewrite Hins. }
  assert (Hsum : T = spec_total_paid (Invoice.id inv) (payments (rows db))
                     + PaymentCreate.amount_cents payload).
  { rewrite <- HT, total_paid_insert, decide_True by done.
    by rewrite total_paid_spec, Hamt. }
  rewrite HT in Hrows. clearbody T.
  assert (Hinvs : invoices (rows db')
            = if decide (Invoice.amount_cents inv ≤ T ∧ Invoice.status inv ≠ "PAID")
              then (λ i, if decide (Invoice.id i = Invoice.id inv)
                         then Invoice.set_status "PAID" i else i)
                     <$> invoices (rows db)
              else invoices (rows db)).
  { rewrite Hrows. by case_decide. }
  unfold invoice_of in *. rewrite Hinvs.
  split_and!; [done..| |].
  - case_decide as Hcond; [|exact Hinv].
    rewrite get_fmap by (intros x; by case_decide).
    rewrite Hinv. simpl. by rewrite decide_True.
  - intros k Hk. case_decide as Hcond; [|done].
    rewrite get_fmap by (intros x; by case_decide).
    destruct (get Invoice.id (invoices (rows db)) k) as [i|] eqn:Hi; [|done].
    apply get_Some in Hi as [Hi _]. simpl.
    rewrite decide_False; [done | congruence].
Qed.

Lemma create_payment_settlement_witness :
  ∃ inv,
    invoice_of 2 db_two_invoices = Some inv
    ∧ spec_total_paid 2
        (payments (rows (create_payment 5 (pix_2 60000) db_two_invoices).2))
      = 60000
    ∧ Invoice.status <$> invoice_of 2 (create_payment 5 (pix_2 60000) db_two_invoices).2
      = Some (Invoice.status inv).
Proof.
  destruct (proj1 create_payment_settlement 5 (pix_2 60000) db_two_invoices
              (create_payment 5 (pix_2 60000) db_two_invoices).1
              (create_payment 5 (pix_2 60000) db_two_invoices).2
              (Payment.mk 2 2 jan15 60000 "PIX" None 5)
              eq_refl eq_refl)
    as (inv & H0 & _ & _ & Hsum & H1 & _).
  exists inv. split; [exact H0|]. split; [by vm_compute|].
  vm_compute in H0. inversion H0; subst inv. by vm_compute.
Defined.

(** ** Stores reached by serving requests *)

Lemma run_app t1 t2 db : run (t1 ++ t2) db = run t2 (run t1 db).
Proof. revert db. induction t1 as [|[now req] t1 IH]; intros db; simpl; [done | apply IH]. Qed.

Lemma run_invariant (P : DB → Prop) (allowed : request → Prop) :
  (∀ now req db, allowed req → P db → P (handle now req db).2) →
  ∀ trace db, Forall (λ e, allowed e.2) trace → P db → P (run trace db).
Proof.
  intros Hstep trace. induction trace as [|[now req] trace IH]; intros db Hall Hdb; [done|].
  inversion Hall; subst. simpl. apply IH; [done|]. by apply Hstep.
Qed.

Lemma reachable_invariant (P : DB → Prop) :
  P empty_db →
  (∀ now req db, P db → P (handle now req db).2) →
  ∀ db, reachable db → P db.
Proof.
  intros H0 Hstep db [trace <-].
  apply (run_invariant P (λ _, True)); [auto | | done].
  apply Forall_forall. done.
Qed.

Lemma reachable_handle now req db : reachable db → reachable (handle now req db).2.
Proof.
  intros [trace <-]. exists (trace ++ [(now, req)]). by rewrite run_app.
Qed.

Lemma NoDup_fmap_snoc {A} (f : A → Z) (l : list A) (x : A) :
  NoDup (f <$> l) → Forall (λ y, f y ≠ f x) l → NoDup (f <$> (l ++ [x])).
Proof.
  intros Hl Hx. rewrite fmap_app. apply NoDup_app. split_and!; [done | | apply NoDup_singleton].
  intros k Hk Hk'. apply list_elem_of_fmap in Hk as (y & -> & Hy).
  apply list_elem_of_singleton in Hk'. rewrite Forall_forall in Hx. by apply (Hx y).
Qed.

Lemma NoDup_fmap_filter {A} (f : A → Z) (P : A → Prop) `{∀ x, Decision (P x)} (l : list A) :
  NoDup (f <$> l) → NoDup (f <$> filter P l).
Proof.
  induction l as [|a l IH]; simpl; [done|]. rewrite filter_cons.
  intros Hl. apply NoDup_cons in Hl as [Ha Hl]. case_decide; [|auto].
  simpl. apply NoDup_cons. split; [|auto].
  intros Hin. apply Ha. apply list_elem_of_fmap in Hin as (y & -> & Hy).
  apply list_elem_of_fmap. exists y. split; [done|].
  apply list_elem_of_filter in Hy. tauto.
Qed.

Lemma fmap_id_preserved {A} (f : A → Z) (g : A → A) (l : list A) :
  (∀ x, f (g x) = f x) → f <$> (g <$> l) = f <$> l.
Proof. intros Hg. rewrite <- list_fmap_compose. apply list_fmap_ext. intros; apply Hg. Qed.

Lemma Forall_snoc {A} (P : A → Prop) (l : list A) (x : A) :
  Forall P l → P x → Forall P (l ++ [x]).
Proof. intros. apply Forall_app. split; [done | by constructor]. Qed.

Lemma Forall_filter {A} (P Q : A → Prop) `{∀ x, Decision (Q x)} (l : list A) :
  Forall P l → Forall P (filter Q l).
Proof.
  rewrite !Forall_forall. intros Hl x Hx. apply Hl.
  apply list_elem_of_filter in Hx. tauto.
Qed.

Lemma detach_po_id k i : Invoice.id (detach_po k i) = Invoice.id i.
Proof. unfold detach_po. by case_decide. Qed.
Lemma detach_po_amount_cents k i :
  Invoice.amount_cents (detach_po k i) = Invoice.amount_cents i.
Proof. unfold detach_po. by case_decide. Qed.
Lemma detach_po_status k i : Invoice.status (detach_po k i) = Invoice.status i.
Proof. unfold detach_po. by case_decide. Qed.

Lemma store_ok_empty : store_ok empty_db.
Proof. split; simpl; constructor. Qed.

(** The primary key of a row that passes the constraints of its table is
    not the key of a stored row. *)
Lemma Forall_and_l {A} (P Q : A → Prop) (l : list A) :
  Forall (λ x, P x ∧ Q x) l → Forall P l.
Proof. intros H. eapply Forall_impl; [exact H|]. simpl. tauto. Qed.

Lemma departments_constraints_pk r x :
  departments_constraints r x →
  Forall (λ d, Department.id d ≠ Department.id x) (departments r).
Proof. apply Forall_and_l. Qed.

Lemma employees_constraints_pk r x :
  employees_constraints r x →
  Forall (λ e, Employee.id e ≠ Employee.id x) (employees r).
Proof. intros [H _]. revert H. apply Forall_and_l. Qed.

Lemma suppliers_constraints_pk r x :
  suppliers_constraints r x →
  Forall (λ s, Supplier.id s ≠ Supplier.id x) (suppliers r).
Proof. apply Forall_and_l. Qed.

Lemma purchase_orders_constraints_pk r x :
  purchase_orders_constraints r x →
  Forall (λ p, PurchaseOrder.id p ≠ PurchaseOrder.id x) (purchase_orders r).
Proof. by intros [H _]. Qed.

Lemma invoices_constraints_pk r x :
  invoices_constraints r x →
  Forall (λ i, Invoice.id i ≠ Invoice.id x) (invoices r).
Proof. intros [H _]. revert H. apply Forall_and_l. Qed.

Lemma payments_constraints_pk r x :
  payments_constraints r x →
  Forall (λ p, Payment.id p ≠ Payment.id x) (payments r).
Proof. by intros [H _]. Qed.

Lemma NoDup_fmap_fmap {A} (f : A → Z) (g : A → A) (l : list A) :
  (∀ x, f (g x) = f x) → NoDup (f <$> l) → NoDup (f <$> (g <$> l)).
Proof. intros Hg. by rewrite fmap_id_preserved. Qed.

Lemma Forall_fmap_preserved {A} (P : A → Prop) (g : A → A) (l : list A) :
  (∀ x, P x → P (g x)) → Forall P l → Forall P (g <$> l).
Proof. intros Hg Hl. apply Forall_fmap. eapply Forall_impl; [exact Hl | exact Hg]. Qed.

Lemma set_status_if_id k s i :
  Invoice.id (if decide (Invoice.id i = k) then Invoice.set_status s i else i)
  = Invoice.id i.
Proof. by case_decide. Qed.

Lemma set_status_if_amount_cents k s i :
  Invoice.amount_cents (if decide (Invoice.id i = k) then Invoice.set_status s i else i)
  = Invoice.amount_cents i.
Proof. by case_decide. Qed.

Lemma Forall_le_nextval (l : list Payment.t) last :
  Forall (λ p, Payment.id p ≤ last) l → Forall (λ p, Payment.id p ≤ nextval last) l.
Proof. intros H. eapply Forall_impl; [exact H|]. unfold nextval. simpl. intros; lia. Qed.

Create HintDb store discriminated.
#[local] Hint Resolve NoDup_fmap_filter NoDup_fmap_snoc NoDup_fmap_fmap
  Forall_filter Forall_snoc Forall_le_nextval
  departments_constraints_pk employees_constraints_pk suppliers_constraints_pk
  purchase_orders_constraints_pk invoices_constraints_pk payments_constraints_pk
  detach_po_id set_status_if_id : store.

Lemma store_ok_handle now req db : store_ok db → store_ok (handle now req db).2.
Proof.
  intros [Hd He Hs Hpo Hi Hp Hamt Hseq Hpos].
  destruct req; handler_cases; try (split; assumption);
    split; cbn [rows seqs departments employees suppliers purchase_orders invoices
                payments set_departments set_employees set_suppliers
                set_purchase_orders set_invoices set_payments commit_delete_po
                commit_delete_invoice commit_delete_payment update_invoice_status
                payments_id_seq set_payments_id_seq];
    try assumption; auto with store.
  all: try (apply Forall_fmap_preserved; [|assumption]; intros i;
            by rewrite ?detach_po_amount_cents, ?set_status_if_amount_cents).
  all: try (apply Forall_snoc; [auto with store|]; simpl;
            first [ by destruct Hdec as (_ & _ & _ & _ & H0)
                  | by destruct Hdec as (_ & _ & _ & H0)
                  | unfold nextval; lia ]).
Qed.

Lemma reachable_store_ok db : reachable db → store_ok db.
Proof.
  apply reachable_invariant; [apply store_ok_empty|].
  intros. by apply store_ok_handle.
Qed.

Lemma Forall_fmap_impl {A} (P Q : A → Prop) (g : A → A) (l : list A) :
  Forall P l → (∀ x, P x → Q (g x)) → Forall Q (g <$> l).
Proof. intros Hl Hg. apply Forall_fmap. eapply Forall_impl; [exact Hl | exact Hg]. Qed.

Ltac ids_base :=
  match goal with
  | H : Forall _ ?l |- Forall _ ?l =>
    eapply Forall_impl; [exact H|]; simpl; intros ?;
    unfold nextval, seq_max in *; lia
  end.

Ltac ids_solve :=
  first
    [ ids_base
    | apply Forall_filter; ids_base
    | apply Forall_snoc; [ids_base | unfold nextval, seq_max in *; simpl; lia]
    | match goal with
      | H : Forall _ ?l |- Forall _ (_ <$> ?l) =>
        eapply Forall_fmap_impl; [exact H|]; simpl; intros ?;
        rewrite ?detach_po_id, ?set_status_if_id;
        unfold nextval, seq_max in *; lia
      end
    | unfold nextval, seq_max in *; simpl; lia ].

Lemma ids_issued_handle now req db : ids_issued db → ids_issued (handle now req db).2.
Proof.
  intros [H1 H2 H3 H4 H5 H6 (S1 & S2 & S3 & S4 & S5 & S6)].
  destruct req; handler_cases; try (split; [assumption..|tauto]);
    split; rows_cbn; try assumption; ids_solve.
Qed.

Lemma reachable_ids_issued db : reachable db → ids_issued db.
Proof.
  apply reachable_invariant;
    [by split; simpl; try constructor; unfold seq_max; lia|].
  intros. by apply ids_issued_handle.
Qed.


(** The key of a stored invoice fits an [INTEGER] column. *)
Lemma stored_invoice_int4 db k inv :
  reachable db → invoice_of k db = Some inv → int4 k.
Proof.
  intros Hreach Hinv. apply get_Some in Hinv as [<- Hin].
  destruct (reachable_ids_issued db Hreach) as [_ _ _ _ H _ (_ & _ & _ & _ & S & _)].
  rewrite Forall_forall in H. specialize (H _ Hin).
  unfold int4, seq_max in *. lia.
Qed.

Lemma sum_amount_cents_nonneg q :
  Forall (λ p, 0 < Payment.amount_cents p) q → 0 ≤ sum_amount_cents q.
Proof. unfold sum_amount_cents. induction 1; simpl; lia. Qed.

Lemma total_paid_nonneg k db : store_ok db → 0 ≤ total_paid k (rows db).
Proof.
  intros Hok. apply sum_amount_cents_nonneg, Forall_filter, (ok_payments_amount _ Hok).
Qed.

Lemma pay_method_check_no_NUL s : pay_method_check s → no_NUL s.
Proof.
  unfold pay_method_check. intros H.
  repeat (apply elem_of_cons in H as [->|H]); [..|by apply elem_of_nil in H];
    by_evaluation.
Qed.

(** A payment that the driver can send, that fits its columns and that
    satisfies the declared constraints is committed, as long as the
    sequence has a value left. *)
Lemma commit_payment_accepts now payload db inv :
  store_ok db →
  invoice_of (PaymentCreate.invoice_id payload) db = Some inv →
  pay_method_check (PaymentCreate.method payload) →
  no_NUL_opt (PaymentCreate.reference payload) →
  int4 (PaymentCreate.invoice_id payload) →
  0 < PaymentCreate.amount_cents payload ≤ 2147483647 →
  payments_id_seq (seqs db) < seq_max →
  ∃ obj db1, commit_payment now payload db = (Return obj, db1).
Proof.
  intros Hok Hinv Hm Href Hfk Hpos Hmax. unfold commit_payment.
  rewrite decide_True by (split; [by apply pay_method_check_no_NUL | done]).
  rewrite decide_True by (split; [done | unfold int4; lia]).
  rewrite decide_True by done.
  rewrite decide_True; [by eexists _, _|].
  split_and!; simpl; [| |done|lia].
  - eapply Forall_impl; [apply (ok_payments_seq _ Hok)|].
    unfold nextval. simpl. lia.
  - apply (get_is_Some Invoice.id). unfold invoice_of in Hinv. by rewrite Hinv.
Qed.




(** ** The settlement invariant along a run *)

Lemma NoDup_fmap_eq {A} (f : A → Z) (l : list A) x y :
  NoDup (f <$> l) → x ∈ l → y ∈ l → f x = f y → x = y.
Proof.
  induction l as [|a l IH]; simpl; [by inversion 2|].
  intros Hnd Hx Hy Hf. apply NoDup_cons in Hnd as [Ha Hnd].
  apply elem_of_cons in Hx as [->|Hx]; apply elem_of_cons in Hy as [->|Hy]; auto.
  - destruct Ha. rewrite Hf. by apply list_elem_of_fmap_2.
  - destruct Ha. rewrite <- Hf. by apply list_elem_of_fmap_2.
Qed.

Lemma total_paid_delete_invoice k k' r :
  k ≠ k' → total_paid k (commit_delete_invoice k' r) = total_paid k r.
Proof.
  intros Hk. unfold total_paid, commit_delete_invoice. simpl. f_equal.
  induction (payments r) as [|p l IH]; [done|].
  rewrite !filter_cons. repeat case_decide; rewrite ?filter_cons;
    repeat case_decide; simpl; congruence.
Qed.

Lemma settled_intro db :
  (∀ i, i ∈ invoices (rows db) → Invoice.status i = "PAID" →
        Invoice.amount_cents i ≤ total_paid (Invoice.id i) (rows db)) →
  settled db.
Proof. intros H. apply Forall_forall. exact H. Qed.

Lemma settled_elim db i :
  settled db → i ∈ invoices (rows db) → Invoice.status i = "PAID" →
  Invoice.amount_cents i ≤ total_paid (Invoice.id i) (rows db).
Proof. unfold settled. rewrite Forall_forall. auto. Qed.

Lemma settled_handle now req db :
  store_ok db → settlement_preserving req → settled db →
  settled (handle now req db).2.
Proof.
  intros Hok Hreq Hs. pose proof (settled_elim db) as Hold.
  destruct req; simpl in Hreq; try done; handler_cases; try assumption;
    try (unfold settled, total_paid in *; cbn; assumption);
    apply settled_intro; cbn [rows]; intros i Hi Hp.
  - (* DELETE /purchase-orders/{id} *)
    unfold commit_delete_po in Hi. cbn in Hi.
    apply list_elem_of_fmap in Hi as (j & -> & Hj).
    rewrite detach_po_status in Hp.
    rewrite detach_po_amount_cents, detach_po_id. by apply Hold.
  - (* POST /invoices *)
    cbn in Hi. apply elem_of_app in Hi as [Hi|Hi]; [by apply Hold|].
    apply list_elem_of_singleton in Hi as ->. simpl in *.
    rewrite (Hreq Hp). apply (total_paid_nonneg _ db Hok).
  - (* DELETE /invoices/{id} *)
    cbn in Hi. apply list_elem_of_filter in Hi as [Hne Hi].
    rewrite total_paid_delete_invoice by done. by apply Hold.
  - (* POST /payments, the invoice becomes PAID *)
    destruct Hdec0 as [Hcover Hnp]. apply get_Some in Hget as [Hid Hin].
    rewrite total_paid_update_invoice_status.
    cbn in Hi. apply list_elem_of_fmap in Hi as (j & -> & Hj).
    case_decide as Hk; simpl.
    + assert (j = t) as -> by (eapply (NoDup_fmap_eq Invoice.id);
                               eauto using ok_invoices_pk).
      exact Hcover.
    + rewrite total_paid_insert, decide_False; [|simpl; congruence].
      specialize (Hold j Hs Hj Hp). lia.
  - (* POST /payments, the invoice is left as it is *)
    cbn in Hi. rewrite total_paid_insert. destruct Hdec as (_ & _ & _ & Hpos).
    simpl in Hpos. specialize (Hold i Hs Hi Hp). simpl. case_decide; lia.
Qed.

(** C3, as the code has it.  After any sequence of requests that deletes no
    payment and creates no invoice as [PAID] with an amount to pay, every
    [PAID] invoice of the store is covered by the payments stored against
    it. *)
Theorem settled_along_runs trace :
  Forall (λ e, settlement_preserving e.2) trace → settled (run trace empty_db).
Proof.
  intros Hall.
  cut (store_ok (run trace empty_db) ∧ settled (run trace empty_db)); [tauto|].
  apply (run_invariant (λ db, store_ok db ∧ settled db) settlement_preserving);
    [|done|].
  - intros now req db Hreq [Hok Hs]. split;
      [by apply store_ok_handle | by apply settled_handle].
  - split; [apply store_ok_empty | constructor].
Qed.

Lemma settled_along_runs_witness :
  settled (run [(1, POST_suppliers acme); (2, POST_invoices (invoice_100000 "OPEN"));
                (3, POST_payments (pix 30000)); (4, POST_payments (pix 70000))]
             empty_db).
Proof.
  apply settled_along_runs.
  repeat constructor; simpl; discriminate.
Defined.

(** C3, as stated, fails: an invoice created as [PAID] has no payment, and a
    [PAID] invoice whose payment is deleted stays [PAID]. *)
Lemma settled_not_invariant :
  ¬ settled (run [(1, POST_suppliers acme);
                  (2, POST_invoices (invoice_100000 "PAID"))] empty_db)
  ∧ ¬ settled (run [(1, POST_suppliers acme);
                    (2, POST_invoices (invoice_100000 "OPEN"));
                    (3, POST_payments (pix 100000));
                    (4, DELETE_payments_id 1)] empty_db).
Proof.
  split; intros H; unfold settled in H; vm_compute in H;
    inversion H as [|? ? H1 _]; subst; specialize (H1 eq_refl); by apply H1.
Qed.

(** ** Status changes *)

Lemma get_app_Some {A} (pk : A → Z) (l l' : list A) k x :
  get pk l k = Some x → get pk (l ++ l') k = Some x.
Proof.
  unfold get. rewrite filter_app. intros H.
  destruct (filter (λ r, pk r = k) l); [done | exact H].
Qed.

(** C4, as the code has it.  Whatever request is served, an invoice that
    stays stored keeps its status, unless the request is a payment recorded
    against it that reaches its amount while it is not [PAID]: then it
    becomes [PAID], whatever it was ([OPEN], [CANCELLED] or [OVERDUE]).  So
    [PAID] is never reverted and nothing sets [CANCELLED] or [OVERDUE] on a
    stored invoice.  Deleting a payment is a request of the system; it
    removes the payment and leaves every invoice as it is. *)
Theorem status_only_moves_to_PAID :
  (∀ now req db k i i',
     invoice_of k db = Some i →
     invoice_of k (handle now req db).2 = Some i' →
     Invoice.status i' = Invoice.status i
     ∨ (Invoice.status i' = "PAID" ∧ Invoice.status i ≠ "PAID"
        ∧ (∃ p, req = POST_payments p ∧ PaymentCreate.invoice_id p = k)
        ∧ Invoice.amount_cents i ≤ total_paid k (rows (handle now req db).2)))
  ∧ (∀ now k db obj,
       get Payment.id (payments (rows db)) k = Some obj →
       ∃ db', handle now (DELETE_payments_id k) db = (Return NoContent, db')
              ∧ get Payment.id (payments (rows db')) k = None
              ∧ invoices (rows db') = invoices (rows db)).
Proof.
  split.
  - intros now req db k i i' Hi. pose proof (get_Some _ _ _ _ Hi) as [Hk _].
    unfold invoice_of in *.
    destruct req; handler_cases; intros Hi';
      try (cbn in Hi'; rewrite Hi in Hi'; inversion Hi'; by left).
    + (* DELETE /purchase-orders/{id} *)
      unfold commit_delete_po in Hi'. cbn in Hi'.
      rewrite get_fmap, Hi in Hi' by apply detach_po_id.
      inversion Hi'. left. apply detach_po_status.
    + (* POST /invoices *)
      cbn in Hi'. rewrite (get_app_Some _ _ _ _ _ Hi) in Hi'. inversion Hi'. by left.
    + (* DELETE /invoices/{id} *)
      cbn in Hi'. destruct (decide (k = Invoice.id t)) as [->|Hne].
      * by rewrite get_filter_eq in Hi'.
      * rewrite get_filter_ne, Hi in Hi' by done. inversion Hi'. by left.
    + (* POST /payments, the invoice becomes PAID *)
      cbn in Hi'. rewrite get_fmap, Hi in Hi' by (intros x; by case_decide).
      simpl in Hi'. apply get_Some in Hget as Hget'. destruct Hget' as [Hid _].
      case_decide as Hsame; inversion Hi'; subst i'; [|by left].
      right. assert (k = PaymentCreate.invoice_id payload) as -> by congruence.
      assert (t = i) as -> by congruence.
      destruct Hdec0 as [Hcover Hnp]. split_and!; [done | done | by eexists |].
      rewrite total_paid_update_invoice_status. rewrite Hk in Hcover. exact Hcover.
  - intros now k db obj Hobj. pose proof (get_Some _ _ _ _ Hobj) as [Hk _].
    unfold handle, with_body, delete_payment. rewrite Hobj. simpl.
    eexists. split; [done|]. rewrite Hk. split; [apply get_filter_eq | done].
Qed.

Lemma status_only_moves_to_PAID_witness :
  (Invoice.status <$> invoice_of 1
     (handle 3 (POST_payments (pix 100000)) (db_invoice "CANCELLED")).2
   = Some "PAID")
  ∧ ∃ db', handle 4 (DELETE_payments_id 1)
             (run [(3, POST_payments (pix 100000))] (db_invoice "OPEN"))
           = (Return NoContent, db').
Proof.
  split.
  - destruct (proj1 status_only_moves_to_PAID 3 (POST_payments (pix 100000))
                (db_invoice "CANCELLED") 1
                (Invoice.mk 1 1 None "NF-1" jan15 jan15 100000 "CANCELLED" 2)
                (Invoice.mk 1 1 None "NF-1" jan15 jan15 100000 "PAID" 2)
                eq_refl eq_refl) as [H|(H & _)]; [discriminate H|].
    by vm_compute.
  - destruct (proj2 status_only_moves_to_PAID 4 1
                (run [(3, POST_payments (pix 100000))] (db_invoice "OPEN"))
                (Payment.mk 1 1 jan15 100000 "PIX" None 3) eq_refl)
      as (db' & H & _).
    by exists db'.
Defined.

(** C4, as stated, fails: a stored payment can be deleted, and a payment
    that covers a [CANCELLED] invoice makes it [PAID]. *)
Lemma payment_deleted_and_cancelled_paid :
  (let db := run [(3, POST_payments (pix 100000))] (db_invoice "OPEN") in
   length (payments (rows db)) = 1%nat
   ∧ (handle 4 (DELETE_payments_id 1) db).1 = Return NoContent
   ∧ payments (rows (handle 4 (DELETE_payments_id 1) db).2) = [])
  ∧ Invoice.status <$> invoice_of 1 (db_invoice "CANCELLED") = Some "CANCELLED"
  ∧ Invoice.status <$> invoice_of 1
      (run [(3, POST_payments (pix 100000))] (db_invoice "CANCELLED"))
    = Some "PAID".
Proof. by vm_compute. Qed.

(** ** Deletions *)

(** C5, as the code has it.  Deleting a department, an employee or a
    supplier that another stored row references fails with the store's
    [IntegrityError], which no handler catches: a generic failure, not a
    conflict.  The store is left as it was, so the referenced record remains
    stored. *)
Theorem delete_referenced_fails :
  (∀ now db k obj,
     get Department.id (departments (rows db)) k = Some obj →
     Exists (λ e, Employee.department_id e = k) (employees (rows db))
     ∨ Exists (λ p, PurchaseOrder.department_id p = k) (purchase_orders (rows db)) →
     handle now (DELETE_departments_id k) db = (Raise IntegrityError, db))
  ∧ (∀ now db k obj,
       get Employee.id (employees (rows db)) k = Some obj →
       Exists (λ p, PurchaseOrder.requested_by p = k) (purchase_orders (rows db)) →
       handle now (DELETE_employees_id k) db = (Raise IntegrityError, db))
  ∧ (∀ now db k obj,
       get Supplier.id (suppliers (rows db)) k = Some obj →
       Exists (λ p, PurchaseOrder.supplier_id p = k) (purchase_orders (rows db))
       ∨ Exists (λ i, Invoice.supplier_id i = k) (invoices (rows db)) →
       handle now (DELETE_suppliers_id k) db = (Raise IntegrityError, db))
  ∧ generic_failure IntegrityError ∧ ¬ ConflictError IntegrityError.
Proof.
  split_and!.
  - intros now db k obj Hobj Href. pose proof (get_Some _ _ _ _ Hobj) as [Hk _].
    unfold handle, with_body, delete_department, commit_delete_department.
    rewrite Hobj, Hk. rewrite decide_False; [done|].
    intros [H1 H2]. rewrite Forall_forall in H1. rewrite Forall_forall in H2.
    destruct Href as [H|H]; apply Exists_exists in H as (p & Hp & Hpk).
    + by apply (H1 p).
    + by apply (H2 p).
  - intros now db k obj Hobj Href. pose proof (get_Some _ _ _ _ Hobj) as [Hk _].
    unfold handle, with_body, delete_employee, commit_delete_employee.
    rewrite Hobj, Hk. rewrite decide_False; [done|].
    intros H1. rewrite Forall_forall in H1.
    apply Exists_exists in Href as (p & Hp & Hpk). by apply (H1 p).
  - intros now db k obj Hobj Href. pose proof (get_Some _ _ _ _ Hobj) as [Hk _].
    unfold handle, with_body, delete_supplier, commit_delete_supplier.
    rewrite Hobj, Hk. rewrite decide_False; [done|].
    intros [H1 H2]. rewrite Forall_forall in H1. rewrite Forall_forall in H2.
    destruct Href as [H|H]; apply Exists_exists in H as (p & Hp & Hpk).
    + by apply (H1 p).
    + by apply (H2 p).
  - done.
  - unfold ConflictError. simpl. lia.
Qed.

Lemma delete_referenced_fails_witness :
  handle 3 (DELETE_departments_id 1) db_staffed = (Raise IntegrityError, db_staffed)
  ∧ handle 6 (DELETE_employees_id 1) db_ordered = (Raise IntegrityError, db_ordered)
  ∧ handle 6 (DELETE_suppliers_id 1) db_ordered = (Raise IntegrityError, db_ordered).
Proof.
  destruct delete_referenced_fails as (Hd & He & Hs & _).
  split_and!.
  - apply (Hd 3 db_staffed 1 (Department.mk 1 "Financeiro" "CC-100" 1)); [done|].
    left. vm_compute. by left.
  - apply (He 6 db_ordered 1
             (Employee.mk 1 1 "Ana Souza" "ana.souza@empresa.com"
                "Analista Financeiro" 550000 (mkdate 2023 2 10) true 2)); [done|].
    vm_compute. by left.
  - apply (Hs 6 db_ordered 1 (Supplier.mk 1 "ACME" "12.345.678/0001-90" None None 3));
      [done|].
    left. vm_compute. by left.
Defined.

(** C5, as stated, fails: deleting the department of an employee is answered
    with an exception that is not a conflict. *)
Lemma delete_department_in_use_not_conflict :
  get_employee 1 db_staffed
  = Return (Employee.mk 1 1 "Ana Souza" "ana.souza@empresa.com"
              "Analista Financeiro" 550000 (mkdate 2023 2 10) true 2)
  ∧ ∃ e, (handle 3 (DELETE_departments_id 1) db_staffed).1 = Raise e
         ∧ ¬ ConflictError e.
Proof.
  split; [done|]. exists IntegrityError. split; [done|].
  unfold ConflictError. simpl. lia.
Qed.

(** C6. Deleting a purchase order that an invoice references succeeds: the
    purchase order is gone, the invoice is still stored with every field as
    before except [po_id], which is absent, and no invoice or payment is
    removed. *)
Theorem delete_po_detaches now db k po inv :
  get PurchaseOrder.id (purchase_orders (rows db)) k = Some po →
  invoice_of (Invoice.id inv) db = Some inv →
  Invoice.po_id inv = Some k →
  ∃ db',
    handle now (DELETE_purchase_orders_id k) db = (Return NoContent, db')
    ∧ get PurchaseOrder.id (purchase_orders (rows db')) k = None
    ∧ invoice_of (Invoice.id inv) db' = Some (Invoice.set_po_id None inv)
    ∧ Invoice.id <$> invoices (rows db') = Invoice.id <$> invoices (rows db)
    ∧ payments (rows db') = payments (rows db).
Proof.
  intros Hpo Hinv Href. pose proof (get_Some _ _ _ _ Hpo) as [Hk _].
  unfold handle, with_body, delete_po. rewrite Hpo, Hk. simpl.
  eexists. split; [done|]. unfold commit_delete_po, invoice_of in *. cbn.
  split_and!.
  - apply get_filter_eq.
  - rewrite get_fmap, Hinv by apply detach_po_id. simpl.
    unfold detach_po. by rewrite decide_True.
  - apply fmap_id_preserved, detach_po_id.
  - done.
Qed.

Lemma delete_po_detaches_witness :
  ∃ db',
    handle 6 (DELETE_purchase_orders_id 1) db_ordered = (Return NoContent, db')
    ∧ invoice_of 1 db'
      = Some (Invoice.mk 1 1 None "NF-7" jan15 jan15 125000 "OPEN" 5).
Proof.
  destruct (delete_po_detaches 6 db_ordered 1
              (PurchaseOrder.mk 1 1 1 1 "DRAFT" 125000 4)
              (Invoice.mk 1 1 (Some 1) "NF-7" jan15 jan15 125000 "OPEN" 5)
              eq_refl eq_refl eq_refl) as (db' & H & _ & Hi & _).
  exists db'. split; [exact H | exact Hi].
Defined.

(** ** Failed requests *)




(** ** Listings *)

Global Instance key_le_total {A} (pk : A → Z) : Total (key_le pk).
Proof. intros a b. unfold key_le. lia. Qed.

Global Instance key_le_trans {A} (pk : A → Z) : Transitive (key_le pk).
Proof. intros a b c. unfold key_le. lia. Qed.

Lemma StronglySorted_take {A} (R : relation A) (l : list A) n :
  StronglySorted R l → StronglySorted R (take n l).
Proof.
  intros H. rewrite <- (take_drop n l) in H. by apply StronglySorted_app_1_l in H.
Qed.

Lemma StronglySorted_drop {A} (R : relation A) (l : list A) n :
  StronglySorted R l → StronglySorted R (drop n l).
Proof.
  intros H. rewrite <- (take_drop n l) in H. by apply StronglySorted_app_1_r in H.
Qed.

Lemma order_by_sorted {A} (pk : A → Z) (q : list A) :
  StronglySorted Z.le (pk <$> order_by pk q).
Proof.
  apply (StronglySorted_fmap pk (key_le pk) Z.le); [done|].
  apply Sorted_StronglySorted; [apply _|]. apply Sorted_merge_sort. apply _.
Qed.

Lemma order_by_Permutation {A} (pk : A → Z) (q : list A) : order_by pk q ≡ₚ q.
Proof. apply merge_sort_Permutation. Qed.

Lemma Query_Return dflt lo hi v x :
  Query dflt lo hi v = Return x →
  x = default dflt v ∧ lo ≤ x ∧ (∀ h, hi = Some h → x ≤ h).
Proof.
  unfold Query. case_decide; [|done]. destruct hi as [h|].
  - case_decide; [|done]. intros [= <-]. split_and!; [done..|]. by intros ? [= <-].
  - intros [= <-]. done.
Qed.

Lemma NoDup_fmap_Permutation {A} (pk : A → Z) (l l' : list A) :
  l ≡ₚ l' → NoDup (pk <$> l') → NoDup (pk <$> l).
Proof. intros H. by rewrite H. Qed.

Lemma NoDup_take {A} (l : list A) n : NoDup l → NoDup (take n l).
Proof. intros H. eapply sublist_NoDup; [exact H | apply sublist_take]. Qed.

Lemma NoDup_drop {A} (l : list A) n : NoDup l → NoDup (drop n l).
Proof. intros H. eapply sublist_NoDup; [exact H | apply sublist_drop]. Qed.

Lemma StronglySorted_le_lt (l : list Z) :
  StronglySorted Z.le l → NoDup l → StronglySorted Z.lt l.
Proof.
  induction 1 as [|x l Hl IH Hx]; intros Hnd; constructor.
  - apply IH. by apply NoDup_cons in Hnd as [_ ?].
  - apply NoDup_cons in Hnd as [Hnx _]. rewrite Forall_forall in *.
    intros y Hy. specialize (Hx y Hy).
    assert (x ≠ y) by (intros ->; done). lia.
Qed.

Lemma NoDup_filter_is_not_None {A B} `{EqDecision B}
    (pk : A → Z) (col : A → B) (v : option B) (q : list A) :
  NoDup (pk <$> q) → NoDup (pk <$> filter_is_not_None col v q).
Proof. destruct v; simpl; auto using NoDup_fmap_filter. Qed.

Lemma NoDup_filter_if_truthy {A}
    (pk : A → Z) (col : A → string) (v : option string) (q : list A) :
  NoDup (pk <$> q) → NoDup (pk <$> filter_if_truthy col v q).
Proof. destruct v; simpl; [case_decide|]; auto using NoDup_fmap_filter. Qed.

(** What a page is: the query sorted on the key, [offset] rows skipped, at
    most [limit] rows kept. *)
Lemma paginate_Return {A} (pk : A → Z) limit offset binds (q l : list A) :
  paginate pk limit offset binds q = Return l →
  1 ≤ default 50 limit ≤ 200 ∧ 0 ≤ default 0 offset
  ∧ l = offset_limit (default 0 offset) (default 50 limit) (order_by pk q)
  ∧ (length l ≤ Z.to_nat (default 50%Z limit))%nat
  ∧ StronglySorted Z.le (pk <$> l)
  ∧ l ⊆ q
  ∧ (NoDup (pk <$> q) → StronglySorted Z.lt (pk <$> l)).
Proof.
  unfold paginate, Query_limit, Query_offset.
  destruct (Query 50 1 (Some 200) limit) as [lim|] eqn:Hl; [|done].
  destruct (Query 0 0 None offset) as [off|] eqn:Ho; [|done].
  apply Query_Return in Hl as (-> & Hl1 & Hl2). specialize (Hl2 _ eq_refl).
  apply Query_Return in Ho as (-> & Ho1 & _).
  do 2 (case_decide; [|done]).
  intros [= <-].
  assert (Hsorted : StronglySorted Z.le
            (pk <$> offset_limit (default 0 offset) (default 50 limit) (order_by pk q))).
  { unfold offset_limit. rewrite fmap_take, fmap_drop.
    apply StronglySorted_take, StronglySorted_drop, order_by_sorted. }
  split_and!; try done.
  - unfold offset_limit. rewrite length_take. lia.
  - intros x Hx. unfold offset_limit in Hx.
    apply subseteq_take, subseteq_drop in Hx.
    by rewrite order_by_Permutation in Hx.
  - intros Hnd. apply StronglySorted_le_lt; [done|].
    unfold offset_limit. rewrite fmap_take, fmap_drop.
    apply NoDup_take, NoDup_drop.
    apply (NoDup_fmap_Permutation pk _ q); [apply order_by_Permutation | done].
Qed.

(** A page is returned only when the store takes the query: the strings
    it binds hold no NUL character and the offset fits in 64 bits. *)
Lemma paginate_Return_taken {A} (pk : A → Z) limit offset binds (q l : list A) :
  paginate pk limit offset binds q = Return l →
  Forall no_NUL binds ∧ default 0 offset ≤ int8_max.
Proof.
  unfold paginate, Query_limit, Query_offset.
  destruct (Query 50 1 (Some 200) limit) as [lim|] eqn:Hl; [|done].
  destruct (Query 0 0 None offset) as [off|] eqn:Ho; [|done].
  apply Query_Return in Ho as (-> & Ho1 & _).
  by do 2 (case_decide; [|done]).
Qed.

(** C8. A listing that is answered returns at most [limit] records, where
    [limit] is 50 when it is left out and lies between 1 and 200, after
    [offset] records, where [offset] is 0 when it is left out and is not
    negative; the records come in ascending order of their identifier,
    strictly so in a store reached by requests; the store is left as it is,
    so the same listing is answered the same way again. *)
Theorem listing_bounded_ordered now req db limit offset body db' :
  listing req = Some (limit, offset) →
  handle now req db = (Return body, db') →
  1 ≤ default 50 limit ≤ 200
  ∧ 0 ≤ default 0 offset
  ∧ (∃ ids, listed_ids body = Some ids
            ∧ (length ids ≤ Z.to_nat (default 50%Z limit))%nat
            ∧ StronglySorted Z.le ids
            ∧ (reachable db → StronglySorted Z.lt ids))
  ∧ db' = db
  ∧ ∀ now', handle now' req db' = (Return body, db').
Proof.
  intros Hreq Hrun.
  assert (Hpure : db' = db ∧ ∀ now', handle now' req db = handle now req db).
  { destruct req; try discriminate Hreq; simpl in *; by inversion Hrun. }
  destruct Hpure as [-> Hpure].
  split_and!; [..|done|intros; by rewrite Hpure].
  all: destruct req; try discriminate Hreq; simpl in *;
    inversion Hreq; subst; clear Hreq;
    match type of Hrun with
    | (outcome_map _ ?o, _) = _ => destruct o as [l|] eqn:Hl; [|done]
    end;
    apply paginate_Return in Hl as (? & ? & _ & ? & ? & _ & Hstrict);
    inversion Hrun; subst; clear Hrun;
    try done; try lia.
  all: eexists; split; [done|]; split_and!; [by rewrite length_fmap | done |].
  all: intros Hok%reachable_store_ok; destruct Hok; apply Hstrict;
    auto using NoDup_filter_is_not_None, NoDup_filter_if_truthy.
Qed.

Lemma listing_bounded_ordered_witness :
  ∃ ids,
    listed_ids (PaymentOut_list [Payment.mk 2 1 jan15 70000 "PIX" None 4]) = Some ids
    ∧ (length ids ≤ 1)%nat
    ∧ StronglySorted Z.le ids
    ∧ (reachable db_settled → StronglySorted Z.lt ids).
Proof.
  destruct (listing_bounded_ordered 5 (GET_payments (Some 1) (Some 1) (Some 1))
              db_settled (Some 1) (Some 1)
              (PaymentOut_list [Payment.mk 2 1 jan15 70000 "PIX" None 4])
              db_settled eq_refl eq_refl) as (_ & _ & H & _).
  exact H.
Defined.

(** ** The tool gateway *)

Section gateway.
Import mcp_server.

Variable date_fromisoformat : string → option date.
Variable datetime_fromisoformat : string → option datetime.

Local Abbreviation normalize :=
  (_normalize_hired_on date_fromisoformat datetime_fromisoformat).

Lemma contains_nonempty c s : contains c s = true → s ≠ "".
Proof. by destruct s. Qed.

(** C9, as the code has it.  Of the tools, [create_employee] alone
    normalizes a date: it sends [hired_on] normalized.  The normalization
    replaces a string that holds a [T] and parses as an ISO datetime by
    the ISO form of its calendar date, re-emits a string that parses as an
    ISO date, and returns any other string as it is.  [create_invoice] and
    [create_payment] send [issued_on], [due_on] and [paid_on] as they
    were given. *)
Theorem only_hired_on_normalized :
  (∀ department_id full_name email role salary_cents hired_on active,
     json_field "hired_on"
       (create_employee date_fromisoformat datetime_fromisoformat
          department_id full_name email role salary_cents hired_on active)
     = Some (JStr (normalize hired_on)))
  ∧ (∀ value dt,
       contains "T" (strip value) = true →
       datetime_fromisoformat (replace "Z" "+00:00" (strip value)) = Some dt →
       normalize value = isoformat (dt_date dt))
  ∧ (∀ value d,
       strip value ≠ "" →
       contains "T" (strip value) = false →
       date_fromisoformat (strip value) = Some d →
       normalize value = isoformat d)
  ∧ (∀ value,
       strip value = ""
       ∨ (contains "T" (strip value) = true
          ∧ datetime_fromisoformat (replace "Z" "+00:00" (strip value)) = None)
       ∨ (contains "T" (strip value) = false
          ∧ date_fromisoformat (strip value) = None) →
       normalize value = value)
  ∧ (∀ supplier_id invoice_no issued_on due_on amount_cents status po_id,
       json_field "issued_on"
         (create_invoice supplier_id invoice_no issued_on due_on
            amount_cents status po_id) = Some (JStr issued_on)
       ∧ json_field "due_on"
           (create_invoice supplier_id invoice_no issued_on due_on
              amount_cents status po_id) = Some (JStr due_on))
  ∧ (∀ invoice_id paid_on amount_cents method reference,
       json_field "paid_on"
         (create_payment invoice_id paid_on amount_cents method reference)
       = Some (JStr paid_on)).
Proof.
  split_and!.
  - intros. unfold json_field, create_employee. simpl. by lookup_key.
  - intros value dt HT Hdt. unfold _normalize_hired_on.
    rewrite decide_False by by apply (contains_nonempty "T").
    by rewrite HT, Hdt.
  - intros value d Hs HT Hd. unfold _normalize_hired_on.
    rewrite decide_False by done. by rewrite HT, Hd.
  - intros value H. unfold _normalize_hired_on.
    case_decide as Hs; [done|].
    destruct H as [H|[[HT H]|[HT H]]]; [done | by rewrite HT, H..].
  - intros. unfold json_field, create_invoice. simpl. split; by lookup_key.
  - intros. unfold json_field, create_payment. simpl. by lookup_key.
Qed.
End gateway.

Lemma only_hired_on_normalized_witness :
  mcp_server._normalize_hired_on mcp_server.iso_date mcp_server.iso_datetime
    " 2024-01-15T10:30:00Z" = "2024-01-15"
  ∧ mcp_server._normalize_hired_on mcp_server.iso_date mcp_server.iso_datetime
      "2024-1-15" = "2024-1-15"
  ∧ mcp_server._normalize_hired_on mcp_server.iso_date mcp_server.iso_datetime
      "2024-03-09" = "2024-03-09"
  ∧ mcp_server._normalize_hired_on mcp_server.iso_date mcp_server.iso_datetime
      "2024-01-15T25:00" = "2024-01-15T25:00".
Proof.
  destruct (only_hired_on_normalized mcp_server.iso_date mcp_server.iso_datetime)
    as (_ & HT & Hd & Hsoft & _).
  split_and!.
  - apply (HT " 2024-01-15T10:30:00Z" (mkdatetime (mkdate 2024 1 15) 10 30 0)); done.
  - apply Hsoft. right. right. done.
  - apply (Hd "2024-03-09" (mkdate 2024 3 9)); done.
  - apply Hsoft. right. left. done.
Defined.

(** C9, as stated, fails: [create_invoice] and [create_payment] send a
    datetime string as it is, where the normalization would have sent the
    date alone. *)
Lemma invoice_and_payment_dates_sent_raw :
  mcp_server._normalize_hired_on mcp_server.iso_date mcp_server.iso_datetime
    "2024-01-15T10:30:00" = "2024-01-15"
  ∧ mcp_server.json_field "issued_on"
      (mcp_server.create_invoice 1 "NF-1" "2024-01-15T10:30:00" "2024-02-15"
         100000 "OPEN" None)
    = Some (mcp_server.JStr "2024-01-15T10:30:00")
  ∧ mcp_server.json_field "paid_on"
      (mcp_server.create_payment 1 "2024-01-15T10:30:00" 100000 "PIX" None)
    = Some (mcp_server.JStr "2024-01-15T10:30:00").
Proof. by vm_compute. Qed.

(** C10. The tool [list_employees] called with [department_id = 0] sends the
    request it sends without [department_id]: the parameter is left out, and
    the API answers with the listing of all employees, not with the (empty)
    listing it gives for department 0.  With any other [department_id] the
    parameter is sent. *)
Theorem list_employees_department_0 :
  (∀ limit offset,
     mcp_server.list_employees limit offset (Some 0)
     = mcp_server.list_employees limit offset None
     ∧ mcp_server.query_param "department_id"
         (mcp_server.list_employees limit offset (Some 0)) = None)
  ∧ (∀ limit offset now db,
       handle now
         (mcp_server.GET_employees_of (mcp_server.list_employees limit offset (Some 0)))
         db
       = (outcome_map EmployeeOut_list
            (list_employees (Some (default 50 limit)) (Some (default 0 offset))
               None None db), db))
  ∧ (∀ limit offset department_id,
       department_id ≠ 0 →
       mcp_server.query_param "department_id"
         (mcp_server.list_employees limit offset (Some department_id))
       = Some (mcp_server.JInt department_id)
       ∧ mcp_server.GET_employees_of
           (mcp_server.list_employees limit offset (Some department_id))
         = GET_employees (Some (default 50 limit)) (Some (default 0 offset))
             (Some department_id) None)
  ∧ (handle 3
       (mcp_server.GET_employees_of (mcp_server.list_employees None None (Some 0)))
       db_staffed).1
    = Return (EmployeeOut_list
                [Employee.mk 1 1 "Ana Souza" "ana.souza@empresa.com"
                   "Analista Financeiro" 550000 (mkdate 2023 2 10) true 2])
  ∧ (handle 3 (GET_employees None None (Some 0) None) db_staffed).1
    = Return (EmployeeOut_list []).
Proof.
  split_and!; [..|done|done].
  - intros. split; [done|].
    unfold mcp_server.query_param, mcp_server.list_employees. simpl.
    by lookup_key.
  - intros. unfold mcp_server.GET_employees_of, mcp_server.query_int,
      mcp_server.query_bool, mcp_server.query_param, mcp_server.list_employees.
    simpl. by lookup_key.
  - intros limit offset d Hd.
    unfold mcp_server.GET_employees_of, mcp_server.query_int,
      mcp_server.query_bool, mcp_server.query_param, mcp_server.list_employees.
    simpl. rewrite bool_decide_true by done. simpl. by lookup_key.
Qed.

Lemma list_employees_department_0_witness :
  mcp_server.query_param "department_id"
    (mcp_server.list_employees None None (Some 1)) = Some (mcp_server.JInt 1)
  ∧ (handle 3
       (mcp_server.GET_employees_of (mcp_server.list_employees None None (Some 0)))
       db_staffed).1
    = Return (EmployeeOut_list
                [Employee.mk 1 1 "Ana Souza" "ana.souza@empresa.com"
                   "Analista Financeiro" 550000 (mkdate 2023 2 10) true 2])
  ∧ (handle 3 (GET_employees None None (Some 0) None) db_staffed).1
    = Return (EmployeeOut_list []).
Proof.
  destruct list_employees_department_0 as (_ & H0 & Hd & _).
  split_and!.
  - apply (Hd None None 1). lia.
  - rewrite H0. done.
  - done.
Defined.

(** * More of the API *)

(** ** Reading back what was written *)

Lemma get_snoc_fresh {A} (pk : A → Z) (l : list A) (x : A) :
  Forall (λ y, pk y ≠ pk x) l → get pk (l ++ [x]) (pk x) = Some x.
Proof.
  intros Hfresh. unfold get. rewrite filter_app.
  assert (filter (λ r, pk r = pk x) l = []) as ->.
  { apply (get_None pk) in Hfresh. unfold get in Hfresh.
    by apply head_None in Hfresh. }
  simpl. by rewrite filter_cons, decide_True.
Qed.

(** X1. A record that a [POST] has returned is the record that
    [GET /{entity}/{id}] returns for its identifier right afterwards. *)
Theorem created_then_read now now' req db body db' :
  is_POST req = true →
  handle now req db = (Return body, db') →
  ∃ get_req,
    GET_created body = Some get_req
    ∧ handle now' get_req db' = (Return body, db').
Proof.
  intros Hpost.
  match goal with |- _ → ?G => set (P := G) end.
  destruct req; try discriminate Hpost; clear Hpost;
    handler_cases; intros [= <- <-]; subst P; eexists; (split; [done|]);
    unfold handle, get_department, get_employee, get_supplier, get_po,
      get_invoice, get_payment; cbn.
  - rewrite (get_snoc_fresh Department.id); [done|].
    by apply departments_constraints_pk in Hdec.
  - rewrite (get_snoc_fresh Employee.id); [done|].
    by apply employees_constraints_pk in Hdec.
  - rewrite (get_snoc_fresh Supplier.id); [done|].
    by apply suppliers_constraints_pk in Hdec.
  - rewrite (get_snoc_fresh PurchaseOrder.id); [done|].
    by apply purchase_orders_constraints_pk in Hdec.
  - rewrite (get_snoc_fresh Invoice.id); [done|].
    by apply invoices_constraints_pk in Hdec.
  - rewrite (get_snoc_fresh Payment.id); [done|].
    by apply payments_constraints_pk in Hdec.
Qed.

Lemma created_then_read_witness :
  ∃ get_req,
    GET_created (InvoiceOut (Invoice.mk 1 1 (Some 1) "NF-7" jan15 jan15 125000 "OPEN" 5))
    = Some get_req
    ∧ handle 9 get_req db_ordered
      = (Return (InvoiceOut (Invoice.mk 1 1 (Some 1) "NF-7" jan15 jan15 125000 "OPEN" 5)),
         db_ordered).
Proof.
  apply (created_then_read 5 9 (POST_invoices invoice_for_po)
           (run [(3, POST_suppliers acme); (4, POST_purchase_orders (po_draft 1))]
              db_staffed)); reflexivity.
Defined.

(** X2. Once [DELETE /{entity}/{id}] has succeeded, [GET /{entity}/{id}] and
    a second [DELETE /{entity}/{id}] are both answered with 404, and the
    second deletion leaves the store as it is. *)
Theorem deleted_then_gone now now' req db body db' :
  is_Some (GET_deleted req) →
  handle now req db = (Return body, db') →
  ∃ get_req detail,
    GET_deleted req = Some get_req
    ∧ handle now' get_req db' = (Raise (HTTPException 404 detail), db')
    ∧ handle now' req db' = (Raise (HTTPException 404 detail), db').
Proof.
  intros [g Hg].
  match goal with |- _ → ?G => set (P := G) end.
  destruct req; try discriminate Hg; clear g Hg;
    handler_cases; intros [= Hb Hd]; subst P body db';
    apply get_Some in Hget as [<- _];
    eexists _, _; (split; [done|]);
    unfold handle, with_body, get_department, get_employee, get_supplier,
      get_po, get_invoice, get_payment, delete_department, delete_employee,
      delete_supplier, delete_po, delete_invoice, delete_payment,
      commit_delete_po, commit_delete_invoice, commit_delete_payment;
    cbn; by rewrite get_filter_eq.
Qed.

Lemma deleted_then_gone_witness :
  ∃ get_req detail,
    GET_deleted (DELETE_invoices_id 1) = Some get_req
    ∧ handle 9 get_req (handle 6 (DELETE_invoices_id 1) db_ordered).2
      = (Raise (HTTPException 404 detail), (handle 6 (DELETE_invoices_id 1) db_ordered).2)
    ∧ handle 9 (DELETE_invoices_id 1) (handle 6 (DELETE_invoices_id 1) db_ordered).2
      = (Raise (HTTPException 404 detail), (handle 6 (DELETE_invoices_id 1) db_ordered).2).
Proof.
  apply (deleted_then_gone 6 9 (DELETE_invoices_id 1) db_ordered NoContent);
    [by eexists | reflexivity].
Defined.

(** ** Listings, page by page *)

Lemma Query_in_bounds dflt lo hi v :
  lo ≤ default dflt v → (∀ h, hi = Some h → default dflt v ≤ h) →
  Query dflt lo hi v = Return (default dflt v).
Proof.
  intros Hlo Hhi. unfold Query. rewrite decide_True by done.
  destruct hi as [h|]; [|done]. by rewrite decide_True by auto.
Qed.

Lemma Query_out_of_bounds dflt lo hi v :
  ¬ (lo ≤ default dflt v ∧ ∀ h, hi = Some h → default dflt v ≤ h) →
  Query dflt lo hi v = Raise RequestValidationError.
Proof.
  intros Hout. unfold Query. case_decide as Hlo; [|done].
  destruct hi as [h|].
  - case_decide as Hhi; [|done]. destruct Hout. split; [done|]. by intros ? [= <-].
  - destruct Hout. split; [done|]. done.
Qed.

Lemma paginate_answer {A} (pk : A → Z) limit offset binds (q : list A) :
  paginate pk limit offset binds q
  = if decide (1 ≤ default 50 limit ≤ 200 ∧ 0 ≤ default 0 offset)
    then
      if decide (Forall no_NUL binds) then
        if decide (default 0 offset ≤ int8_max)
        then Return (offset_limit (default 0 offset) (default 50 limit)
                       (order_by pk q))
        else Raise DataError
      else Raise ValueError
    else Raise RequestValidationError.
Proof.
  unfold paginate, Query_limit, Query_offset.
  destruct (decide (1 ≤ default 50 limit ≤ 200 ∧ 0 ≤ default 0 offset)) as [Hb|Hb].
  - rewrite !Query_in_bounds; [done | lia | done | lia |].
    intros ? [= <-]. lia.
  - destruct (decide (1 ≤ default 50 limit ≤ 200)) as [Hl|Hl].
    + rewrite (Query_in_bounds 50); [|lia|intros ? [= <-]; lia].
      rewrite Query_out_of_bounds; [done|]. intros [? _]. lia.
    + rewrite Query_out_of_bounds; [done|]. intros [? H200].
      specialize (H200 _ eq_refl). lia.
Qed.

(** X3. How a listing is answered, whatever the store.  When [limit] (50
    when left out) is not between 1 and 200 or [offset] (0 when left out)
    is negative, it is refused as a request validation error (422).
    Otherwise, when the status it filters on holds a NUL character, the
    driver raises [ValueError]; otherwise, when [offset] is beyond 64 bits,
    the store raises [DataError]; otherwise it is answered with a list. *)
Theorem listing_answered_iff now req db limit offset :
  listing req = Some (limit, offset) →
  let in_bounds := 1 ≤ default 50 limit ≤ 200 ∧ 0 ≤ default 0 offset in
  (¬ in_bounds → handle now req db = (Raise RequestValidationError, db))
  ∧ (in_bounds → ¬ Forall no_NUL (listing_binds req) →
     handle now req db = (Raise ValueError, db))
  ∧ (in_bounds → Forall no_NUL (listing_binds req) →
     int8_max < default 0 offset →
     handle now req db = (Raise DataError, db))
  ∧ (in_bounds → Forall no_NUL (listing_binds req) →
     default 0 offset ≤ int8_max →
     ∃ body, handle now req db = (Return body, db) ∧ is_Some (listed_ids body)).
Proof.
  intros Hreq in_bounds. subst in_bounds.
  destruct req; try discriminate Hreq; simpl in Hreq; inversion Hreq; subst;
    unfold handle, list_departments, list_employees, list_suppliers, list_pos,
      list_invoices, list_payments, listing_binds; rewrite paginate_answer;
    split_and!; intros;
    repeat match goal with
    | H : ?P |- context [decide ?P] => rewrite (decide_True (P:=P)) by exact H
    | H : ¬ ?P |- context [decide ?P] => rewrite (decide_False (P:=P)) by exact H
    | H : ?a < ?b |- context [decide (?b ≤ ?a)] =>
      rewrite (decide_False (P:=b ≤ a)) by lia
    end;
    try done; simpl; eexists; (split; [done|]); by eexists.
Qed.

Lemma listing_answered_iff_witness :
  (∃ body, handle 9 (GET_invoices (Some 200) None (Some "OPEN") None) db_ordered
           = (Return body, db_ordered) ∧ is_Some (listed_ids body))
  ∧ handle 9 (GET_invoices (Some 201) None (Some "OPEN") None) db_ordered
    = (Raise RequestValidationError, db_ordered)
  ∧ handle 9 (GET_payments None (Some (-1)) None) db_ordered
    = (Raise RequestValidationError, db_ordered)
  ∧ handle 9 (GET_payments None (Some 9223372036854775808) None) db_ordered
    = (Raise DataError, db_ordered)
  ∧ handle 9 (GET_purchase_orders None None (Some (String Ascii.zero "SENT")))
      db_ordered
    = (Raise ValueError, db_ordered).
Proof.
  split_and!.
  - apply (listing_answered_iff 9 (GET_invoices (Some 200) None (Some "OPEN") None)
             db_ordered (Some 200) None eq_refl);
      [simpl; lia | by_evaluation | by vm_compute].
  - apply (listing_answered_iff 9 (GET_invoices (Some 201) None (Some "OPEN") None)
             db_ordered (Some 201) None eq_refl). simpl. lia.
  - apply (listing_answered_iff 9 (GET_payments None (Some (-1)) None)
             db_ordered None (Some (-1)) eq_refl). simpl. lia.
  - apply (listing_answered_iff 9 (GET_payments None (Some 9223372036854775808) None)
             db_ordered None (Some 9223372036854775808) eq_refl);
      [simpl; lia | by_evaluation | by vm_compute].
  - apply (listing_answered_iff 9
             (GET_purchase_orders None None (Some (String Ascii.zero "SENT")))
             db_ordered None None eq_refl); [simpl; lia|].
    intros H. apply (bool_decide_pack _) in H. by vm_compute in H.
Defined.

Lemma offset_limit_app {A} (o n m : Z) (l : list A) :
  0 ≤ o → 0 ≤ n → 0 ≤ m →
  offset_limit o (n + m) l = offset_limit o n l ++ offset_limit (o + n) m l.
Proof.
  intros Ho Hn Hm. unfold offset_limit.
  rewrite !Z2Nat.inj_add by done.
  rewrite <- drop_drop. generalize (drop (Z.to_nat o) l). intros k.
  generalize (Z.to_nat n). clear. intros a. revert k.
  induction a as [|a IH]; intros [|x k]; simpl; try done.
  - by rewrite take_nil.
  - by rewrite IH.
Qed.

(** X4. Consecutive pages of a listing tile it: the page of [n] records
    after [offset] followed by the page of [m] records after [offset + n]
    is the page of [n + m] records after [offset], for the same filters and
    the same store, with nothing lost and nothing repeated. *)
Theorem pages_tile now req db n m offset body1 body2 :
  is_Some (listing req) →
  n + m ≤ 200 →
  handle now (with_page (Some n) (Some offset) req) db = (Return body1, db) →
  handle now (with_page (Some m) (Some (offset + n)) req) db = (Return body2, db) →
  ∃ body,
    response_app body1 body2 = Some body
    ∧ handle now (with_page (Some (n + m)) (Some offset) req) db = (Return body, db).
Proof.
  intros [p Hp] Hnm.
  destruct req; try discriminate Hp; clear p Hp; simpl;
    unfold list_departments, list_employees, list_suppliers, list_pos,
      list_invoices, list_payments; rewrite !paginate_answer; simpl;
    repeat case_decide; try done; intros [= <-] [= <-];
    unfold int8_max in *; try lia;
    (eexists; split; [done|]); by rewrite offset_limit_app by lia.
Qed.

Lemma pages_tile_witness :
  ∃ body,
    response_app (PaymentOut_list [Payment.mk 1 1 jan15 30000 "PIX" None 3])
                 (PaymentOut_list [Payment.mk 2 1 jan15 70000 "PIX" None 4]) = Some body
    ∧ handle 9 (with_page (Some (1 + 1)) (Some 0) (GET_payments None None (Some 1)))
        db_settled = (Return body, db_settled).
Proof.
  apply (pages_tile 9 (GET_payments None None (Some 1)) db_settled 1 1 0);
    [by eexists | lia | reflexivity | reflexivity].
Defined.

(** ** What a listing holds *)

Lemma elem_of_filter_is_not_None {A B} `{EqDecision B}
    (col : A → B) (v : option B) (q : list A) x :
  x ∈ filter_is_not_None col v q ↔ x ∈ q ∧ exact v (col x).
Proof.
  unfold filter_is_not_None, exact. destruct v as [b|].
  - rewrite list_elem_of_filter. split.
    + intros [Hx ?]. split; [done|]. by intros ? [= <-].
    + intros [? Hx]. split; [by apply Hx | done].
  - split; [intros; split; [done|]; by intros ? [=] | tauto].
Qed.

Lemma elem_of_filter_if_truthy {A}
    (col : A → string) (v : option string) (q : list A) x :
  x ∈ filter_if_truthy col v q ↔ x ∈ q ∧ exact_nonempty v (col x).
Proof.
  unfold filter_if_truthy, exact_nonempty. destruct v as [s|].
  - case_decide as Hs.
    + split; [intros; split; [done|]; intros ? [= <-]; done | tauto].
    + rewrite list_elem_of_filter. split.
      * intros [Hx ?]. split; [done|]. by intros ? [= <-].
      * intros [? Hx]. split; [by apply Hx | done].
  - split; [intros; split; [done|]; by intros ? [=] | tauto].
Qed.

Lemma elem_of_page {A} (pk : A → Z) limit offset binds (q l : list A) x :
  paginate pk limit offset binds q = Return l → x ∈ l → x ∈ q.
Proof. intros Hl Hx. apply paginate_Return in Hl as (_ & _ & _ & _ & _ & Hsub & _). by apply Hsub. Qed.

Lemma short_page_complete {A} (pk : A → Z) limit offset binds (q l : list A) x :
  default 0 offset = 0 →
  paginate pk limit offset binds q = Return l →
  (length l < Z.to_nat (default 50%Z limit))%nat →
  x ∈ q → x ∈ l.
Proof.
  intros Ho Hl Hshort Hx. apply paginate_Return in Hl as (_ & _ & -> & _).
  rewrite Ho in *. unfold offset_limit in *. simpl in *. rewrite drop_0 in *.
  rewrite length_take in Hshort.
  rewrite take_ge by lia. by rewrite order_by_Permutation.
Qed.

(** X5. Every record of an answered listing is a stored record of the
    listed entity that passes each filter given (a filter left out, or an
    empty [status], lets everything pass); and when the first page
    ([offset] 0, given or left out) comes back with fewer than [limit]
    records, it holds every such record of the store. *)
Theorem listing_selects now req db limit offset body db' :
  listing req = Some (limit, offset) →
  handle now req db = (Return body, db') →
  (∀ r, r ∈ records_of body → stored db r ∧ selected req r)
  ∧ (default 0 offset = 0 →
     (length (records_of body) < Z.to_nat (default 50%Z limit))%nat →
     ∀ r, stored db r → selected req r → r ∈ records_of body).
Proof.
  intros Hreq.
  destruct req; try discriminate Hreq; simpl in Hreq; inversion Hreq; subst; clear Hreq;
    unfold handle, list_departments, list_employees, list_suppliers, list_pos,
      list_invoices, list_payments;
    match goal with
    | |- (outcome_map _ ?o, _) = _ → _ => destruct o as [l|] eqn:Hl; [|done]
    end; intros [= <- <-]; simpl; split.
  all: try (intros r (x & -> & Hx)%list_elem_of_fmap;
            pose proof (elem_of_page _ _ _ _ _ _ _ Hl Hx) as Hq; simpl;
            rewrite ?elem_of_filter_is_not_None, ?elem_of_filter_if_truthy in Hq;
            tauto).
  all: intros Ho Hshort r Hst Hsel; rewrite length_fmap in Hshort;
    destruct r; try done; simpl in Hst, Hsel;
    apply list_elem_of_fmap_2;
    apply (short_page_complete _ _ _ _ _ _ _ Ho Hl Hshort);
    rewrite ?elem_of_filter_is_not_None, ?elem_of_filter_if_truthy; tauto.
Qed.

Lemma listing_selects_witness :
  (∀ r, r ∈ records_of (PaymentOut_list [Payment.mk 1 1 jan15 30000 "PIX" None 3;
                                         Payment.mk 2 1 jan15 70000 "PIX" None 4]) →
        stored db_settled r ∧ selected (GET_payments None None (Some 1)) r)
  ∧ (∀ r, stored db_settled r → selected (GET_payments None None (Some 1)) r →
          r ∈ records_of (PaymentOut_list [Payment.mk 1 1 jan15 30000 "PIX" None 3;
                                           Payment.mk 2 1 jan15 70000 "PIX" None 4])).
Proof.
  destruct (listing_selects 9 (GET_payments None None (Some 1)) db_settled
              None None
              (PaymentOut_list [Payment.mk 1 1 jan15 30000 "PIX" None 3;
                                Payment.mk 2 1 jan15 70000 "PIX" None 4])
              db_settled eq_refl eq_refl) as [Hin Hall].
  split; [exact Hin | apply Hall; [reflexivity | simpl; lia]].
Defined.

(** ** What the schema promises of the stored rows *)

Section foreign_keys.
Context {C P : Type} (fk : C → Z) (pk : P → Z).

Lemma fk_parent_snoc (cs : list C) (ps : list P) (p : P) :
  Forall (λ c, fk c ∈ pk <$> ps) cs → Forall (λ c, fk c ∈ pk <$> (ps ++ [p])) cs.
Proof.
  intros H. eapply Forall_impl; [exact H|]. simpl. intros c Hc.
  rewrite fmap_app. apply elem_of_app. by left.
Qed.

Lemma fk_parent_filter (cs : list C) (ps : list P) k :
  Forall (λ c, fk c ≠ k) cs →
  Forall (λ c, fk c ∈ pk <$> ps) cs →
  Forall (λ c, fk c ∈ pk <$> filter (λ p, pk p ≠ k) ps) cs.
Proof.
  rewrite !Forall_forall. intros Hne Hin c Hc.
  specialize (Hne c Hc). specialize (Hin c Hc).
  apply list_elem_of_fmap in Hin as (p & Hp & Hin). apply list_elem_of_fmap.
  exists p. split; [done|]. apply list_elem_of_filter. split; [congruence | done].
Qed.

Lemma fk_cascade (cs : list C) (ps : list P) k :
  Forall (λ c, fk c ∈ pk <$> ps) cs →
  Forall (λ c, fk c ∈ pk <$> filter (λ p, pk p ≠ k) ps)
         (filter (λ c, fk c ≠ k) cs).
Proof.
  intros H. apply fk_parent_filter.
  - apply Forall_forall. intros c Hc. apply list_elem_of_filter in Hc. tauto.
  - by apply Forall_filter.
Qed.

Lemma fk_parent_fmap (cs : list C) (ps : list P) (g : P → P) :
  (∀ p, pk (g p) = pk p) →
  Forall (λ c, fk c ∈ pk <$> ps) cs → Forall (λ c, fk c ∈ pk <$> (g <$> ps)) cs.
Proof. intros Hg. by rewrite fmap_id_preserved. Qed.

Lemma fk_child_fmap (cs : list C) (ps : list P) (g : C → C) :
  (∀ c, fk (g c) = fk c) →
  Forall (λ c, fk c ∈ pk <$> ps) cs → Forall (λ c, fk c ∈ pk <$> ps) (g <$> cs).
Proof.
  intros Hg H. apply Forall_fmap. eapply Forall_impl; [exact H|].
  simpl. intros c. by rewrite Hg.
Qed.

Lemma Exists_pk_elem (ps : list P) k : Exists (λ p, pk p = k) ps → k ∈ pk <$> ps.
Proof.
  intros (p & Hp & <-)%Exists_exists. by apply list_elem_of_fmap_2.
Qed.

Lemma get_pk_elem (ps : list P) k p : get pk ps k = Some p → k ∈ pk <$> ps.
Proof. intros [<- Hp]%get_Some. by apply list_elem_of_fmap_2. Qed.
End foreign_keys.

Lemma detach_po_supplier_id k i :
  Invoice.supplier_id (detach_po k i) = Invoice.supplier_id i.
Proof. unfold detach_po. by case_decide. Qed.

Lemma detach_po_invoice_no k i :
  Invoice.invoice_no (detach_po k i) = Invoice.invoice_no i.
Proof. unfold detach_po. by case_decide. Qed.

Lemma set_status_if_supplier_id k s i :
  Invoice.supplier_id (if decide (Invoice.id i = k) then Invoice.set_status s i else i)
  = Invoice.supplier_id i.
Proof. by case_decide. Qed.

Lemma set_status_if_po_id k s i :
  Invoice.po_id (if decide (Invoice.id i = k) then Invoice.set_status s i else i)
  = Invoice.po_id i.
Proof. by case_decide. Qed.

Lemma fk_invoices_po_delete k (invs : list Invoice.t) (ps : list PurchaseOrder.t) :
  Forall (λ i, ∀ k', Invoice.po_id i = Some k' → k' ∈ PurchaseOrder.id <$> ps) invs →
  Forall (λ i, ∀ k', Invoice.po_id i = Some k' →
               k' ∈ PurchaseOrder.id <$> filter (λ p, PurchaseOrder.id p ≠ k) ps)
         (detach_po k <$> invs).
Proof.
  intros H. apply Forall_fmap. eapply Forall_impl; [exact H|]. simpl.
  intros i Hi k'. unfold detach_po. case_decide as Hk; [done|].
  intros Hpo. specialize (Hi k' Hpo).
  apply list_elem_of_fmap in Hi as (p & -> & Hp). apply list_elem_of_fmap_2.
  apply list_elem_of_filter. split; [congruence | done].
Qed.

Lemma references_resolve_handle now req db :
  references_resolve (rows db) → references_resolve (rows (handle now req db).2).
Proof.
  intros [H1 H2 H3 H4 H5 H6 H7].
  destruct req; handler_cases; try (split; assumption);
    split; rows_cbn; try assumption.
  all: try (apply fk_parent_snoc; assumption).
  all: try (apply Forall_filter; assumption).
  all: try (apply fk_cascade; assumption).
  all: try (apply fk_parent_filter; [tauto | assumption]).
  all: try (apply fk_invoices_po_delete; assumption).
  all: try (apply Forall_snoc; [assumption|]; simpl;
            first [ by eapply get_pk_elem
                  | apply Exists_pk_elem; tauto ]).
  - eapply Forall_impl; [exact H6|]. simpl. intros i Hi k Hk.
    rewrite fmap_app. apply elem_of_app. left. by apply Hi.
  - apply (fk_child_fmap Invoice.supplier_id Supplier.id);
      [apply detach_po_supplier_id | assumption].
  - apply (fk_parent_fmap Payment.invoice_id Invoice.id);
      [apply detach_po_id | assumption].
  - apply Forall_snoc; [assumption|]. simpl. intros k Hk.
    destruct Hdec as (_ & _ & Hpo' & _). simpl in Hpo'. rewrite Hk in Hpo'.
    by apply Exists_pk_elem.
  - apply (fk_child_fmap Invoice.supplier_id Supplier.id);
      [apply set_status_if_supplier_id | assumption].
  - apply Forall_fmap. eapply Forall_impl; [exact H6|]. simpl.
    intros i Hi k. rewrite set_status_if_po_id. apply Hi.
  - rewrite fmap_id_preserved by apply set_status_if_id.
    apply Forall_snoc; [assumption|]. simpl. by eapply get_pk_elem.
Qed.

Lemma reachable_rows (P : Rows → Prop) :
  P (rows empty_db) →
  (∀ now req db, P (rows db) → P (rows (handle now req db).2)) →
  ∀ db, reachable db → P (rows db).
Proof. intros H0 Hstep. by apply (reachable_invariant (λ db, P (rows db))). Qed.

(** X6. In every store reached by serving requests, every foreign key
    resolves: each employee has its department, each purchase order its
    supplier, requester and department, each invoice its supplier and, when
    it names one, its purchase order, and each payment its invoice. *)
Theorem references_always_resolve db :
  reachable db → references_resolve (rows db).
Proof.
  apply reachable_rows; [by split; constructor|].
  intros. by apply references_resolve_handle.
Qed.

Lemma references_always_resolve_witness : references_resolve (rows db_ordered).
Proof.
  apply references_always_resolve.
  exists [(1, POST_departments financeiro); (2, POST_employees ana);
          (3, POST_suppliers acme); (4, POST_purchase_orders (po_draft 1));
          (5, POST_invoices invoice_for_po)].
  reflexivity.
Defined.

Section unique_columns.
Context {A B : Type} (f : A → B).

Lemma NoDup_column_snoc (l : list A) (x : A) :
  NoDup (f <$> l) → Forall (λ y, f y ≠ f x) l → NoDup (f <$> (l ++ [x])).
Proof.
  intros Hl Hx. rewrite fmap_app. apply NoDup_app.
  split_and!; [done | | apply NoDup_singleton].
  intros k Hk Hk'. apply list_elem_of_fmap in Hk as (y & -> & Hy).
  apply list_elem_of_singleton in Hk'. rewrite Forall_forall in Hx. by apply (Hx y).
Qed.

Lemma NoDup_column_filter (P : A → Prop) `{∀ x, Decision (P x)} (l : list A) :
  NoDup (f <$> l) → NoDup (f <$> filter P l).
Proof.
  intros Hl. eapply sublist_NoDup; [exact Hl|].
  apply fmap_sublist, sublist_filter.
Qed.

Lemma NoDup_column_fmap (g : A → A) (l : list A) :
  (∀ x, f (g x) = f x) → NoDup (f <$> l) → NoDup (f <$> (g <$> l)).
Proof.
  intros Hg. rewrite <- list_fmap_compose.
  by rewrite (list_fmap_ext (f ∘ g) f l) by (intros; apply Hg).
Qed.
End unique_columns.

Lemma supplier_invoice_detach_po k i :
  supplier_invoice (detach_po k i) = supplier_invoice i.
Proof. unfold supplier_invoice. by rewrite detach_po_supplier_id, detach_po_invoice_no. Qed.

Lemma supplier_invoice_set_status_if k s i :
  supplier_invoice (if decide (Invoice.id i = k) then Invoice.set_status s i else i)
  = supplier_invoice i.
Proof. by case_decide. Qed.

Lemma uniques_hold_handle now req db :
  uniques_hold (rows db) → uniques_hold (rows (handle now req db).2).
Proof.
  intros [H1 H2 H3 H4 H5 H6].
  destruct req; handler_cases; try (split; assumption);
    split; rows_cbn; try assumption.
  all: try (apply NoDup_column_filter; assumption).
  all: try (apply NoDup_column_fmap;
            [first [apply supplier_invoice_detach_po
                   | apply supplier_invoice_set_status_if] | assumption]).
  all: apply NoDup_column_snoc; [assumption|].
  all: first [ destruct Hdec as [Hall _] | pose proof Hdec as Hall ];
    (eapply Forall_impl; [exact Hall|]); simpl; try tauto.
  intros i [_ Hi] [= ? ?]. tauto.
Qed.

(** X7. In every store reached by serving requests, the values declared
    unique are unique: department names and cost centers, employee emails,
    supplier names and tax ids, and the invoice number within a supplier. *)
Theorem uniques_always_hold db : reachable db → uniques_hold (rows db).
Proof.
  apply reachable_rows; [by split; constructor|].
  intros. by apply uniques_hold_handle.
Qed.

Lemma uniques_always_hold_witness :
  uniques_hold (rows db_busy)
  ∧ length (departments (rows db_busy)) = 2%nat
  ∧ length (employees (rows db_busy)) = 2%nat
  ∧ length (invoices (rows db_busy)) = 2%nat.
Proof.
  split; [|by vm_compute].
  apply uniques_always_hold. by eexists.
Defined.

Lemma inv_status_check_PAID : inv_status_check "PAID".
Proof. unfold inv_status_check. right. left. Qed.

Lemma checks_hold_handle now req db :
  checks_hold (rows db) → checks_hold (rows (handle now req db).2).
Proof.
  intros [H1 H2 H3 H4 H5 H6].
  destruct req; handler_cases; try (split; assumption);
    split; rows_cbn; try assumption.
  all: try (apply Forall_filter; assumption).
  all: try (apply Forall_snoc; [assumption|]; simpl; unfold
              purchase_orders_constraints, invoices_constraints,
              payments_constraints in Hdec; simpl in Hdec; tauto).
  all: apply Forall_fmap_preserved; try assumption; intros i Hi.
  all: rewrite ?detach_po_status, ?detach_po_amount_cents,
         ?set_status_if_amount_cents; try done.
  case_decide; [apply inv_status_check_PAID | done].
Qed.

(** X8. In every store reached by serving requests, every stored row passes
    the checks of its table: a purchase order has one of the five statuses
    and a total that is not negative, an invoice one of the four statuses
    and an amount that is not negative, a payment one of the five methods
    and a positive amount. *)
Theorem checks_always_hold db : reachable db → checks_hold (rows db).
Proof.
  apply reachable_rows; [by split; constructor|].
  intros. by apply checks_hold_handle.
Qed.

Lemma checks_always_hold_witness : checks_hold (rows db_settled).
Proof.
  apply checks_always_hold.
  exists [(1, POST_suppliers acme); (2, POST_invoices (invoice_100000 "OPEN"));
          (3, POST_payments (pix 30000)); (4, POST_payments (pix 70000))].
  reflexivity.
Defined.

(** ** Identifiers *)

Lemma stored_id_issued db r :
  ids_issued db → stored db r → 0 < record_id r ≤ last_value (entity_of r) db.
Proof.
  intros [H1 H2 H3 H4 H5 H6 _] Hr.
  destruct r; simpl in *;
    match goal with
    | H : Forall _ ?l, Hx : _ ∈ ?l |- _ => rewrite Forall_forall in H; apply (H _ Hx)
    end.
Qed.

Lemma last_value_handle now req db e :
  last_value e db ≤ last_value e (handle now req db).2.
Proof.
  destruct req; handler_cases; destruct e; simpl; unfold nextval; lia.
Qed.

Lemma last_value_run trace db e : last_value e db ≤ last_value e (run trace db).
Proof.
  revert db. induction trace as [|[now req] trace IH]; intros db; simpl; [lia|].
  etrans; [apply (last_value_handle now req)|apply IH].
Qed.

Lemma created_id_drawn now req db body db' r :
  is_POST req = true →
  handle now req db = (Return body, db') →
  r ∈ records_of body →
  last_value (entity_of r) db < record_id r.
Proof.
  intros Hpost. destruct req; try discriminate Hpost; clear Hpost;
    handler_cases; intros [= <- <-] ->%list_elem_of_singleton;
    simpl; unfold nextval; lia.
Qed.

(** X9. Identifiers are never reused.  In a store reached by serving
    requests every stored identifier is positive, and a record created by
    any later [POST], after any further requests, gets an identifier above
    that of every record of its entity that was stored before, whether that
    record is still stored or has been deleted since. *)
Theorem identifiers_never_reused db r trace now req body db' r' :
  reachable db →
  stored db r →
  is_POST req = true →
  handle now req (run trace db) = (Return body, db') →
  r' ∈ records_of body →
  entity_of r' = entity_of r →
  0 < record_id r < record_id r'.
Proof.
  intros Hreach Hr Hpost Hrun Hr' He.
  pose proof (stored_id_issued db r (reachable_ids_issued db Hreach) Hr) as [H0 Hle].
  pose proof (created_id_drawn _ _ _ _ _ _ Hpost Hrun Hr') as Hlt.
  pose proof (last_value_run trace db (entity_of r)) as Hmono.
  rewrite He in Hlt. lia.
Qed.

Lemma identifiers_never_reused_witness :
  0 < record_id (R_payment (Payment.mk 2 1 jan15 70000 "PIX" None 4))
    < record_id (R_payment (Payment.mk 3 1 jan15 500 "PIX" None 9)).
Proof.
  apply (identifiers_never_reused db_settled
           (R_payment (Payment.mk 2 1 jan15 70000 "PIX" None 4))
           [(7, DELETE_payments_id 2); (8, DELETE_payments_id 1)]
           9 (POST_payments (pix 500))
           (PaymentOut (Payment.mk 3 1 jan15 500 "PIX" None 9))
           (handle 9 (POST_payments (pix 500))
              (run [(7, DELETE_payments_id 2); (8, DELETE_payments_id 1)] db_settled)).2).
  - exists [(1, POST_suppliers acme); (2, POST_invoices (invoice_100000 "OPEN"));
            (3, POST_payments (pix 30000)); (4, POST_payments (pix 70000))].
    reflexivity.
  - simpl. vm_compute. right. left.
  - reflexivity.
  - reflexivity.
  - simpl. left.
  - reflexivity.
Defined.

(** ** When a [POST] is accepted *)

Lemma pk_fresh {A} (pk : A → Z) (l : list A) last :
  Forall (λ x, 0 < pk x ≤ last) l → Forall (λ x, pk x ≠ nextval last) l.
Proof. intros H. eapply Forall_impl; [exact H|]. unfold nextval. simpl. intros; lia. Qed.

Lemma not_elem_of_column {A B} (f : A → B) (l : list A) b :
  (b ∉ f <$> l) ↔ Forall (λ x, f x ≠ b) l.
Proof.
  rewrite Forall_forall. split.
  - intros Hb x Hx <-. apply Hb. by apply list_elem_of_fmap_2.
  - intros Hall (x & -> & Hx)%list_elem_of_fmap. by apply (Hall x).
Qed.

Lemma elem_of_pk_get {A} (pk : A → Z) (l : list A) k :
  k ∈ pk <$> l ↔ is_Some (get pk l k).
Proof.
  rewrite get_is_Some, Exists_exists. split.
  - intros (x & -> & Hx)%list_elem_of_fmap. by exists x.
  - intros (x & Hx & <-). by apply list_elem_of_fmap_2.
Qed.

Lemma departments_constraints_iff db now p :
  ids_issued db →
  departments_constraints (rows db)
    (Department.mk (nextval (departments_id_seq (seqs db)))
       (DepartmentCreate.name p) (DepartmentCreate.cost_center p) now)
  ↔ acceptable (POST_departments p) db.
Proof.
  intros Hids. unfold departments_constraints, acceptable. simpl.
  rewrite !not_elem_of_column, !Forall_and.
  pose proof (pk_fresh _ _ _ (ids_departments _ Hids)). tauto.
Qed.

Lemma employees_constraints_iff db now p :
  ids_issued db →
  employees_constraints (rows db)
    (Employee.mk (nextval (employees_id_seq (seqs db)))
       (EmployeeCreate.department_id p) (EmployeeCreate.full_name p)
       (EmployeeCreate.email p) (EmployeeCreate.role p)
       (EmployeeCreate.salary_cents p) (EmployeeCreate.hired_on p)
       (EmployeeCreate.active p) now)
  ↔ acceptable (POST_employees p) db.
Proof.
  intros Hids. unfold employees_constraints, acceptable. simpl.
  rewrite !not_elem_of_column, !Forall_and, elem_of_pk_get, get_is_Some.
  pose proof (pk_fresh _ _ _ (ids_employees _ Hids)). tauto.
Qed.

Lemma suppliers_constraints_iff db now p :
  ids_issued db →
  suppliers_constraints (rows db)
    (Supplier.mk (nextval (suppliers_id_seq (seqs db)))
       (SupplierCreate.name p) (SupplierCreate.tax_id p)
       (SupplierCreate.email p) (SupplierCreate.phone p) now)
  ↔ acceptable (POST_suppliers p) db.
Proof.
  intros Hids. unfold suppliers_constraints, acceptable. simpl.
  rewrite !not_elem_of_column, !Forall_and.
  pose proof (pk_fresh _ _ _ (ids_suppliers _ Hids)). tauto.
Qed.

Lemma purchase_orders_constraints_iff db now p :
  ids_issued db →
  purchase_orders_constraints (rows db)
    (PurchaseOrder.mk (nextval (purchase_orders_id_seq (seqs db)))
       (POCreate.supplier_id p) (POCreate.requested_by p)
       (POCreate.department_id p) (POCreate.status p)
       (POCreate.total_cents p) now)
  ↔ acceptable (POST_purchase_orders p) db.
Proof.
  intros Hids. unfold purchase_orders_constraints, acceptable. simpl.
  rewrite !elem_of_pk_get, !get_is_Some.
  pose proof (pk_fresh _ _ _ (ids_purchase_orders _ Hids)). tauto.
Qed.

Lemma invoices_constraints_iff db now p :
  ids_issued db →
  invoices_constraints (rows db)
    (Invoice.mk (nextval (invoices_id_seq (seqs db)))
       (InvoiceCreate.supplier_id p) (InvoiceCreate.po_id p)
       (InvoiceCreate.invoice_no p) (InvoiceCreate.issued_on p)
       (InvoiceCreate.due_on p) (InvoiceCreate.amount_cents p)
       (InvoiceCreate.status p) now)
  ↔ acceptable (POST_invoices p) db.
Proof.
  intros Hids. unfold invoices_constraints, acceptable. simpl.
  rewrite !not_elem_of_column, !Forall_and, elem_of_pk_get, get_is_Some.
  pose proof (pk_fresh _ _ _ (ids_invoices _ Hids)) as Hpk.
  assert (Hpair : Forall (λ i, ¬ (Invoice.supplier_id i = InvoiceCreate.supplier_id p
                                  ∧ Invoice.invoice_no i = InvoiceCreate.invoice_no p))
                    (invoices (rows db))
                  ↔ Forall (λ i, supplier_invoice i
                                 ≠ (InvoiceCreate.supplier_id p,
                                    InvoiceCreate.invoice_no p))
                      (invoices (rows db))).
  { rewrite !Forall_forall. unfold supplier_invoice.
    split; intros H i Hi; specialize (H i Hi); [intros [= ? ?]|intros [? ?]];
      apply H; [done | congruence]. }
  assert (Hpo : match InvoiceCreate.po_id p with
                | Some k => Exists (λ x, PurchaseOrder.id x = k)
                              (purchase_orders (rows db))
                | None => True
                end
                ↔ ∀ k, InvoiceCreate.po_id p = Some k →
                       k ∈ PurchaseOrder.id <$> purchase_orders (rows db)).
  { destruct (InvoiceCreate.po_id p) as [k|].
    - rewrite <- get_is_Some, <- elem_of_pk_get. split; [by intros ? ? [= <-] | auto].
    - split; [by intros _ ? [=] | done]. }
  tauto.
Qed.

Lemma payments_constraints_iff db now p :
  ids_issued db →
  payments_constraints (rows db)
    (Payment.mk (nextval (payments_id_seq (seqs db)))
       (PaymentCreate.invoice_id p) (PaymentCreate.paid_on p)
       (PaymentCreate.amount_cents p) (PaymentCreate.method p)
       (PaymentCreate.reference p) now)
  ↔ acceptable (POST_payments p) db.
Proof.
  intros Hids. unfold payments_constraints, acceptable. simpl.
  rewrite !elem_of_pk_get, !get_is_Some.
  pose proof (pk_fresh _ _ _ (ids_payments _ Hids)). tauto.
Qed.

Lemma po_id_dangling_false po_id db :
  po_id_dangling po_id db = false
  ↔ ∀ k, po_id = Some k → k ∈ PurchaseOrder.id <$> purchase_orders (rows db).
Proof.
  unfold po_id_dangling. destruct po_id as [k|].
  - destruct (get PurchaseOrder.id _ k) as [x|] eqn:Hk.
    + split; [|done]. intros _ ? [= <-]. by eapply get_pk_elem.
    + split; [done|]. intros H. specialize (H k eq_refl).
      apply elem_of_pk_get in H as [? H]. congruence.
  - split; [by intros _ ? [=] | done].
Qed.

(** X10. In a store reached by serving requests, a [POST] is answered with
    the created record only when the references of the payload resolve, its
    values that must be unique are not stored yet, and it passes the checks
    of its table. *)
Theorem post_accepted_only_if now req db body :
  reachable db →
  is_POST req = true →
  (handle now req db).1 = Return body →
  acceptable req db.
Proof.
  intros Hids%reachable_ids_issued Hpost.
  destruct req; try discriminate Hpost; clear Hpost;
    [ rewrite <- (departments_constraints_iff db now) by done
    | rewrite <- (employees_constraints_iff db now) by done
    | rewrite <- (suppliers_constraints_iff db now) by done
    | rewrite <- (purchase_orders_constraints_iff db now) by done
    | rewrite <- (invoices_constraints_iff db now) by done
    | rewrite <- (payments_constraints_iff db now) by done ];
    handler_cases; intros H; done.
Qed.

Lemma post_accepted_only_if_witness :
  acceptable (POST_payments (pix 500)) db_settled.
Proof.
  apply (post_accepted_only_if 9 (POST_payments (pix 500)) db_settled
           (PaymentOut (Payment.mk 3 1 jan15 500 "PIX" None 9)));
    [|reflexivity|reflexivity].
  exists [(1, POST_suppliers acme); (2, POST_invoices (invoice_100000 "OPEN"));
          (3, POST_payments (pix 30000)); (4, POST_payments (pix 70000))].
  reflexivity.
Defined.

(** ** Deletions *)

Lemma elem_of_column_Forall {A} (f : A → Z) (l : list A) k :
  Forall (λ x, f x ≠ k) l ↔ (k ∉ f <$> l).
Proof. symmetry. apply not_elem_of_column. Qed.

Lemma elem_of_filter_pk {A} (pk : A → Z) (l : list A) k x :
  x ∈ filter (λ y, pk y ≠ k) l ↔ x ∈ l ∧ pk x ≠ k.
Proof. rewrite list_elem_of_filter. tauto. Qed.

(** X11. How a [DELETE] is answered.  When no record of the entity has the
    identifier, with 404 and the store untouched.  When the record is held
    by a restricting reference, with the unhandled integrity error and the
    store untouched.  Otherwise with success, and the records of that entity
    are then those of before without the one deleted. *)
Theorem delete_answered now req db e k :
  deletes req = Some (e, k) →
  ((k ∉ ids_of e db) →
   ∃ detail, handle now req db = (Raise (HTTPException 404 detail), db))
  ∧ (k ∈ ids_of e db → restricted req db →
     handle now req db = (Raise IntegrityError, db))
  ∧ (k ∈ ids_of e db → ¬ restricted req db →
     ∃ db', handle now req db = (Return NoContent, db')
            ∧ ∀ r, entity_of r = e →
                   (stored db' r ↔ stored db r ∧ record_id r ≠ k)).
Proof.
  intros Hreq.
  destruct req; try discriminate Hreq; simpl in Hreq; inversion Hreq; subst;
    clear Hreq; unfold restricted; simpl ids_of; handler_cases.
  all: try apply get_pk_elem in Hget as Hin.
  all: try apply get_Some in Hget as [<- _].
  all: try (apply get_None, elem_of_column_Forall in Hget).
  all: try (destruct Hdec as [Hd1 Hd2]; apply elem_of_column_Forall in Hd1, Hd2).
  all: try (apply elem_of_column_Forall in Hdec).
  all: split_and!; try tauto; try (intros; by eexists).
  all: try (intros _ _; eexists; split; [done|]; intros [] Hr; try discriminate Hr;
            simpl; unfold commit_delete_po, commit_delete_invoice,
              commit_delete_payment; rows_cbn; apply elem_of_filter_pk).
  all: rewrite !elem_of_column_Forall in Hdec; tauto.
Qed.

Lemma delete_answered_witness :
  (∃ detail, handle 9 (DELETE_employees_id 7) db_ordered
             = (Raise (HTTPException 404 detail), db_ordered))
  ∧ handle 9 (DELETE_employees_id 1) db_ordered = (Raise IntegrityError, db_ordered)
  ∧ ∃ db', handle 9 (DELETE_employees_id 1) db_staffed = (Return NoContent, db')
           ∧ ∀ r, entity_of r = Employees →
                  (stored db' r ↔ stored db_staffed r ∧ record_id r ≠ 1).
Proof.
  split_and!.
  - apply (delete_answered 9 (DELETE_employees_id 7) db_ordered Employees 7 eq_refl).
    vm_compute. intros H. by repeat (inversion H as [|? ? ? H']; subst; clear H; rename H' into H).
  - apply (delete_answered 9 (DELETE_employees_id 1) db_ordered Employees 1 eq_refl).
    + vm_compute. left.
    + vm_compute. left.
  - apply (delete_answered 9 (DELETE_employees_id 1) db_staffed Employees 1 eq_refl).
    + vm_compute. left.
    + vm_compute. by inversion 1.
Defined.


Lemma filter_filter_ne {A} (f : A → Z) (l : list A) k k' :
  k' ≠ k →
  filter (λ x, f x = k') (filter (λ x, f x ≠ k) l) = filter (λ x, f x = k') l.
Proof.
  intros Hk. induction l as [|a l IH]; [done|].
  rewrite !filter_cons. repeat case_decide; rewrite ?filter_cons;
    repeat case_decide; simpl; congruence.
Qed.

Lemma filter_filter_eq_ne {A} (f : A → Z) (l : list A) k :
  filter (λ x, f x = k) (filter (λ x, f x ≠ k) l) = [].
Proof.
  induction l as [|a l IH]; [done|].
  rewrite !filter_cons. repeat case_decide; rewrite ?filter_cons;
    repeat case_decide; simpl; congruence.
Qed.

(** X12. Deleting a stored invoice succeeds and cascades: its payments are
    removed with it and nothing is paid against its identifier any more,
    while every other invoice, the payments of every other invoice and all
    other tables are as before. *)
Theorem delete_invoice_cascades now k db inv :
  invoice_of k db = Some inv →
  ∃ db',
    handle now (DELETE_invoices_id k) db = (Return NoContent, db')
    ∧ invoice_of k db' = None
    ∧ (∀ p, p ∈ payments (rows db') ↔ p ∈ payments (rows db) ∧ Payment.invoice_id p ≠ k)
    ∧ total_paid k (rows db') = 0
    ∧ (∀ k', k' ≠ k →
         invoice_of k' db' = invoice_of k' db
         ∧ total_paid k' (rows db') = total_paid k' (rows db))
    ∧ departments (rows db') = departments (rows db)
    ∧ employees (rows db') = employees (rows db)
    ∧ suppliers (rows db') = suppliers (rows db)
    ∧ purchase_orders (rows db') = purchase_orders (rows db).
Proof.
  unfold invoice_of. intros Hinv. pose proof (get_Some _ _ _ _ Hinv) as [Hk _].
  unfold handle, with_body, delete_invoice. rewrite Hinv, Hk. simpl.
  eexists. split; [done|]. unfold commit_delete_invoice, total_paid. rows_cbn.
  split_and!; try done.
  - apply get_filter_eq.
  - intros p. rewrite list_elem_of_filter. tauto.
  - by rewrite filter_filter_eq_ne.
  - intros k' Hk'. split; [by apply get_filter_ne|]. by rewrite filter_filter_ne.
Qed.

Lemma delete_invoice_cascades_witness :
  ∃ db',
    handle 9 (DELETE_invoices_id 1) db_settled = (Return NoContent, db')
    ∧ payments (rows db') = [].
Proof.
  destruct (delete_invoice_cascades 9 1 db_settled
              (Invoice.mk 1 1 None "NF-1" jan15 jan15 100000 "PAID" 2) eq_refl)
    as (db' & Hrun & _).
  exists db'. split; [exact Hrun|].
  vm_compute in Hrun. by inversion Hrun.
Defined.

(** X13. A request writes no table but its own: the routes of an entity
    change the rows of that entity only, except that deleting a purchase
    order may also change invoices, deleting an invoice may also change
    payments, and recording a payment may also change invoices; a [GET]
    changes nothing. *)
Theorem writes_only now req db e :
  e ∉ writes req → same_table e (handle now req db).2 db.
Proof.
  intros He.
  destruct req; handler_cases; destruct e; simpl; try done;
    exfalso; apply He; simpl; first [by left | by right; left].
Qed.

Lemma writes_only_witness :
  same_table PurchaseOrders (handle 9 (DELETE_invoices_id 1) db_ordered).2 db_ordered.
Proof.
  apply writes_only. simpl. intros H.
  by repeat (inversion H as [|? ? ? H']; subst; clear H; rename H' into H).
Defined.

(** ** Payments in a row *)

Lemma invoice_of_update_other k j s r sq :
  k ≠ j →
  invoice_of k (mkDB (update_invoice_status j s r) sq) = get Invoice.id (invoices r) k.
Proof.
  intros Hkj. unfold invoice_of, update_invoice_status. simpl.
  rewrite get_fmap by (intros x; by case_decide).
  destruct (get Invoice.id (invoices r) k) as [i|] eqn:Hi; simpl; [|done].
  apply get_Some in Hi as [Hi _]. rewrite decide_False; [done | congruence].
Qed.

Lemma accumulated_handle now req db k inv T0 :
  Invoice.status inv ≠ "PAID" →
  records_payment req →
  accumulated k inv T0 db → accumulated k inv T0 (handle now req db).2.
Proof.
  intros Hnp Hreq [HT Hrow]. destruct req; try done. clear Hreq.
  unfold handle, validated, with_body.
  destruct (decide (PaymentCreate_valid payload)) as [Hvalid|Hvalid]; [|by split].
  destruct (create_payment now payload db) as [out db'] eqn:Hrun.
  cbn [fst snd].
  destruct (create_payment_cases _ _ _ _ _ Hrun)
    as [[Hrows _]|(j & obj & Hj & Hfk & _ & (_ & _ & _ & Hpos) & Hcase)].
  { unfold accumulated, invoice_of in *. by rewrite Hrows. }
  assert (Hrows : rows db'
            = let r1 := set_payments (payments (rows db) ++ [obj]) (rows db) in
              if decide (Invoice.amount_cents j ≤ total_paid (Invoice.id j) r1
                         ∧ Invoice.status j ≠ "PAID")
              then update_invoice_status (Invoice.id j) "PAID" r1 else r1).
  { cbv zeta in *. case_decide; by destruct Hcase. }
  clear Hcase.
  pose proof (get_Some _ _ _ _ Hj) as [Hjid _].
  simpl in Hrows. destruct db' as [r' sq']. cbn [rows] in *.
  set (r1 := set_payments (payments (rows db) ++ [obj]) (rows db)) in *.
  assert (Hsame : total_paid k r' = total_paid k r1).
  { rewrite Hrows. case_decide; [apply total_paid_update_invoice_status | done]. }
  assert (HT1 : total_paid k r1
                = total_paid k (rows db)
                  + (if decide (Payment.invoice_id obj = k)
                     then Payment.amount_cents obj else 0)).
  { apply total_paid_insert. }
  unfold accumulated. cbn [rows]. rewrite Hsame.
  destruct (decide (Invoice.id j = k)) as [Hjk|Hjk].
  - (* a payment against invoice [k] *)
    rewrite decide_True in HT1 by congruence.
    assert (Hjrow : Some j = Some (if decide (T0 < total_paid k (rows db)
                                     ∧ Invoice.amount_cents inv ≤ total_paid k (rows db))
                          then Invoice.set_status "PAID" inv else inv)).
    { rewrite <- Hrow, <- Hj. unfold invoice_of. by rewrite <- Hjk, Hjid. }
    split; [lia|]. rewrite <- Hjk in *. subst r'.
    case_decide as Hwas; injection Hjrow as ->; simpl in *.
    + rewrite decide_False by tauto. rewrite decide_True by lia.
      unfold invoice_of in *. simpl. by rewrite Hrow.
    + case_decide as Hcond.
      * rewrite decide_True by (split; [lia | tauto]).
        change (invoice_of (Invoice.id inv)
                  (mkDB (update_invoice_status (Invoice.id inv) "PAID" r1) sq')
                = Some (Invoice.set_status "PAID" inv)).
        rewrite invoice_of_update_status. unfold invoice_of in Hrow.
        simpl. by rewrite Hrow.
      * rewrite decide_False by tauto.
        unfold invoice_of in *. simpl. by rewrite Hrow.
  - (* a payment against another invoice *)
    rewrite decide_False in HT1 by congruence. rewrite HT1, Z.add_0_r.
    split; [done|]. rewrite <- Hrow. subst r'.
    case_decide; [by rewrite invoice_of_update_other by congruence | done].
Qed.

(** X21. How a payment is acknowledged.  A payment that is answered with
    its record has left every invoice as it was.  The payment that settles
    its invoice (the invoice is not [PAID] and the total paid reaches its
    amount) is stored and the invoice is set to [PAID], yet the request is
    answered with an unhandled exception, status 500, not with the record. *)
Theorem settling_payment_answered_500 now payload db :
  (∀ body db',
     handle now (POST_payments payload) db = (Return body, db') →
     invoices (rows db') = invoices (rows db)
     ∧ ∃ obj, body = PaymentOut obj
              ∧ payments (rows db') = payments (rows db) ++ [obj])
  ∧ (∀ inv,
       reachable db →
       invoice_of (PaymentCreate.invoice_id payload) db = Some inv →
       Invoice.status inv ≠ "PAID" →
       pay_method_check (PaymentCreate.method payload) →
       no_NUL_opt (PaymentCreate.reference payload) →
       payments_id_seq (seqs db) < seq_max →
       0 < PaymentCreate.amount_cents payload ≤ 2147483647 →
       Invoice.amount_cents inv
       ≤ total_paid (Invoice.id inv) (rows db) + PaymentCreate.amount_cents payload →
       ∃ obj db',
         handle now (POST_payments payload) db = (Raise DetachedInstanceError, db')
         ∧ status_code_of DetachedInstanceError = 500
         ∧ payments (rows db') = payments (rows db) ++ [obj]
         ∧ Payment.amount_cents obj = PaymentCreate.amount_cents payload
         ∧ invoice_of (PaymentCreate.invoice_id payload) db'
           = Some (Invoice.set_status "PAID" inv)).
Proof.
  split.
  - intros body db'. unfold handle, validated, with_body.
    destruct (decide (PaymentCreate_valid payload)); [|done].
    destruct (create_payment now payload db) as [out db1] eqn:Hrun. cbn [fst snd].
    destruct (create_payment_cases _ _ _ _ _ Hrun)
      as [[_ (e & -> & _)]|(inv & obj & _ & _ & _ & _ & Hcase)]; [done|].
    cbv zeta in Hcase. case_decide; destruct Hcase as [-> Hrows]; [done|].
    intros [= <- <-]. rewrite Hrows. split; [done|]. by exists obj.
  - intros inv Hreach Hinv Hnp Hm Href Hmax Hamt Hcover.
    pose proof (reachable_store_ok _ Hreach) as Hok.
    pose proof (get_Some _ _ _ _ Hinv) as [Hid _].
    unfold handle, validated, with_body.
    rewrite decide_True by (split; [lia | done]).
    destruct (commit_payment_accepts now payload db inv) as (obj0 & db0 & Hc);
      [done | done | done | done | by eapply stored_invoice_int4 | done | done |].
    destruct (create_payment now payload db) as [out db'] eqn:Hrun. cbn [fst snd].
    destruct (create_payment_cases _ _ _ _ _ Hrun)
      as [[Hrows (e & _ & _)]|(inv' & obj & Hinv' & Hfk & Hobj & _ & Hcase)].
    { exfalso. unfold create_payment in Hrun. unfold invoice_of in Hinv.
      rewrite Hinv, Hc in Hrun. apply commit_payment_Return in Hc as (_ & _ & Hr1).
      apply (f_equal payments) in Hrows.
      case_decide; inversion Hrun; subst; cbn [rows] in Hrows;
        rewrite ?Hr1 in Hrows; simpl in Hrows;
        apply (f_equal length) in Hrows; rewrite length_app in Hrows;
        simpl in Hrows; lia. }
    rewrite Hinv in Hinv'. inversion Hinv'; subst inv'. cbv zeta in Hcase.
    rewrite decide_True in Hcase.
    2:{ split; [|done]. rewrite total_paid_insert, decide_True by done. lia. }
    destruct Hcase as [-> Hrows]. exists obj, db'.
    split_and!; [done | done | by rewrite Hrows | done |].
    unfold invoice_of in *. rewrite Hrows.
    unfold update_invoice_status. cbn [invoices set_invoices set_payments].
    rewrite get_fmap by (intros x; by case_decide).
    rewrite Hinv. simpl. by rewrite decide_True.
Qed.

Lemma settling_payment_answered_500_witness :
  ∃ obj db',
    handle 4 (POST_payments (pix 70000))
      (run [(3, POST_payments (pix 30000))] (db_invoice "OPEN"))
    = (Raise DetachedInstanceError, db')
    ∧ payments (rows db')
      = payments (rows (run [(3, POST_payments (pix 30000))] (db_invoice "OPEN")))
        ++ [obj]
    ∧ invoice_of 1 db'
      = Some (Invoice.mk 1 1 None "NF-1" jan15 jan15 100000 "PAID" 2).
Proof.
  destruct (proj2 (settling_payment_answered_500 4 (pix 70000)
                     (run [(3, POST_payments (pix 30000))] (db_invoice "OPEN")))
              (Invoice.mk 1 1 None "NF-1" jan15 jan15 100000 "OPEN" 2))
    as (obj & db' & H & _ & Hp & _ & Hi).
  - exists [(1, POST_suppliers acme); (2, POST_invoices (invoice_100000 "OPEN"));
            (3, POST_payments (pix 30000))].
    reflexivity.
  - reflexivity.
  - discriminate.
  - by left.
  - done.
  - by vm_compute.
  - simpl. lia.
  - by vm_compute.
  - by exists obj, db'.
Defined.

(** X14. Payments add up whatever way they are split.  After any run of
    payment requests (accepted or refused, against this invoice or others)
    that starts with an invoice that is not [PAID], the invoice is [PAID]
    exactly when some payment was recorded against it and the total paid
    against it has reached its amount; otherwise it is the row it was. *)
Theorem payments_accumulate trace db k inv :
  Forall (λ e, records_payment e.2) trace →
  invoice_of k db = Some inv →
  Invoice.status inv ≠ "PAID" →
  total_paid k (rows db) ≤ total_paid k (rows (run trace db))
  ∧ invoice_of k (run trace db)
    = Some (if decide (total_paid k (rows db) < total_paid k (rows (run trace db))
                       ∧ Invoice.amount_cents inv ≤ total_paid k (rows (run trace db)))
            then Invoice.set_status "PAID" inv else inv).
Proof.
  intros Htrace Hinv Hnp.
  apply (run_invariant (accumulated k inv (total_paid k (rows db))) records_payment);
    [| done |].
  - intros now req d Hreq Hacc. by apply accumulated_handle.
  - split; [done|]. rewrite decide_False by lia. done.
Qed.

Lemma payments_accumulate_witness :
  total_paid 1 (rows (db_invoice "OPEN")) ≤ total_paid 1 (rows db_settled)
  ∧ invoice_of 1 db_settled
    = Some (Invoice.mk 1 1 None "NF-1" jan15 jan15 100000 "PAID" 2).
Proof.
  apply (payments_accumulate
           [(3, POST_payments (pix 30000)); (4, POST_payments (pix 70000))]
           (db_invoice "OPEN") 1
           (Invoice.mk 1 1 None "NF-1" jan15 jan15 100000 "OPEN" 2)).
  - by repeat constructor.
  - reflexivity.
  - discriminate.
Defined.

(** ** Reading a stored record *)

Lemma get_NoDup {A} (pk : A → Z) (l : list A) x :
  NoDup (pk <$> l) → x ∈ l → get pk l (pk x) = Some x.
Proof.
  intros Hnd Hx. destruct (get pk l (pk x)) as [y|] eqn:Hy.
  - apply get_Some in Hy as [Hpk Hy]. f_equal.
    by apply (NoDup_fmap_eq pk l).
  - apply get_None in Hy. rewrite Forall_forall in Hy. by destruct (Hy x Hx).
Qed.

(** X15. In a store reached by serving requests, [GET /{entity}/{id}] with
    the identifier of a stored record returns that very record. *)
Theorem stored_then_read now db r :
  reachable db →
  stored db r →
  ∃ get_req,
    GET_created (body_of r) = Some get_req
    ∧ handle now get_req db = (Return (body_of r), db).
Proof.
  intros Hok%reachable_store_ok Hr. destruct Hok.
  destruct r; simpl in *; eexists; (split; [done|]);
    unfold handle, get_department, get_employee, get_supplier, get_po,
      get_invoice, get_payment; by rewrite get_NoDup.
Qed.

Lemma stored_then_read_witness :
  ∃ get_req,
    GET_created (InvoiceOut (Invoice.mk 1 1 None "NF-1" jan15 jan15 100000 "PAID" 2))
    = Some get_req
    ∧ handle 9 get_req db_settled
      = (Return (InvoiceOut (Invoice.mk 1 1 None "NF-1" jan15 jan15 100000 "PAID" 2)),
         db_settled).
Proof.
  apply (stored_then_read 9 db_settled
           (R_invoice (Invoice.mk 1 1 None "NF-1" jan15 jan15 100000 "PAID" 2))).
  - exists [(1, POST_suppliers acme); (2, POST_invoices (invoice_100000 "OPEN"));
            (3, POST_payments (pix 30000)); (4, POST_payments (pix 70000))].
    reflexivity.
  - simpl. vm_compute. left.
Defined.

(** * More of the tool gateway *)

Section more_gateway.
Import mcp_server.

Variable date_fromisoformat : string → option date.
Variable datetime_fromisoformat : string → option datetime.

(** X16. Each tool that creates a record sends a JSON body whose keys are
    exactly the fields of the request schema of the API route it calls. *)
Theorem create_tools_send_schema_fields :
  (∀ name cost_center,
     json_keys (create_department name cost_center)
     = list_to_set DepartmentCreate_fields)
  ∧ (∀ department_id full_name email role salary_cents hired_on active,
       json_keys (create_employee date_fromisoformat datetime_fromisoformat
                    department_id full_name email role salary_cents hired_on active)
       = list_to_set EmployeeCreate_fields)
  ∧ (∀ name tax_id email phone,
       json_keys (create_supplier name tax_id email phone)
       = list_to_set SupplierCreate_fields)
  ∧ (∀ supplier_id invoice_no issued_on due_on amount_cents status po_id,
       json_keys (create_invoice supplier_id invoice_no issued_on due_on
                    amount_cents status po_id)
       = list_to_set InvoiceCreate_fields)
  ∧ (∀ invoice_id paid_on amount_cents method reference,
       json_keys (create_payment invoice_id paid_on amount_cents method reference)
       = list_to_set PaymentCreate_fields).
Proof.
  split_and!; intros; unfold json_keys; simpl;
    rewrite !dom_insert_L, dom_singleton_L; simpl;
    apply set_eq; intros k; rewrite !elem_of_union, !elem_of_singleton, elem_of_empty;
    tauto.
Qed.

(** X17. What the listing tools ask of the API.  [limit] and [offset] are
    always sent, 50 and 0 when the caller leaves them out; [list_employees]
    asks for a department only when [department_id] is not 0, and never for
    [active]; [list_invoices] asks for a status only when [status] is not
    empty, and never for a supplier. *)
Theorem list_tools_ask :
  (∀ limit offset,
     GET_route (list_departments limit offset)
     = Some (GET_departments (Some (default 50 limit)) (Some (default 0 offset))))
  ∧ (∀ limit offset department_id,
       GET_route (list_employees limit offset department_id)
       = Some (GET_employees (Some (default 50 limit)) (Some (default 0 offset))
                 (if truthy_int department_id then department_id else None) None))
  ∧ (∀ limit offset,
       GET_route (list_suppliers limit offset)
       = Some (GET_suppliers (Some (default 50 limit)) (Some (default 0 offset))))
  ∧ (∀ limit offset status,
       GET_route (list_invoices limit offset status)
       = Some (GET_invoices (Some (default 50 limit)) (Some (default 0 offset))
                 (if truthy_str status then status else None) None)).
Proof.
  split_and!; intros; unfold GET_route, query_str, query_int, query_bool, query_param,
    list_departments, list_employees, list_suppliers, list_invoices; simpl.
  - by lookup_key.
  - destruct (truthy_int department_id) eqn:Hd; simpl; lookup_key; [|done].
    by destruct department_id.
  - by lookup_key.
  - destruct (truthy_str status) eqn:Hs; simpl; lookup_key; [|done].
    by destruct status.
Qed.

Lemma digit_is_digit n : is_digit (digit n).
Proof.
  unfold digit. pose proof (Z.mod_pos_bound n 10 eq_refl) as Hm.
  assert (Hcases : n `mod` 10 = 0 ∨ n `mod` 10 = 1 ∨ n `mod` 10 = 2
                   ∨ n `mod` 10 = 3 ∨ n `mod` 10 = 4 ∨ n `mod` 10 = 5
                   ∨ n `mod` 10 = 6 ∨ n `mod` 10 = 7 ∨ n `mod` 10 = 8
                   ∨ n `mod` 10 = 9) by lia.
  unfold is_digit.
  repeat destruct Hcases as [->|Hcases]; try rewrite Hcases; vm_compute;
    split; discriminate.
Qed.

Lemma isoformat_date_shaped d : date_shaped (isoformat d).
Proof.
  unfold date_shaped, isoformat. simpl.
  split_and!; try done; apply digit_is_digit.
Qed.

(** X18. Whatever the parsers answer, the normalization returns either its
    argument as it was given or a string of the shape [YYYY-MM-DD]: ten
    characters, digits but for the two dashes. *)
Theorem normalize_unchanged_or_date value :
  _normalize_hired_on date_fromisoformat datetime_fromisoformat value = value
  ∨ date_shaped
      (_normalize_hired_on date_fromisoformat datetime_fromisoformat value).
Proof.
  unfold _normalize_hired_on. case_decide; [by left|].
  destruct (contains "T" (strip value)).
  - destruct (datetime_fromisoformat _); [right; apply isoformat_date_shaped | by left].
  - destruct (date_fromisoformat _); [right; apply isoformat_date_shaped | by left].
Qed.
End more_gateway.

(** * The seed script *)

Section seed.
Import seed_table.

Lemma bind_Some {A B} (m : tx A) (f : A → tx B) db b db' :
  bind m f db = (Some b, db') →
  ∃ a db1, m db = (Some a, db1) ∧ f a db1 = (Some b, db').
Proof.
  unfold bind. destruct (m db) as [[a|] db1]; [|done]. intros H. by exists a, db1.
Qed.

Lemma getitem_Some d k db z db1 :
  getitem d k db = (Some z, db1) → db1 = db ∧ d !! k = Some z.
Proof. unfold getitem. by intros [= -> ->]. Qed.

Lemma getindex_Some l i db z db1 :
  getindex l i db = (Some z, db1) → db1 = db ∧ l !! i = Some z.
Proof. unfold getindex. by intros [= -> ->]. Qed.

Lemma ret_Some {A} (a b : A) db db1 : ret a db = (Some b, db1) → b = a ∧ db1 = db.
Proof. unfold ret. by intros [= -> ->]. Qed.

Lemma execute_values_Some {A B} (row : A → tx B) argslist db bs db1 :
  execute_values row argslist db = (Some bs, db1) →
  values row argslist db = (Some bs, db1).
Proof.
  unfold execute_values. by destruct (values row argslist db) as [[?|] ?].
Qed.

(** Takes apart the row of values that a statement has written. *)
Ltac row_inv :=
  repeat (case_decide; simpl);
  let E := fresh "Hrow" in intros E; inversion E; subst; clear E.

Lemma upsert_department_frame now v db r db1 :
  upsert_department now v db = (Some r, db1) → seed_frame db db1.
Proof.
  unfold upsert_department, commit_department, seed_frame. destruct v as [name cc].
  destruct (head _); row_inv; done.
Qed.

Lemma upsert_employee_frame now v db r db1 :
  upsert_employee now v db = (Some r, db1) → seed_frame db db1.
Proof.
  unfold upsert_employee, commit_employee, seed_frame.
  destruct (head _); row_inv; done.
Qed.

Lemma upsert_supplier_frame now v db r db1 :
  upsert_supplier now v db = (Some r, db1) → seed_frame db db1.
Proof.
  unfold upsert_supplier, commit_supplier, seed_frame.
  destruct (head _); row_inv; done.
Qed.

Lemma insert_po_effect now v db k db1 :
  insert_po now v db = (Some k, db1) →
  (∃ obj, purchase_orders (rows db1) = purchase_orders (rows db) ++ [obj]
          ∧ PurchaseOrder.total_cents obj = POCreate.total_cents v)
  ∧ invoices (rows db1) = invoices (rows db)
  ∧ payments (rows db1) = payments (rows db)
  ∧ payments_id_seq (seqs db1) = payments_id_seq (seqs db).
Proof.
  unfold insert_po, commit_po. row_inv.
  split; [by eexists | done].
Qed.

(** The invoices once one row of values is upserted: the rows of before,
    but for those that hold the values now, under the identifier returned. *)
Lemma upsert_invoice_effect now v db k no db1 :
  upsert_invoice now v db = (Some (k, no), db1) →
  purchase_orders (rows db1) = purchase_orders (rows db)
  ∧ payments (rows db1) = payments (rows db)
  ∧ payments_id_seq (seqs db1) = payments_id_seq (seqs db)
  ∧ no = InvoiceCreate.invoice_no v
  ∧ ∀ x, x ∈ invoices (rows db1) →
         x ∈ invoices (rows db)
         ∨ (Invoice.id x = k
            ∧ Invoice.status x = InvoiceCreate.status v
            ∧ Invoice.amount_cents x = InvoiceCreate.amount_cents v).
Proof.
  unfold upsert_invoice, commit_invoice.
  destruct (head _) as [old|]; row_inv;
    split_and!; try done; simpl; intros x Hx.
  - unfold do_update in Hx. apply list_elem_of_fmap in Hx as (y & -> & Hy).
    case_decide; [by right | by left].
  - apply elem_of_app in Hx as [Hx|Hx]; [by left|].
    apply list_elem_of_singleton in Hx as ->. by right.
Qed.

Lemma insert_payment_do_nothing_effect now v db u db1 :
  Forall (λ p, Payment.id p ≤ payments_id_seq (seqs db)) (payments (rows db)) →
  insert_payment_do_nothing now v db = (Some u, db1) →
  purchase_orders (rows db1) = purchase_orders (rows db)
  ∧ invoices (rows db1) = invoices (rows db)
  ∧ ∃ obj, payments (rows db1) = payments (rows db) ++ [obj]
           ∧ Payment.invoice_id obj = PaymentCreate.invoice_id v
           ∧ Payment.amount_cents obj = PaymentCreate.amount_cents v.
Proof.
  intros Hseq. unfold insert_payment_do_nothing, commit_payment.
  rewrite decide_False.
  2:{ intros [_ (p & Hp & Hk)%Exists_exists]. rewrite Forall_forall in Hseq.
      specialize (Hseq p Hp). unfold nextval in Hk. lia. }
  row_inv. split_and!; try done. by eexists.
Qed.

Lemma seed_frame_refl db : seed_frame db db.
Proof. done. Qed.

Lemma seed_frame_trans a b c : seed_frame a b → seed_frame b c → seed_frame a c.
Proof. unfold seed_frame. intros (?&?&?&?) (?&?&?&?). split_and!; congruence. Qed.

(** Takes the successful run of a chain of statements apart. *)
Ltac tx_inv :=
  repeat match goal with
  | H : bind _ _ _ = (Some _, _) |- _ =>
    let a := fresh "a" in let d := fresh "db" in let Hm := fresh "Hm" in
    apply bind_Some in H as (a & d & Hm & H)
  | H : ret _ _ = (Some _, _) |- _ => apply ret_Some in H as [-> ->]
  | H : getitem _ _ _ = (Some _, _) |- _ => apply getitem_Some in H as [-> H]
  | H : getindex _ _ _ = (Some _, _) |- _ => apply getindex_Some in H as [-> H]
  | H : execute_values _ _ _ = (Some _, _) |- _ => apply execute_values_Some in H
  | H : values _ (_ :: _) _ = (Some _, _) |- _ => simpl in H
  | H : values _ [] _ = (Some _, _) |- _ => simpl in H
  end.

(** What a successful seeding has written to purchase orders, invoices and
    payments. *)
Lemma upsert_base_data_effect now db db' :
  Forall (λ p, Payment.id p ≤ payments_id_seq (seqs db)) (payments (rows db)) →
  upsert_base_data now db = (Some (), db') →
  ∃ po0 po1 pay nf0100,
    purchase_orders (rows db') = purchase_orders (rows db) ++ [po0; po1]
    ∧ PurchaseOrder.total_cents po0 = 125900
    ∧ PurchaseOrder.total_cents po1 = 349900
    ∧ payments (rows db') = payments (rows db) ++ [pay]
    ∧ Payment.invoice_id pay = nf0100
    ∧ Payment.amount_cents pay = 349900
    ∧ ∀ x, x ∈ invoices (rows db') →
           x ∈ invoices (rows db)
           ∨ Invoice.status x = "OPEN"
           ∨ (Invoice.id x = nf0100 ∧ Invoice.status x = "PAID"
              ∧ Invoice.amount_cents x = 349900).
Proof.
  intros Hseq Hrun. unfold upsert_base_data, seed_departments in Hrun. tx_inv.
  repeat match goal with
  | H : upsert_department _ _ _ = _ |- _ => apply upsert_department_frame in H
  | H : upsert_employee _ _ _ = _ |- _ => apply upsert_employee_frame in H
  | H : upsert_supplier _ _ _ = _ |- _ => apply upsert_supplier_frame in H
  end.
  repeat match goal with
  | H : seed_frame _ _ |- _ => destruct H as (? & ? & ? & ?)
  | H : insert_po _ _ _ = _ |- _ =>
    apply insert_po_effect in H as ((? & ? & ?) & ? & ? & ?)
  | H : upsert_invoice _ _ _ = (Some ?a, _) |- _ =>
    destruct a; apply upsert_invoice_effect in H as (? & ? & ? & ? & ?)
  end.
  simplify_eq/=.
  apply ret_Some in Hrun as [_ ->].
  unfold dict_of in Hm18. simpl in Hm18. rewrite lookup_insert_eq in Hm18.
  injection Hm18 as <-.
  apply insert_payment_do_nothing_effect in Hm20 as (Hpo & Hinv & pay & Hpay & Hid & Hamt).
  2:{ replace (payments (rows db4)) with (payments (rows db)) by congruence.
      replace (payments_id_seq (seqs db4)) with (payments_id_seq (seqs db))
        by congruence.
      exact Hseq. }
  simpl in Hid, Hamt.
  match goal with
  | H1 : purchase_orders (rows ?d1) = purchase_orders (rows ?d0) ++ [?p0],
    H2 : purchase_orders (rows ?d2) = purchase_orders (rows ?d1) ++ [?p1] |- _ =>
    exists p0, p1, pay, z
  end.
  split_and!; [|done|done| |done|done|].
  - match goal with
    | H1 : purchase_orders (rows ?d1) = purchase_orders (rows ?d0) ++ [?p0],
      H2 : purchase_orders (rows ?d2) = purchase_orders (rows ?d1) ++ [?p1] |- _ =>
      transitivity ((purchase_orders (rows d0) ++ [p0]) ++ [p1]); [congruence|];
      rewrite <- (assoc_L (++)); simpl; congruence
    end.
  - congruence.
  - intros i Hi. rewrite Hinv in Hi.
    match goal with H : ∀ x, x ∈ invoices (rows db4) → _ |- _ =>
      apply H in Hi as [Hi|?] end; [|by right; right].
    match goal with H : ∀ x, x ∈ invoices (rows db2) → _ |- _ =>
      apply H in Hi as [Hi|(? & ? & ?)] end; [|by right; left].
    left. congruence.
Qed.

Lemma main_Some now db db' :
  main now db = (Some (), db') → upsert_base_data now db = (Some (), db').
Proof. done. Qed.

(** X19. Seeding is not idempotent.  On a store whose payment identifiers
    were all issued by the sequence, every run of the seed script that
    completes appends two more purchase orders, of 125900 and 349900, and
    one more payment of 349900: the purchase orders have no key to conflict
    on, and [ON CONFLICT DO NOTHING] on payments never finds a conflict, the
    identifier being the only key of the table. *)
Theorem seeding_again_duplicates now db db' :
  Forall (λ p, Payment.id p ≤ payments_id_seq (seqs db)) (payments (rows db)) →
  main now db = (Some (), db') →
  ∃ po0 po1 pay,
    purchase_orders (rows db') = purchase_orders (rows db) ++ [po0; po1]
    ∧ PurchaseOrder.total_cents po0 = 125900
    ∧ PurchaseOrder.total_cents po1 = 349900
    ∧ payments (rows db') = payments (rows db) ++ [pay]
    ∧ Payment.amount_cents pay = 349900.
Proof.
  intros Hseq Hmain. apply main_Some in Hmain.
  apply upsert_base_data_effect in Hmain
    as (po0 & po1 & pay & k & Hpo & H0 & H1 & Hpay & _ & Hamt & _); [|done].
  by exists po0, po1, pay.
Qed.

Lemma seeding_again_duplicates_witness :
  let db := (main (λ _, 100) empty_db).2 in
  let db' := (main (λ _, 200) db).2 in
  ∃ po0 po1 pay,
    purchase_orders (rows db') = purchase_orders (rows db) ++ [po0; po1]
    ∧ PurchaseOrder.total_cents po0 = 125900
    ∧ PurchaseOrder.total_cents po1 = 349900
    ∧ payments (rows db') = payments (rows db) ++ [pay]
    ∧ Payment.amount_cents pay = 349900.
Proof.
  intros db db'. apply (seeding_again_duplicates (λ _, 200) db db').
  - vm_compute. repeat constructor. discriminate.
  - vm_compute. reflexivity.
Defined.

(** X20. A run of the seed script that completes keeps the settlement
    invariant: on a store where every [PAID] invoice is covered by its
    payments, every [PAID] invoice is covered once the last statement has
    run.  The one invoice the script writes as [PAID], of 349900, gets its
    payment of 349900 from that last statement; the statements being
    committed one by one, this is said of the run that completes only. *)
Theorem seeding_keeps_settled now db db' :
  store_ok db → settled db → main now db = (Some (), db') → settled db'.
Proof.
  intros Hok Hs Hmain. apply main_Some in Hmain.
  apply upsert_base_data_effect in Hmain
    as (po0 & po1 & pay & k & _ & _ & _ & Hpay & Hid & Hamt & Hinv);
    [|apply Hok].
  unfold settled in *. rewrite Forall_forall in *. intros i Hi Hpaid.
  assert (Htp : ∀ j, total_paid j (rows db')
                     = total_paid j (rows db)
                       + (if decide (Payment.invoice_id pay = j)
                          then Payment.amount_cents pay else 0)).
  { intros j. unfold total_paid.
    rewrite Hpay, filter_app, sum_amount_cents_app, filter_cons.
    case_decide; unfold sum_amount_cents; simpl; lia. }
  rewrite Htp. pose proof (total_paid_nonneg (Invoice.id i) db Hok).
  apply Hinv in Hi as [Hi | [Ho | (Hk & _ & Ha)]].
  - specialize (Hs i Hi Hpaid). case_decide; lia.
  - rewrite Ho in Hpaid. discriminate.
  - rewrite decide_True by congruence. lia.
Qed.

Lemma seeding_keeps_settled_witness :
  settled (main (λ _, 200) (main (λ _, 100) empty_db).2).2.
Proof.
  apply (seeding_keeps_settled (λ _, 200) (main (λ _, 100) empty_db).2).
  - split; by_evaluation.
  - by_evaluation.
  - vm_compute. reflexivity.
Defined.

End seed.
